(** * Broker gateway adapter (MT5 bridge client): model and properties

    The development embeds the TypeScript adapter that talks to the MT5
    bridge: the response normalizer [parseOrderResponse], the session
    handling ([connect], [disconnect], [setToken], [clearToken]), the symbol
    resolver [findMatchingSymbol], the order executor [sendOrder] and the
    volume-probing position closer [closePosition] of the enhanced service
    class, together with the two simpler duplicates of the adapter
    ([executeTrade] of the class-based service and [closePosition] of the
    object-literal service).  Further modules embed the session handling,
    [getPendingOrders] and [closePosition] of the class-based service,
    [sendOrder] and [connect] of the object-literal service, and the symbol
    and cache helpers of the trading store.

    Conventions of the model.
    - A JavaScript number is an exact rational ([Q]), an infinity or
      [NaN]; arithmetic on rationals is exact.  Strings are byte strings,
      case mapping is ASCII.
    - A decoded body is JSON data ([JS.value]); its objects are plain
      records, read through own keys.  Converting an object to a string or
      to a number goes through its [toString]: an object that holds a key
      [toString] of its own hides the inherited method behind a value that
      cannot be called, and the conversion throws a [TypeError]; any other
      object prints as [[object Object]].  The operations that throw on
      the wrong kind of value ([in], reading a property of [null] or
      [undefined], calling a string method) are modelled as such.
    - What the bridge reports is kept as it comes: the fields of a
      position or of a response are values, not numbers, until the code
      converts them.
    - The HTTP client is axios with its default settings: a reply whose
      status lies outside [200, 300) is thrown as an error that carries
      the response.
    - [async] methods run to completion one after the other; the state of
      the service and the log of issued HTTP requests are threaded through a
      state-and-exception monad.  The bridge is a parameter: a function from
      the requests seen so far and the current request to what comes back on
      the wire. *)

From Stdlib Require Import String Ascii List ZArith QArith Qabs Qround.
From Stdlib Require Import Lia Lqa Bool DecimalString.
Import ListNotations.

#[local] Set Warnings "-register-all".

Local Open Scope list_scope.
Local Open Scope string_scope.

(* ================================================================== *)
(** * JavaScript values and the primitives the adapter relies on        *)
(* ================================================================== *)

Module JS.

(** A number: a rational, an infinity (a JSON literal too large for a
    double decodes to one) or [NaN]. *)
Inductive number : Type :=
| NaN
| Infinity (negative : bool)
| Finite (q : Q).

Coercion Finite : Q >-> number.

(** Decoded JSON data, plus [undefined] and, for the values that are no
    data at all, a function. *)
Inductive value : Type :=
| Undefined
| Null
| Bool (b : bool)
| Num (n : number)
| Str (s : string)
| Arr (items : list value)
| Obj (fields : list (string * value))
| Fun.

(** What a [throw] carries: an [Error] object.  [response] is the
    [error.response] of an axios error (status and decoded body). *)
Record error : Type := mkError {
  message : string;
  code : option string;
  http_response : option (Z * value)
}.

Definition TypeError (msg : string) : error := mkError msg None None.

(** What converting an object throws when its [toString] cannot be
    called. *)
Definition unconvertible : error :=
  TypeError "Cannot convert object to primitive value".
Definition newError (msg : string) : error := mkError msg None None.

(** Result of an expression that may throw. *)
Inductive res (A : Type) : Type :=
| Ok (a : A)
| Throw (e : error).
Arguments Ok {A} a.
Arguments Throw {A} e.

(** ** Numbers *)

Definition Qltb (a b : Q) : bool := negb (Qle_bool b a).
Definition Qgtb (a b : Q) : bool := Qltb b a.

(** [a < b]: false as soon as one side is [NaN]. *)
Definition num_lt (a b : number) : bool :=
  match a, b with
  | NaN, _ => false
  | _, NaN => false
  | Infinity na, Infinity nb => na && negb nb
  | Infinity na, Finite _ => na
  | Finite _, Infinity nb => negb nb
  | Finite p, Finite q => Qltb p q
  end.

(** [a > b] *)
Definition num_gt (a b : number) : bool := num_lt b a.

(** [a === b] on numbers *)
Definition num_eq (a b : number) : bool :=
  match a, b with
  | Finite p, Finite q => Qeq_bool p q
  | Infinity na, Infinity nb => Bool.eqb na nb
  | _, _ => false
  end.

(** [Math.abs(a)] *)
Definition num_abs (a : number) : number :=
  match a with
  | NaN => NaN
  | Infinity _ => Infinity false
  | Finite q => Finite (Qabs q)
  end.

(** [a - b] *)
Definition num_sub (a b : number) : number :=
  match a, b with
  | NaN, _ => NaN
  | _, NaN => NaN
  | Infinity na, Infinity nb => if Bool.eqb na nb then NaN else Infinity na
  | Infinity na, Finite _ => Infinity na
  | Finite _, Infinity nb => Infinity (negb nb)
  | Finite p, Finite q => Finite (p - q)
  end.

(** [a * b] *)
Definition num_mul (a b : number) : number :=
  match a, b with
  | NaN, _ => NaN
  | _, NaN => NaN
  | Infinity na, Infinity nb => Infinity (xorb na nb)
  | Infinity na, Finite q =>
      if Qeq_bool q 0 then NaN else Infinity (xorb na (Qltb q 0))
  | Finite p, Infinity nb =>
      if Qeq_bool p 0 then NaN else Infinity (xorb (Qltb p 0) nb)
  | Finite p, Finite q => Finite (p * q)
  end.

Definition Z_toString (z : Z) : string := NilZero.string_of_int (Z.to_int z).

Definition nat_toString (n : nat) : string := Z_toString (Z.of_nat n).

(** ** Strings *)

Definition lower_ascii (c : ascii) : ascii :=
  let n := nat_of_ascii c in
  if (65 <=? n)%nat && (n <=? 90)%nat then ascii_of_nat (n + 32) else c.

Fixpoint toLowerCase (s : string) : string :=
  match s with
  | EmptyString => EmptyString
  | String c r => String (lower_ascii c) (toLowerCase r)
  end.

(** [s.includes(pat)] *)
Fixpoint includes (s pat : string) : bool :=
  String.prefix pat s
  || match s with
     | EmptyString => false
     | String _ r => includes r pat
     end.

Fixpoint rev_string (s : string) : string :=
  match s with
  | EmptyString => EmptyString
  | String c r => rev_string r ++ String c EmptyString
  end.

Definition endsWith (s suffix : string) : bool :=
  String.prefix (rev_string suffix) (rev_string s).

(** White space of [trim] and of the numeric conversions (ASCII part). *)
Definition is_space (c : ascii) : bool :=
  let n := nat_of_ascii c in
  (n =? 32)%nat || ((9 <=? n)%nat && (n <=? 13)%nat).

Fixpoint trimStart (s : string) : string :=
  match s with
  | String c r => if is_space c then trimStart r else s
  | EmptyString => EmptyString
  end.

Definition trim (s : string) : string :=
  rev_string (trimStart (rev_string (trimStart s))).

(** [s.split(/[\n,]/)] *)
Fixpoint split_lines_commas (s : string) : list string :=
  match s with
  | EmptyString => [EmptyString]
  | String c r =>
      if Ascii.eqb c "010"%char || Ascii.eqb c ","%char
      then EmptyString :: split_lines_commas r
      else match split_lines_commas r with
           | w :: ws => String c w :: ws
           | [] => [String c EmptyString]
           end
  end.

(** ** Printing numbers *)

(** Fraction digits of [f] (with [0 <= f < 1]), at most [n] of them. *)
Fixpoint fraction_digits (n : nat) (f : Q) : string :=
  match n with
  | O => ""
  | S n' =>
      if Qeq_bool f 0 then ""
      else
        let d := Qfloor (f * 10) in
        Z_toString d ++ fraction_digits n' (f * 10 - inject_Z d)
  end.

(** The digits of [a] (with [0 <= a]) before and after the point, up to
    twenty fraction digits. *)
Definition positional (a : Q) : string :=
  let i := Qfloor a in
  let frac := fraction_digits 20 (a - inject_Z i) in
  Z_toString i ++ (if String.eqb frac "" then "" else "." ++ frac).

Fixpoint dropZeros (s : string) : string :=
  match s with
  | String "0"%char r => dropZeros r
  | _ => s
  end.

(** The first digit, then a point and the other digits when any is left
    once the zeros at the end are dropped. *)
Definition mantissa (digits : string) : string :=
  match digits with
  | String d r =>
      let rest := rev_string (dropZeros (rev_string r)) in
      String d (if String.eqb rest "" then "" else "." ++ rest)
  | EmptyString => EmptyString
  end.

(** How often [a] (with [0 < a]) is to be multiplied by 10 to reach 1. *)
Fixpoint shifts (fuel : nat) (a : Q) : nat :=
  match fuel with
  | O => O
  | S n => if Qltb a 1 then S (shifts n (a * 10)) else O
  end.

(** [Number.prototype.toString] on a rational: positional notation from
    1e-6 up to, and not including, 1e21, exponent notation beyond.  The
    digits are those of the rational itself. *)
Definition Q_toString (q : Q) : string :=
  let a := Qabs q in
  let sign := if Qltb q 0 then "-" else "" in
  if Qeq_bool a 0 then "0"
  else if Qle_bool 1000000000000000000000 a then
    let digits := Z_toString (Qfloor a) in
    sign ++ mantissa digits ++ "e+" ++ nat_toString (String.length digits - 1)
  else if Qltb a 0.000001 then
    let e := shifts (S (Pos.size_nat (Qden a))) a in
    sign ++ positional (a * 10 ^ Z.of_nat e) ++ "e-" ++ nat_toString e
  else sign ++ positional a.

Definition Number_toString (n : number) : string :=
  match n with
  | NaN => "NaN"
  | Infinity negative => if negative then "-Infinity" else "Infinity"
  | Finite q => Q_toString q
  end.

(** ** Digits and the numeric conversions of strings *)

Definition digit_value (c : ascii) : option Z :=
  let n := nat_of_ascii c in
  if (48 <=? n)%nat && (n <=? 57)%nat then Some (Z.of_nat (n - 48))
  else if (97 <=? n)%nat && (n <=? 122)%nat then Some (Z.of_nat (n - 87))
  else if (65 <=? n)%nat && (n <=? 90)%nat then Some (Z.of_nat (n - 55))
  else None.

Definition digit_in (radix : Z) (c : ascii) : option Z :=
  match digit_value c with
  | Some d => if (d <? radix)%Z then Some d else None
  | None => None
  end.

(** Longest prefix of digits in [radix]: the digits read so far as a
    number, how many there were, and the rest of the string. *)
Fixpoint read_digits (radix : Z) (acc : Z) (n : nat) (s : string)
  : Z * nat * string :=
  match s with
  | EmptyString => (acc, n, EmptyString)
  | String c r =>
      match digit_in radix c with
      | Some d => read_digits radix (acc * radix + d)%Z (S n) r
      | None => (acc, n, s)
      end
  end.

Definition read_sign (s : string) : bool * string :=
  match s with
  | String "-"%char r => (true, r)
  | String "+"%char r => (false, r)
  | _ => (false, s)
  end.

Definition has_hex_prefix (s : string) : bool :=
  String.prefix "0x" s || String.prefix "0X" s.

Definition drop2 (s : string) : string :=
  match s with
  | String _ (String _ r) => r
  | _ => EmptyString
  end.

(** [parseInt(s)] when [radix10] is [false], [parseInt(s, 10)] when it is
    [true]; [None] is [NaN]. *)
Definition parseInt_string (radix10 : bool) (s : string) : option Z :=
  let '(neg, body) := read_sign (trimStart s) in
  let '(radix, body) :=
    if negb radix10 && has_hex_prefix body then (16%Z, drop2 body)
    else (10%Z, body) in
  let '(n, count, _) := read_digits radix 0 0 body in
  match count with
  | O => None
  | _ => Some (if neg then (- n)%Z else n)
  end.

Definition exponent_part (s : string) : option (Z * string) :=
  match s with
  | String c r =>
      if Ascii.eqb c "e"%char || Ascii.eqb c "E"%char then
        let '(neg, r1) := read_sign r in
        let '(e, count, r2) := read_digits 10 0 0 r1 in
        match count with
        | O => None
        | _ => Some (if neg then (- e)%Z else e, r2)
        end
      else Some (0%Z, s)
  | EmptyString => Some (0%Z, s)
  end.

(** The decimal literal of [StringToNumber], after the sign. *)
Definition decimal_literal (s : string) : option Q :=
  let '(ip, ni, r1) := read_digits 10 0 0 s in
  let '(fp, nf, r2) :=
    match r1 with
    | String "."%char r => read_digits 10 ip 0 r
    | _ => (ip, O, r1)
    end in
  match ni, nf with
  | O, O => None
  | _, _ =>
      match exponent_part r2 with
      | Some (e, EmptyString) =>
          Some (inject_Z fp * Qpower 10 (e - Z.of_nat nf))
      | _ => None
      end
  end.

Definition radix_literal (s : string) : option (option Z) :=
  let radix_of (c : ascii) : option Z :=
    if Ascii.eqb c "x"%char || Ascii.eqb c "X"%char then Some 16%Z
    else if Ascii.eqb c "o"%char || Ascii.eqb c "O"%char then Some 8%Z
    else if Ascii.eqb c "b"%char || Ascii.eqb c "B"%char then Some 2%Z
    else None in
  match s with
  | String "0"%char (String c r) =>
      match radix_of c with
      | Some radix =>
          match read_digits radix 0 0 r with
          | (n, S _, EmptyString) => Some (Some n)
          | _ => Some None
          end
      | None => None
      end
  | _ => None
  end.

(** [Number(s)] for a string [s]. *)
Definition StringToNumber (s : string) : number :=
  let t := trim s in
  if String.eqb t "" then Finite 0
  else
    match radix_literal t with
    | Some (Some n) => Finite (inject_Z n)
    | Some None => NaN
    | None =>
        let '(neg, body) := read_sign t in
        if String.eqb body "Infinity" then Infinity neg
        else match decimal_literal body with
             | Some q => Finite (if neg then - q else q)
             | None => NaN
             end
    end.

(** ** Values *)

Definition typeof (v : value) : string :=
  match v with
  | Undefined => "undefined"
  | Null => "object"
  | Bool _ => "boolean"
  | Num _ => "number"
  | Str _ => "string"
  | Arr _ => "object"
  | Obj _ => "object"
  | Fun => "function"
  end.

Definition truthy (v : value) : bool :=
  match v with
  | Undefined => false
  | Null => false
  | Bool b => b
  | Num NaN => false
  | Num (Infinity _) => true
  | Num (Finite q) => negb (Qeq_bool q 0)
  | Str s => negb (String.eqb s "")
  | Arr _ => true
  | Obj _ => true
  | Fun => true
  end.

(** [a || b] *)
Definition or_else (a b : value) : value := if truthy a then a else b.

Definition isArray (v : value) : bool :=
  match v with Arr _ => true | _ => false end.

Fixpoint lookup (k : string) (fields : list (string * value)) : option value :=
  match fields with
  | [] => None
  | (k', v) :: r => if String.eqb k k' then Some v else lookup k r
  end.

Definition array_index (k : string) (items : list value) : option value :=
  match parseInt_string true k with
  | Some i =>
      if String.eqb (Z_toString i) k && (0 <=? i)%Z then nth_error items (Z.to_nat i)
      else None
  | None => None
  end.

(** [k in v]: a [TypeError] unless [v] is an object. *)
Definition has_property (k : string) (v : value) : res bool :=
  match v with
  | Obj fields => Ok (match lookup k fields with Some _ => true | None => false end)
  | Arr items =>
      Ok (String.eqb k "length"
          || match array_index k items with Some _ => true | None => false end)
  | Fun => Ok (String.eqb k "length" || String.eqb k "name")
  | _ => Throw (TypeError ("Cannot use 'in' operator to search for '" ++ k ++ "'"))
  end.

(** [v.k] (a read): a [TypeError] on [null] and [undefined]. *)
Definition get (v : value) (k : string) : res value :=
  match v with
  | Undefined =>
      Throw (TypeError ("Cannot read properties of undefined (reading '" ++ k ++ "')"))
  | Null =>
      Throw (TypeError ("Cannot read properties of null (reading '" ++ k ++ "')"))
  | Obj fields => Ok (match lookup k fields with Some x => x | None => Undefined end)
  | Arr items =>
      if String.eqb k "length" then Ok (Num (inject_Z (Z.of_nat (List.length items))))
      else Ok (match array_index k items with Some x => x | None => Undefined end)
  | Str s =>
      if String.eqb k "length" then Ok (Num (inject_Z (Z.of_nat (String.length s))))
      else Ok Undefined
  | Bool _ => Ok Undefined
  | Num _ => Ok Undefined
  | Fun => if String.eqb k "length" then Ok (Num 0%Q)
           else if String.eqb k "name" then Ok (Str "")
           else Ok Undefined
  end.

(** [v?.k] *)
Definition get_opt (v : value) (k : string) : value :=
  match get v k with
  | Ok x => x
  | Throw _ => Undefined
  end.

(** [String(v)], as template literals, [parseInt] and [join] apply it.
    An object that holds a key [toString] cannot be converted; any other
    object prints as [[object Object]].  An array prints its elements,
    [null] and [undefined] as nothing, with commas in between. *)
Fixpoint ToString (v : value) : res string :=
  match v with
  | Undefined => Ok "undefined"
  | Null => Ok "null"
  | Bool true => Ok "true"
  | Bool false => Ok "false"
  | Num n => Ok (Number_toString n)
  | Str s => Ok s
  | Arr items =>
      (fix join (l : list value) : res string :=
         match l with
         | [] => Ok ""
         | x :: r =>
             match (match x with
                    | Undefined => Ok ""
                    | Null => Ok ""
                    | _ => ToString x
                    end) with
             | Throw e => Throw e
             | Ok sx =>
                 match r with
                 | [] => Ok sx
                 | _ => match join r with
                        | Ok rest => Ok (sx ++ "," ++ rest)
                        | Throw e => Throw e
                        end
                 end
             end
         end) items
  | Obj fields =>
      match lookup "toString" fields with
      | Some _ => Throw unconvertible
      | None => Ok "[object Object]"
      end
  | Fun => Ok "function () { [native code] }"
  end.

(** [v.toString()], the method call: on an object that holds a key
    [toString] there is nothing to call. *)
Definition call_toString (v : value) : res string :=
  match v with
  | Undefined =>
      Throw (TypeError "Cannot read properties of undefined (reading 'toString')")
  | Null => Throw (TypeError "Cannot read properties of null (reading 'toString')")
  | Obj fields =>
      match lookup "toString" fields with
      | Some _ => Throw (TypeError "toString is not a function")
      | None => Ok "[object Object]"
      end
  | _ => ToString v
  end.

(** [Number(v)], as the arithmetic and the comparisons apply it: an
    object or an array goes through its string. *)
Definition ToNumber (v : value) : res number :=
  match v with
  | Undefined => Ok NaN
  | Null => Ok (Finite 0)
  | Bool true => Ok (Finite 1)
  | Bool false => Ok (Finite 0)
  | Num n => Ok n
  | Str s => Ok (StringToNumber s)
  | _ => match ToString v with
         | Ok s => Ok (StringToNumber s)
         | Throw e => Throw e
         end
  end.

(** [v > 0] *)
Definition gt0 (v : value) : res bool :=
  match ToNumber v with
  | Ok n => Ok (num_gt n (Finite 0))
  | Throw e => Throw e
  end.

(** [parseInt(v)]; [None] is [NaN]. *)
Definition parseInt (v : value) : res (option Z) :=
  match ToString v with
  | Ok s => Ok (parseInt_string false s)
  | Throw e => Throw e
  end.

(** [a === b] where [b] is a number or a string. *)
Definition strict_eq_num (a : value) (q : Q) : bool :=
  match a with Num n => num_eq n (Finite q) | _ => false end.

Definition strict_eq_str (a : value) (s : string) : bool :=
  match a with Str t => String.eqb t s | _ => false end.

Definition strict_eq_bool (a : value) (b : bool) : bool :=
  match a with Bool c => Bool.eqb c b | _ => false end.

(** [a === b] for two values that are not one and the same object: two
    decoded objects, or arrays, are never identical. *)
Definition strict_eq (a b : value) : bool :=
  match a, b with
  | Undefined, Undefined => true
  | Null, Null => true
  | Bool x, Bool y => Bool.eqb x y
  | Num m, Num n => num_eq m n
  | Str s, Str t => String.eqb s t
  | _, _ => false
  end.

(** Method calls.  [v.toLowerCase()] exists on strings only. *)
Definition call_toLowerCase (v : value) : res string :=
  match v with
  | Str s => Ok (toLowerCase s)
  | Undefined => Throw (TypeError "Cannot read properties of undefined (reading 'toLowerCase')")
  | Null => Throw (TypeError "Cannot read properties of null (reading 'toLowerCase')")
  | _ => Throw (TypeError "toLowerCase is not a function")
  end.

(** [v.includes(pat)]: substring test on a string, membership on an
    array, a [TypeError] on anything else. *)
Definition call_includes (v : value) (pat : string) : res bool :=
  match v with
  | Str s => Ok (includes s pat)
  | Arr items => Ok (existsb (fun x => strict_eq_str x pat) items)
  | Undefined => Throw (TypeError "Cannot read properties of undefined (reading 'includes')")
  | Null => Throw (TypeError "Cannot read properties of null (reading 'includes')")
  | _ => Throw (TypeError "includes is not a function")
  end.

End JS.

(* ================================================================== *)
(** * The HTTP client (axios) and the effects of a method               *)
(* ================================================================== *)

Module Http.

Record request : Type := mkRequest {
  verb : string;
  path : string;
  params : list (string * JS.value)
}.

(** What the bridge sends back: a reply with a status and a decoded body,
    or nothing at all (timeout, refused connection, DNS failure). *)
Inductive wire : Type :=
| Reply (status : Z) (data : JS.value)
| NoReply (message : string) (code : option string).

(** The bridge, seen from the adapter: the requests issued before, the
    request at hand, what comes back. *)
Definition bridge : Type := list request -> request -> wire.

Record response : Type := mkResponse {
  status : Z;
  data : JS.value
}.

(** axios settles a reply with its default [validateStatus]: a status in
    [200, 300) resolves, any other rejects with an error that carries the
    response. *)
Definition settle (w : wire) : JS.res response :=
  match w with
  | Reply s d =>
      if ((200 <=? s) && (s <? 300))%Z then JS.Ok (mkResponse s d)
      else JS.Throw (JS.mkError
                       ("Request failed with status code " ++ JS.Z_toString s)
                       (if ((400 <=? s) && (s <? 500))%Z then Some "ERR_BAD_REQUEST"
                        else if ((500 <=? s) && (s <? 600))%Z then Some "ERR_BAD_RESPONSE"
                        else None)
                       (Some (s, d)))
  | NoReply m c => JS.Throw (JS.mkError m c None)
  end.

Definition is_path (p : string) (r : request) : bool := String.eqb (path r) p.

End Http.

(** State and exceptions: a method takes the state of the service and
    gives a result, or what it threw, together with the state it leaves. *)
Module Eff.

Section Monad.
Context {S : Type}.

Definition M (A : Type) : Type := S -> JS.res A * S.

Definition ret {A} (a : A) : M A := fun s => (JS.Ok a, s).

Definition bind {A B} (m : M A) (k : A -> M B) : M B :=
  fun s => match m s with
           | (JS.Ok a, s') => k a s'
           | (JS.Throw e, s') => (JS.Throw e, s')
           end.

Definition throw {A} (e : JS.error) : M A := fun s => (JS.Throw e, s).

(** [try { m } catch (e) { h e }] *)
Definition try_catch {A} (m : M A) (h : JS.error -> M A) : M A :=
  fun s => match m s with
           | (JS.Ok a, s') => (JS.Ok a, s')
           | (JS.Throw e, s') => h e s'
           end.

Definition lift {A} (r : JS.res A) : M A := fun s => (r, s).

Definition gets {A} (f : S -> A) : M A := fun s => (JS.Ok (f s), s).

Definition modify (f : S -> S) : M unit := fun s => (JS.Ok tt, f s).

End Monad.

Definition res_bind {A B} (r : JS.res A) (k : A -> JS.res B) : JS.res B :=
  match r with
  | JS.Ok a => k a
  | JS.Throw e => JS.Throw e
  end.

End Eff.

Notation "x <- m ;; k" := (Eff.bind m (fun x => k))
  (at level 61, m at next level, right associativity).
Notation "m ;;; k" := (Eff.bind m (fun _ => k))
  (at level 61, right associativity).
Notation "'let?' x := r 'in' k" := (Eff.res_bind r (fun x => k))
  (at level 61, x name, r at next level, right associativity).

(* ================================================================== *)
(** * The enhanced service class                                        *)
(* ================================================================== *)

Module Enhanced.
Import JS Http Eff.

Local Open Scope Q_scope.

(** ** Data *)

(** The fields of [MT5ApiService]; [mt5_token] is the item kept under the
    key ['mt5_token'] of [localStorage], [clients] counts the transport
    clients created so far, [sent] logs the requests issued. *)
Record state : Type := mkState {
  token : option string;
  mt5_token : option string;
  baseURL : string;
  apiKey : string;
  clients : nat;
  sent : list request
}.

Definition set_token (t : option string) (s : state) : state :=
  mkState t (mt5_token s) (baseURL s) (apiKey s) (clients s) (sent s).
Definition set_mt5_token (t : option string) (s : state) : state :=
  mkState (token s) t (baseURL s) (apiKey s) (clients s) (sent s).
Definition set_baseURL (u : string) (s : state) : state :=
  mkState (token s) (mt5_token s) u (apiKey s) (clients s) (sent s).
Definition new_client (s : state) : state :=
  mkState (token s) (mt5_token s) (baseURL s) (apiKey s) (S (clients s)) (sent s).
Definition log_request (r : request) (s : state) : state :=
  mkState (token s) (mt5_token s) (baseURL s) (apiKey s) (clients s) (sent s ++ [r])%list.

Record ConnectionCredentials : Type := mkCredentials {
  accountNumber : string;
  password : string;
  serverName : string
}.

Record ConnectionResponse : Type := mkConnectionResponse {
  success : bool;
  response_token : option string;
  response_message : value
}.

(** A volume to try: [value] is the caller's number, a volume of the
    position as the bridge reported it, or a scaled number. *)
Record VolumeFormatEntry : Type := mkFormat {
  value_of : value;
  description : string
}.

Inductive side : Type := Buy | Sell.

(** Modelled from the spec: the interface [Position] of [types/mt5], a
    file that is not among the sources.  The fields are those
    [getPositions] fills in, each with the value the record of the bridge
    holds: nothing converts them on the way. *)
Record Position : Type := mkPosition {
  ticket : value;
  symbol : value;
  type : side;
  volume : value;
  rawVolume : value;
  openPrice : value;
  currentPrice : value;
  profit : value;
  swap : value;
  commission : value;
  openTime : value;
  position_comment : value
}.

(** What [parseOrderResponse] returns; [sendOrder] returns the same
    shape. *)
Record OrderResponse : Type := mkOrderResponse {
  retcode : number;
  order : option value;
  comment : value;
  orderData : option value
}.

(** How the callers read a normalized response:
    [result.retcode === 10009]. *)
Inductive kind : Type := Success | Failure.

Definition kind_of (r : OrderResponse) : kind :=
  if num_eq (retcode r) 10009 then Success else Failure.

(** What [closePosition] returns. *)
Record CloseResult : Type := mkCloseResult {
  close_retcode : Q;
  close_ticket : option value;
  close_comment : value;
  volumeUsed : option value;
  attemptNumber : option nat;
  formatDescription : option string
}.

(** A method of the service. *)
Local Abbreviation M := (@Eff.M state).

(** ** The transport *)

Section Service.
Variable net : bridge.

(** [this.apiClient.get(path, { params })] *)
Definition api_get (p : string) (ps : list (string * value)) : M response :=
  fun s =>
    let r := mkRequest "GET" p ps in
    (settle (net (sent s) r), log_request r s).

Definition is_ok_status (r : response) : bool :=
  ((status r =? 200) || (status r =? 201))%Z.

(** [!!this.token] *)
Definition has_token (s : state) : bool :=
  match token s with
  | Some t => negb (String.eqb t "")
  | None => false
  end.

Definition token_value (s : state) : value :=
  match token s with
  | Some t => Str t
  | None => Null
  end.

(** ** Utility methods *)

(** [this.token = t; localStorage.setItem('mt5_token', t)] *)
Definition store (t : string) : M unit :=
  modify (set_token (Some t)) ;;;
  modify (set_mt5_token (Some t)).

(** [this.token = null; localStorage.removeItem('mt5_token')] *)
Definition forget : M unit :=
  modify (set_token None) ;;;
  modify (set_mt5_token None).

Definition setToken (t : string) : M unit := store t.

Definition getStoredToken : M (option string) := gets mt5_token.

Definition clearToken : M unit := forget.

Definition getApiEndpoint : M string := gets baseURL.

Definition getCurrentToken : M (option string) := gets token.

(** [endpoint.endsWith('/') ? endpoint.slice(0, -1) : endpoint] *)
Definition setApiEndpoint (endpoint : string) : M unit :=
  modify (set_baseURL
            (if endsWith endpoint "/"
             then String.substring 0 (String.length endpoint - 1) endpoint
             else endpoint)).

(** The authentication test of the [catch] blocks. *)
Definition auth_phrase (msg : string) : bool :=
  includes msg "Authentication failed"
  || includes msg "Session expired"
  || includes msg "Invalid token".

Definition status_is (e : error) (code : Z) : bool :=
  match http_response e with
  | Some (s, _) => (s =? code)%Z
  | None => false
  end.

Definition is_auth_error (e : error) : bool :=
  auth_phrase (message e) || status_is e 401.

(** [msg || fallback] on strings *)
Definition str_or (msg fallback : string) : string :=
  if String.eqb msg "" then fallback else msg.

(** ** The response normalizer *)

Definition success_keyword (lower : string) : bool :=
  includes lower "success" || includes lower "executed" || includes lower "placed".

Definition nonzero (z : option Z) : option Z :=
  match z with
  | Some n => if (n =? 0)%Z then None else Some n
  | None => None
  end.

(** [a || b] on numbers *)
Definition num_or (a b : number) : number := if truthy (Num a) then a else b.

(** [a || b] where [b] is a template literal, evaluated only when [a] is
    falsy. *)
Definition or_template (a : value) (b : res string) : res value :=
  if truthy a then Ok a else let? text := b in Ok (Str text).

(** The conversions are those of the code, the ones of its log lines
    included: [x > 0], [parseInt(x)] and a template literal that holds [x]
    each convert [x], and throw when it cannot be converted. *)

(** The rule of a body whose [ticket] is greater than 0. *)
Definition ticket_rule (responseData ticket message cmt : value) (operation : string)
  : res OrderResponse :=
  let? printed := ToString ticket in
  Ok (mkOrderResponse 10009 (Some ticket)
        (or_else (or_else message cmt) (Str (operation ++ " successful")))
        (Some responseData)).

(** The rule of a body that holds [retcode]. *)
Definition retcode_rule (raw cmt message ord ticket : value) (operation : string)
  : res OrderResponse :=
  let? parsed := parseInt raw in
  let retcode := match nonzero parsed with
                 | Some n => Num (inject_Z n)
                 | None => raw
                 end in
  let? printed := ToString retcode in
  if strict_eq_num retcode 10009 || strict_eq_str retcode "10009" then
    Ok (mkOrderResponse 10009
          (Some (or_else (or_else ord ticket) (Num 0)))
          (or_else (or_else cmt message) (Str (operation ++ " successful")))
          None)
  else
    let? code := parseInt retcode in
    let? text :=
      or_template (or_else cmt message)
        (let? printed := ToString retcode in
         Ok (operation ++ " failed with retcode: " ++ printed)) in
    Ok (mkOrderResponse
          (match nonzero code with
           | Some n => inject_Z n
           | None => 10004
           end)
          None text None).

(** The rule of a body that holds [success]. *)
Definition success_rule (flag message cmt ord ticket : value) (operation : string)
  : OrderResponse :=
  if strict_eq_bool flag true || strict_eq_str flag "true" then
    mkOrderResponse 10009
      (Some (or_else (or_else ord ticket) (Num 0)))
      (or_else (or_else message cmt) (Str (operation ++ " successful")))
      None
  else
    mkOrderResponse 10004 None
      (or_else (or_else message cmt) (Str (operation ++ " failed")))
      None.

(** The rule of a body that holds [error] or [Error]. *)
Definition error_rule (e1 e2 : value) (operation : string) : res OrderResponse :=
  let errorMsg := or_else e1 e2 in
  let? printed := ToString errorMsg in
  Ok (mkOrderResponse 10004 None
        (or_else errorMsg (Str (operation ++ " failed"))) None).

(** The rule of a body whose [message] is a text: the keywords of the
    text decide, and a text without any leaves the body to the next
    rule. *)
Definition message_rule (message ord ticket : value) : res (option OrderResponse) :=
  let? lower := call_toLowerCase message in
  if success_keyword lower then
    Ok (Some (mkOrderResponse 10009
                (Some (or_else (or_else ord ticket) (Num 0))) message None))
  else if includes lower "error" || includes lower "failed"
          || includes lower "invalid" then
    Ok (Some (mkOrderResponse 10004 None message None))
  else Ok None.

(** The last rule of an object: an [order] greater than 0, or nothing
    that is recognized. *)
Definition order_rule (has_order : bool) (ord cmt message : value) (operation : string)
  : res OrderResponse :=
  let? by_order := if has_order then gt0 ord else Ok false in
  if by_order then
    Ok (mkOrderResponse 10009 (Some ord)
          (or_else (or_else cmt message) (Str (operation ++ " successful")))
          None)
  else
    Ok (mkOrderResponse 10009 None
          (Str (operation ++ " completed (unrecognized response format)")) None).

(** The rules of a text. *)
Definition text_rule (text : string) (operation : string) : OrderResponse :=
  let ticketNumber := parseInt_string true text in
  if match ticketNumber with Some n => (0 <? n)%Z | None => false end then
    mkOrderResponse 10009
      (match ticketNumber with
       | Some n => Some (Num (inject_Z n))
       | None => None
       end)
      (Str (operation ++ " successful")) None
  else
  let lower := toLowerCase text in
  if success_keyword lower || String.eqb lower "ok" || String.eqb lower "true" then
    mkOrderResponse 10009 None (Str text) None
  else if includes lower "error" || includes lower "failed"
          || includes lower "invalid" || includes lower "denied" then
    mkOrderResponse 10004 None (Str text) None
  else
    mkOrderResponse 10009 None (Str text) None.

(** The rules of a number. *)
Definition number_rule (n : number) (operation : string) : OrderResponse :=
  if num_gt n 0 then
    mkOrderResponse 10009 (Some (Num n)) (Str (operation ++ " successful")) None
  else if num_eq n 0 then
    mkOrderResponse 10009 None (Str (operation ++ " completed")) None
  else
    mkOrderResponse (num_or (num_abs n) 10004) None
      (Str (operation ++ " failed with code: " ++ Number_toString n))
      None.

Definition parseOrderResponse (responseData : value) (operation : string)
  : res OrderResponse :=
  match responseData with
  | Null | Undefined =>
      Ok (mkOrderResponse 10009 None
            (Str (operation ++ " completed successfully")) None)
  | _ =>
  if String.eqb (typeof responseData) "object" then
    let? has_ticket := has_property "ticket" responseData in
    let? ticket := get responseData "ticket" in
    let? message := get responseData "message" in
    let? cmt := get responseData "comment" in
    let? ord := get responseData "order" in
    let? by_ticket := if has_ticket then gt0 ticket else Ok false in
    if by_ticket then ticket_rule responseData ticket message cmt operation
    else
    let? has_retcode := has_property "retcode" responseData in
    if has_retcode then
      let? raw := get responseData "retcode" in
      retcode_rule raw cmt message ord ticket operation
    else
    let? has_success := has_property "success" responseData in
    if has_success then
      let? flag := get responseData "success" in
      Ok (success_rule flag message cmt ord ticket operation)
    else
    let? has_error := has_property "error" responseData in
    let? has_Error := has_property "Error" responseData in
    if has_error || has_Error then
      let? e1 := get responseData "error" in
      let? e2 := get responseData "Error" in
      error_rule e1 e2 operation
    else
    let? has_message := has_property "message" responseData in
    let? by_message :=
      if has_message && String.eqb (typeof message) "string"
      then message_rule message ord ticket
      else Ok None in
    match by_message with
    | Some r => Ok r
    | None =>
    let? has_order := has_property "order" responseData in
    order_rule has_order ord cmt message operation
    end
  else
  match responseData with
  | Str text => Ok (text_rule text operation)
  | Num n => Ok (number_rule n operation)
  | Bool b =>
      Ok (mkOrderResponse (if b then 10009 else 10004) None
            (Str (if b then operation ++ " successful" else operation ++ " failed"))
            None)
  | _ =>
      Ok (mkOrderResponse 10004 None
            (Str (operation ++ " failed - unexpected response format")) None)
  end
  end.

(** ** Session *)

(** [new MT5ApiService()]: the environment gives the endpoint and the key,
    [localStorage] the token of an earlier session. *)
Definition constructor (env_url env_key stored : option string) : state :=
  mkState
    (match stored with
     | Some t => if String.eqb t "" then None else Some t
     | None => None
     end)
    stored
    (match env_url with
     | Some u => str_or u "https://mt5full2.mtapi.io"
     | None => "https://mt5full2.mtapi.io"
     end)
    (match env_key with
     | Some k => k
     | None => ""
     end)
    1 [].

(** [this.token = t; if (this.token) localStorage.setItem('mt5_token', t)] *)
Definition remember (t : string) : M unit :=
  modify (set_token (Some t)) ;;;
  if String.eqb t "" then ret tt else modify (set_mt5_token (Some t)).

(** [this.token || undefined] *)
Definition current_token : M (option string) :=
  gets (fun s => if has_token s then token s else None).

Definition friendly_messages : list (string * string) :=
  [ ("INVALID_ACCOUNT",
     "Invalid account credentials. Please verify your account number, password, and server are correct.");
    ("INVALID_PASSWORD",
     "Incorrect password. Please check your MT5 account password.");
    ("INVALID_SERVER",
     "Invalid server. Please select the correct server for your broker.");
    ("ACCOUNT_DISABLED",
     "Account is disabled. Please contact your broker to activate your account.");
    ("CONNECTION_FAILED",
     "Failed to connect to broker server. Please check your internet connection and try again.") ].

(** The chain [errorCode === c || errorMessage.includes(c)] over the known
    codes; [errorMessage] itself when none applies. *)
Fixpoint friendly_message (errorCode errorMessage : value)
    (table : list (string * string)) : res value :=
  match table with
  | [] => Ok errorMessage
  | (c, text) :: rest =>
      let? hit := if strict_eq_str errorCode c then Ok true
                  else call_includes errorMessage c in
      if hit then Ok (Str text)
      else friendly_message errorCode errorMessage rest
  end.

Definition connected (message : value) : M ConnectionResponse :=
  t <- current_token ;;
  ret (mkConnectionResponse true t
         (or_else message (Str "Connected successfully"))).

(** A string of more than ten characters without the two error marks. *)
Definition valid_token (v : value) : option string :=
  match v with
  | Str t =>
      if (10 <? String.length t)%nat
         && negb (includes t "INVALID") && negb (includes t "ERROR")
      then Some t else None
  | _ => None
  end.

(** The loop over [possibleTokenFields]. *)
Fixpoint token_from_fields (responseData message : value)
    (fields : list string) : M (option ConnectionResponse) :=
  match fields with
  | [] => ret None
  | field :: rest =>
      present <- lift (has_property field responseData) ;;
      v <- lift (get responseData field) ;;
      match v with
      | Str t =>
          if present && (10 <? String.length t)%nat then
            remember t ;;; r <- connected message ;; ret (Some r)
          else token_from_fields responseData message rest
      | _ => token_from_fields responseData message rest
      end
  end.

(** Case 1 of [connect]: the body is an object. *)
Definition connect_object (responseData : value) : M (option ConnectionResponse) :=
  has_tok <- lift (has_property "token" responseData) ;;
  tok <- lift (get responseData "token") ;;
  message <- lift (get responseData "message") ;;
  match (if has_tok then valid_token tok else None) with
  | Some t => remember t ;;; r <- connected message ;; ret (Some r)
  | None =>
  has_error <- lift (has_property "error" responseData) ;;
  has_code <- lift (has_property "code" responseData) ;;
  has_message <- lift (has_property "message" responseData) ;;
  if has_error || has_code
     || (has_message && String.eqb (typeof message) "string")
  then
    err <- lift (get responseData "error") ;;
    cd <- lift (get responseData "code") ;;
    let errorMessage := or_else (or_else err message) (Str "Unknown error") in
    let errorCode := or_else cd (Str "UNKNOWN_ERROR") in
    userFriendlyMessage <- lift (friendly_message errorCode errorMessage friendly_messages) ;;
    ret (Some (mkConnectionResponse false None userFriendlyMessage))
  else
  has_success <- lift (has_property "success" responseData) ;;
  flag <- lift (get responseData "success") ;;
  if has_success && strict_eq_bool flag true then
    token_from_fields responseData message
      ["id"; "sessionId"; "connectionId"; "accessToken"]
  else ret None
  end.

(** Case 2 of [connect]: the body is a string. *)
Definition connect_string (responseData : string) : M (option ConnectionResponse) :=
  let lowerResponse := toLowerCase responseData in
  if includes lowerResponse "invalid" || includes lowerResponse "error"
     || includes lowerResponse "failed" || includes lowerResponse "denied"
  then
    ret (Some (mkConnectionResponse false None
      (Str (if includes lowerResponse "invalid_account"
               || includes lowerResponse "invalid account"
            then "Invalid account credentials. Please verify your account number, password, and server are correct."
            else if includes lowerResponse "invalid_password"
                    || includes lowerResponse "invalid password"
            then "Incorrect password. Please check your MT5 account password."
            else if includes lowerResponse "invalid_server"
                    || includes lowerResponse "invalid server"
            then "Invalid server. Please select the correct server for your broker."
            else responseData))))
  else if (10 <? String.length responseData)%nat
          && negb (includes lowerResponse "invalid")
          && negb (includes lowerResponse "error")
  then
    remember responseData ;;; r <- connected Undefined ;; ret (Some r)
  else ret None.

Definition connect (credentials : ConnectionCredentials) : M ConnectionResponse :=
  try_catch
    (response <- api_get "/ConnectEx"
        [ ("user", Num (match parseInt_string false (accountNumber credentials) with
                        | Some n => Finite (inject_Z n)
                        | None => NaN
                        end));
          ("password", Str (password credentials));
          ("server", Str (serverName credentials)) ] ;;
     if is_ok_status response then
       let responseData := data response in
       r1 <- (if String.eqb (typeof responseData) "object"
                 && negb (match responseData with Null => true | _ => false end)
              then connect_object responseData else ret None) ;;
       match r1 with
       | Some r => ret r
       | None =>
       r2 <- match responseData with
             | Str text => connect_string text
             | _ => ret None
             end ;;
       match r2 with
       | Some r => ret r
       | None =>
       match responseData with
       | Num n =>
           if num_gt n 0 then
             store (Number_toString n) ;;;
             connected Undefined
           else
             ret (mkConnectionResponse false None
                    (Str "Unexpected response format from MT5 API. Please try again."))
       | _ =>
           ret (mkConnectionResponse false None
                  (Str "Unexpected response format from MT5 API. Please try again."))
       end
       end
       end
     else
       ret (mkConnectionResponse false None
              (Str ("Connection failed with HTTP status: "
                    ++ Z_toString (status response)))))
    (fun error =>
       ret (mkConnectionResponse false None
              (Str (if match code error with
                       | Some c => String.eqb c "ECONNREFUSED"
                       | None => false
                       end
                    then "Cannot connect to MT5 API server. Please check your internet connection and try again."
                    else if match code error with
                            | Some c => String.eqb c "ETIMEDOUT"
                            | None => false
                            end
                    then "Connection timeout. Please check your internet connection and try again."
                    else if status_is error 404
                    then "MT5 API endpoint not found. Please contact support."
                    else str_or (message error) "Connection failed")))).

Definition disconnect : M bool :=
  try_catch
    (connected_now <- gets has_token ;;
     (if connected_now then
        id <- gets token_value ;;
        api_get "/Disconnect" [("id", id)] ;;; ret tt
      else ret tt) ;;;
     forget ;;;
     modify new_client ;;;
     ret true)
    (fun _ => ret false).

Definition checkConnection : M bool :=
  try_catch
    (connected_now <- gets has_token ;;
     if negb connected_now then ret false
     else
       id <- gets token_value ;;
       response <- api_get "/CheckConnect" [("id", id)] ;;
       ret (is_ok_status response))
    (fun _ => ret false).

(** ** Read operations *)

(** Modelled from the spec: the interface [AccountInfo] of [types/mt5], a
    file that is not among the sources.  The fields are those
    [getAccountInfo] fills in, each with the value the body gives. *)
Record AccountInfo : Type := mkAccountInfo {
  balance : value;
  equity : value;
  margin : value;
  freeMargin : value;
  marginLevel : value;
  currency : value;
  account_profit : value;
  credit : value;
  account_number : value;
  accountName : value;
  account_server : value;
  leverage : value
}.

(** Runs [m] and hands back how it settled, as [Promise.all] needs it:
    both requests are on the wire before either settles. *)
Definition settled {A} (m : M A) : M (res A) :=
  fun s => let (r, s') := m s in (Ok r, s').

(** The [catch] block shared by the read operations: an authentication
    error clears the session, then the error is thrown again under the
    message [error.message || fallback]. *)
Definition rethrow_clearing {A} (fallback : string) (e : error) : M A :=
  (if is_auth_error e then clearToken else ret tt) ;;;
  throw (newError (str_or (message e) fallback)).

(** [v?.toString()] *)
Definition opt_toString (v : value) : res value :=
  match v with
  | Undefined => Ok Undefined
  | Null => Ok Undefined
  | _ => let? text := call_toString v in Ok (Str text)
  end.

Definition getAccountInfo : M (option AccountInfo) :=
  try_catch
    (connected_now <- gets has_token ;;
     if negb connected_now then ret None
     else
       id <- gets token_value ;;
       summarySettled <- settled (api_get "/AccountSummary" [("id", id)]) ;;
       detailsResponse <- try_catch (api_get "/AccountDetails" [("id", id)])
                            (fun _ => ret (mkResponse 404 Null)) ;;
       summaryResponse <- lift summarySettled ;;
       if is_ok_status summaryResponse && truthy (data summaryResponse) then
         let summaryData := data summaryResponse in
         let detailsData := if is_ok_status detailsResponse
                            then data detailsResponse else Obj [] in
         let summary k fallback :=
           r <- lift (get summaryData k) ;; ret (or_else r fallback) in
         b <- summary "balance" (Num 0) ;;
         e <- summary "equity" (Num 0) ;;
         m <- summary "margin" (Num 0) ;;
         fm <- summary "freeMargin" (Num 0) ;;
         ml <- summary "marginLevel" (Num 0) ;;
         cur <- summary "currency" (Str "USD") ;;
         p <- summary "profit" (Num 0) ;;
         cr <- summary "credit" (Num 0) ;;
         login <- lift (opt_toString (get_opt detailsData "Login")) ;;
         ret (Some (mkAccountInfo b e m fm ml cur p cr
                      (or_else login (Str ""))
                      (or_else (get_opt detailsData "Name") (Str ""))
                      (or_else (get_opt detailsData "Server") (Str ""))
                      (or_else (get_opt detailsData "Leverage") (Num 1))))
       else ret None)
    (fun error =>
       if is_auth_error error then
         clearToken ;;; throw (newError "Session expired. Please login again.")
       else
         throw (newError (str_or (message error)
                            "Failed to retrieve account information"))).

Fixpoint strings_of (items : list value) : list string :=
  match items with
  | [] => []
  | Str s :: r => s :: strings_of r
  | _ :: r => strings_of r
  end.

Definition getSymbols : M (list string) :=
  try_catch
    (connected_now <- gets has_token ;;
     if negb connected_now then ret []
     else
       id <- gets token_value ;;
       response <- api_get "/SymbolList" [("id", id)] ;;
       if is_ok_status response && truthy (data response) then
         match data response with
         | Arr items => ret (strings_of items)
         | Str text =>
             ret (filter (fun symbol => (0 <? String.length symbol)%nat)
                    (map trim (split_lines_commas text)))
         | _ => ret []
         end
       else ret [])
    (rethrow_clearing "Failed to retrieve symbols").

Definition subscribeSymbol (symbol : string) : M bool :=
  try_catch
    (connected_now <- gets has_token ;;
     if negb connected_now then
       throw (newError "Not authenticated. Please login first.")
     else
       id <- gets token_value ;;
       response <- api_get "/Subscribe" [("id", id); ("symbol", Str symbol)] ;;
       ret (is_ok_status response))
    (fun _ => ret false).

(** ** The symbol resolver *)

Definition broker_suffixes : list string :=
  [".raw"; ".m"; ".c"; ".pro"; ".ecn"; ".stp"].

(** [baseSymbol.replace(/\.(raw|m|c|pro|ecn|stp)$/i, "")] *)
Definition normalizeSymbol (baseSymbol : string) : string :=
  match find (endsWith (toLowerCase baseSymbol)) broker_suffixes with
  | Some suffix =>
      String.substring 0 (String.length baseSymbol - String.length suffix) baseSymbol
  | None => baseSymbol
  end.

(** [allSymbols.includes(symbol)] *)
Definition listed (allSymbols : list string) (symbol : string) : bool :=
  existsb (String.eqb symbol) allSymbols.

Definition is_gold (sym : string) : bool :=
  includes (toLowerCase sym) "xau" || includes (toLowerCase sym) "gold".

Definition is_silver (sym : string) : bool :=
  includes (toLowerCase sym) "xag" || includes (toLowerCase sym) "silver".

Definition is_partial (normalizedSymbol sym : string) : bool :=
  includes sym normalizedSymbol || includes normalizedSymbol sym.

(** The cascade of [findMatchingSymbol] once the broker's list is at
    hand. *)
Definition bestMatch (baseSymbol : string) (allSymbols : list string)
  : option string :=
  let normalizedSymbol := normalizeSymbol baseSymbol in
  if listed allSymbols baseSymbol then Some baseSymbol
  else if listed allSymbols normalizedSymbol then Some normalizedSymbol
  else
    let goldCandidates :=
      if includes normalizedSymbol "XAU" || includes normalizedSymbol "GOLD"
      then filter is_gold allSymbols else [] in
    match goldCandidates with
    | first :: _ => Some first
    | [] =>
        let silverCandidates :=
          if includes normalizedSymbol "XAG" || includes normalizedSymbol "SILVER"
          then filter is_silver allSymbols else [] in
        match silverCandidates with
        | first :: _ => Some first
        | [] =>
            match filter (is_partial normalizedSymbol) allSymbols with
            | first :: _ => Some first
            | [] => None
            end
        end
    end.

Definition findMatchingSymbol (baseSymbol : string) : M (option string) :=
  try_catch
    (connected_now <- gets has_token ;;
     if negb connected_now then
       throw (newError "Not authenticated. Please login first.")
     else
       allSymbols <- getSymbols ;;
       match allSymbols with
       | [] => ret None
       | _ => ret (bestMatch baseSymbol allSymbols)
       end)
    (fun _ => ret None).

(** ** Positions *)

Definition is_market_order (order : value) : bool :=
  truthy order
  && (strict_eq_str (get_opt order "orderType") "Buy"
      || strict_eq_str (get_opt order "orderType") "Sell").

(** The callback of [positions.map]: each field is the field of the
    record, or the default when that is falsy. *)
Definition toPosition (position : value) : Position :=
  let field k := get_opt position k in
  mkPosition
    (or_else (field "ticket") (Num 0))
    (or_else (field "symbol") (Str ""))
    (if strict_eq_str (field "orderType") "Buy" then Buy else Sell)
    (or_else (field "lots") (Num 0))
    (or_else (field "volume") (Num 0))
    (or_else (field "openPrice") (Num 0))
    (or_else (or_else (field "closePrice") (field "openPrice")) (Num 0))
    (or_else (field "profit") (Num 0))
    (or_else (field "swap") (Num 0))
    (or_else (field "commission") (Num 0))
    (or_else (field "openTime") (Str ""))
    (or_else (field "comment") (Str "")).

(** The records of a body of [/OpenedOrders]: the array itself, the array
    under [orders], [data] or [positions], or the single record. *)
Definition ordersData (body : value) : option (list value) :=
  match body with
  | Arr items => Some items
  | _ =>
      if negb (truthy body) then None
      else if String.eqb (typeof body) "object" then
        match get_opt body "orders", get_opt body "data", get_opt body "positions" with
        | Arr items, _, _ => Some items
        | _, Arr items, _ => Some items
        | _, _, Arr items => Some items
        | _, _, _ => Some [body]
        end
      else None
  end.

Definition getPositions : M (list Position) :=
  try_catch
    (connected_now <- gets has_token ;;
     if negb connected_now then ret []
     else
       id <- gets token_value ;;
       response <- api_get "/OpenedOrders" [("id", id)] ;;
       if is_ok_status response && truthy (data response) then
         match ordersData (data response) with
         | Some orders => ret (map toPosition (filter is_market_order orders))
         | None => ret []
         end
       else ret [])
    (rethrow_clearing "Failed to retrieve positions").

(** ** The order executor *)

Inductive action : Type := BUY | SELL.

Record OrderRequest : Type := mkOrderRequest {
  request_symbol : string;
  request_action : action;
  request_volume : Q;
  price : option Q;
  sl : option Q;
  tp : option Q;
  request_comment : option string
}.

(** [if (x && x > 0) params.k = x] *)
Definition optional_param (k : string) (x : option Q) : list (string * value) :=
  match x with
  | Some q => if negb (Qeq_bool q 0) && Qgtb q 0 then [(k, Num q)] else []
  | None => []
  end.

(** The parameters of [/OrderSend]. *)
Definition order_params (id : value) (actualSymbol : string)
    (orderRequest : OrderRequest) : list (string * value) :=
  ([ ("id", id);
     ("symbol", Str actualSymbol);
     ("operation", Str (match request_action orderRequest with
                        | BUY => "Buy"
                        | SELL => "Sell"
                        end));
     ("volume", Num (request_volume orderRequest));
     ("slippage", Num 10);
     ("expertID", Num 0) ]
   ++ optional_param "price" (price orderRequest)
   ++ optional_param "stoploss" (sl orderRequest)
   ++ optional_param "takeprofit" (tp orderRequest)
   ++ match request_comment orderRequest with
      | Some c => if String.eqb c "" then [] else [("comment", Str c)]
      | None => []
      end)%list.

(** Resolves the symbol and subscribes to it ahead of a trade or a
    quote; the symbol asked for is kept when nothing matches. *)
Definition resolve_and_subscribe (originalSymbol : string) : M string :=
  matchingSymbol <- findMatchingSymbol originalSymbol ;;
  match matchingSymbol with
  | Some actualSymbol =>
      if String.eqb actualSymbol "" then ret originalSymbol
      else subscribeSymbol actualSymbol ;;; ret actualSymbol
  | None => ret originalSymbol
  end.

Definition sendOrder (orderRequest : OrderRequest) : M OrderResponse :=
  try_catch
    (connected_now <- gets has_token ;;
     if negb connected_now then
       ret (mkOrderResponse 10004 None (Str "Not connected to MT5") None)
     else
       actualSymbol <- resolve_and_subscribe (request_symbol orderRequest) ;;
       id <- gets token_value ;;
       response <- api_get "/OrderSend" (order_params id actualSymbol orderRequest) ;;
       if is_ok_status response then
         lift (parseOrderResponse (data response) "OrderSend")
       else
         ret (mkOrderResponse 10004 None
                (Str ("Order failed with HTTP status: "
                      ++ Z_toString (status response))) None))
    (fun error =>
       (if is_auth_error error then clearToken else ret tt) ;;;
       ret (mkOrderResponse 10004 None
              (Str (str_or (message error) "Failed to send order")) None)).

(** ** Quotes *)

Record Quote : Type := mkQuote {
  bid : number;
  ask : number;
  time : value
}.

(** [new Date().toISOString()] *)
Variable now : string.

Definition getQuote (symbol : string) : M (option Quote) :=
  try_catch
    (connected_now <- gets has_token ;;
     if negb connected_now then ret None
     else
       actualSymbol <- resolve_and_subscribe symbol ;;
       id <- gets token_value ;;
       response <- api_get "/GetQuote"
                     [("id", id); ("symbol", Str actualSymbol); ("msNotOlder", Num 0)] ;;
       if is_ok_status response && truthy (data response) then
         let quote := data response in
         match get_opt quote "bid", get_opt quote "ask" with
         | Num b, Num a =>
             ret (Some (mkQuote b a (or_else (get_opt quote "time") (Str now))))
         | _, _ => ret None
         end
       else ret None)
    (rethrow_clearing "Failed to retrieve quote").

(** ** The position closer *)

(** [Math.abs(a - b) < 0.000001]: both sides are converted to numbers
    first. *)
Definition near (a b : value) : res bool :=
  let? x := ToNumber a in
  let? y := ToNumber b in
  Ok (num_lt (num_abs (num_sub x y)) 0.000001).

Definition scalingFactors : list (Q * string) :=
  [ (1000, "Volume × 1000 (micro lots to units)");
    (10000, "Volume × 10000 (mini lots to units)");
    (100000, "Volume × 100000 (standard lots to units)");
    (0.001, "Volume ÷ 1000 (units to micro lots)");
    (0.0001, "Volume ÷ 10000 (units to mini lots)");
    (0.00001, "Volume ÷ 100000 (units to standard lots)");
    (10, "Volume × 10");
    (100, "Volume × 100");
    (0.1, "Volume ÷ 10");
    (0.01, "Volume ÷ 100") ].

Definition rawScalingFactors : list Q := [1000; 0.001; 100; 0.01; 10; 0.1].

Definition fallbackVolumes : list Q := [0.01; 0.1; 1; 10; 100; 1000; 10000; 100000].

(** [volumeFormats.some(v => Math.abs(v.value - x) < 0.000001)] *)
Fixpoint some_near (formats : list VolumeFormatEntry) (x : value) : res bool :=
  match formats with
  | [] => Ok false
  | v :: rest =>
      let? hit := near (value_of v) x in
      if hit then Ok true else some_near rest x
  end.

(** One turn of the [forEach] loops: the scaled volume is pushed when it
    lies in (0, 1000000) and nothing near it is in the list yet. *)
Definition push_scaled (baseVolume : value) (formats : list VolumeFormatEntry)
    (scaling : Q * string) : res (list VolumeFormatEntry) :=
  let? base := ToNumber baseVolume in
  let scaledVolume := num_mul base (fst scaling) in
  if num_gt scaledVolume 0 && num_lt scaledVolume 1000000 then
    let? known := some_near formats (Num scaledVolume) in
    if known then Ok formats
    else Ok (formats ++ [mkFormat (Num scaledVolume) (snd scaling)])%list
  else Ok formats.

(** [items.forEach(x => ...)] over a list that the callback extends. *)
Fixpoint forEach {A B} (f : B -> A -> res B) (items : list A) (acc : B) : res B :=
  match items with
  | [] => Ok acc
  | x :: rest => let? acc' := f acc x in forEach f rest acc'
  end.

(** The volume the caller provides, when it is given and positive. *)
Definition provided (volumeToClose : option Q) : list VolumeFormatEntry :=
  match volumeToClose with
  | Some v => if negb (Qeq_bool v 0) && Qgtb v 0
              then [mkFormat (Num v) "Provided volume"] else []
  | None => []
  end.

(** The volume of the position in lots, when positive. *)
Definition lots (p : Position) : res (list VolumeFormatEntry) :=
  let? positive := gt0 (volume p) in
  Ok (if positive then [mkFormat (volume p) "Position lots volume"] else []).

(** The raw volume of the position, when it is there and differs. *)
Definition raw (p : Position) : list VolumeFormatEntry :=
  if truthy (rawVolume p) && negb (strict_eq (rawVolume p) (volume p))
  then [mkFormat (rawVolume p) "Position raw volume"] else [].

(** Step 2 of [closePosition], before the removal of duplicates. *)
Definition volumeFormats (volumeToClose : option Q)
    (positionDetails : option Position) : res (list VolumeFormatEntry) :=
  let? formats :=
    match positionDetails with
    | Some p =>
        let? lotsVolume := lots p in
        let listed := (provided volumeToClose ++ lotsVolume ++ raw p)%list in
        let? positive := gt0 (volume p) in
        let? scaled :=
          if positive then forEach (push_scaled (volume p)) scalingFactors listed
          else Ok listed in
        let? rawPositive :=
          if truthy (rawVolume p) then gt0 (rawVolume p) else Ok false in
        if rawPositive
        then forEach (push_scaled (rawVolume p))
               (map (fun factor : Q =>
                       (factor, "Raw volume × " ++ Number_toString factor))
                  rawScalingFactors)
               scaled
        else Ok scaled
    | None => Ok (provided volumeToClose)
    end in
  Ok (match formats with
      | [] => map (fun vol : Q =>
                     mkFormat (Num vol) ("Fallback volume " ++ Number_toString vol))
                fallbackVolumes
      | _ => formats
      end).

(** [self.findIndex(p)]; [None] is -1. *)
Fixpoint findIndex {A} (p : A -> res bool) (l : list A) : res (option nat) :=
  match l with
  | [] => Ok None
  | x :: r =>
      let? hit := p x in
      if hit then Ok (Some O)
      else let? i := findIndex p r in
           Ok (match i with
               | Some i => Some (S i)
               | None => None
               end)
  end.

Definition same_index (i : option nat) (index : nat) : bool :=
  match i with
  | Some j => Nat.eqb j index
  | None => false
  end.

(** [items.filter((x, index) => p x index)], from [index] on. *)
Fixpoint filter_from {A} (p : A -> nat -> res bool) (index : nat) (items : list A)
  : res (list A) :=
  match items with
  | [] => Ok []
  | x :: rest =>
      let? keep := p x index in
      let? kept := filter_from p (S index) rest in
      Ok (if keep then x :: kept else kept)
  end.

(** [volumeFormats.filter((format, index, self) =>
      index === self.findIndex(f => Math.abs(f.value - format.value) < 0.000001))] *)
Definition uniqueFormats (formats : list VolumeFormatEntry)
  : res (list VolumeFormatEntry) :=
  filter_from
    (fun format index =>
       let? first := findIndex (fun f => near (value_of f) (value_of format)) formats in
       Ok (same_index first index))
    0 formats.

(** [uniqueFormats.map(f => `${f.value} (${f.description})`)], for the
    log. *)
Fixpoint describe (formats : list VolumeFormatEntry) : res (list string) :=
  match formats with
  | [] => Ok []
  | f :: rest =>
      let? printed := ToString (value_of f) in
      let? others := describe rest in
      Ok ((printed ++ " (" ++ description f ++ ")") :: others)
  end.

Definition closed_in_comment : list string :=
  [ "position with the specified position_identifier has already been closed";
    "already been closed";
    "position not exists";
    "POSITION_NOT_EXISTS";
    "no such position";
    "not found" ].

Definition invalid_volume_in_comment : list string :=
  [ "invalid volume"; "invalid lots"; "wrong volume"; "incorrect volume" ].

Definition closed_in_error : list string :=
  [ "position not found";
    "already closed";
    "POSITION_NOT_EXISTS";
    "no such position";
    "not found" ].

(** [v.includes(p1) || v.includes(p2) || ...] *)
Fixpoint includes_any (v : value) (patterns : list string) : res bool :=
  match patterns with
  | [] => Ok false
  | p :: rest =>
      let? hit := call_includes v p in
      if hit then Ok true else includes_any v rest
  end.

(** [result.comment && (result.comment.includes(p1) || ...)] *)
Definition comment_matches (c : value) (patterns : list string) : res bool :=
  if truthy c then includes_any c patterns else Ok false.

(** [params]: [lots] is set when the volume is greater than 0. *)
Definition close_params (id : value) (ticketId : Q) (format : VolumeFormatEntry)
  : res (list (string * value)) :=
  let? positive := gt0 (value_of format) in
  Ok ([ ("id", id); ("ticket", Num ticketId); ("slippage", Num 10) ]
      ++ (if positive then [("lots", value_of format)] else []))%list.

Definition already_closed (ticketId : Q) (format : VolumeFormatEntry) (i : nat)
  : CloseResult :=
  mkCloseResult 10009 (Some (Num ticketId)) (Str "Position already closed")
    (Some (value_of format)) (Some (S i)) None.

(** The [catch] block of an attempt: an error that says the position is
    gone ends the probe with Success, an error with an authentication
    phrase clears the session and is thrown again, any other error lets
    the loop go on. *)
Definition attempt_failed (ticketId : Q) (i : nat) (format : VolumeFormatEntry)
    (attemptError : error) : M (option CloseResult) :=
  let msg := message attemptError in
  if negb (String.eqb msg "") && existsb (includes msg) closed_in_error
  then ret (Some (already_closed ticketId format i))
  else if negb (String.eqb msg "") && auth_phrase msg
  then clearToken ;;; throw attemptError
  else ret None.

(** A log line that holds [v] in a template literal. *)
Definition logged (v : value) : M unit :=
  printed <- lift (ToString v) ;; ret tt.

(** The body of the [for] loop of step 3 at index [i]: [Some] is what the
    method returns from there, [None] lets the loop go on.  The first log
    line stands before the [try]. *)
Definition attempt (ticketId : Q) (i : nat) (format : VolumeFormatEntry)
  : M (option CloseResult) :=
  logged (value_of format) ;;;
  try_catch
    (id <- gets token_value ;;
     ps <- lift (close_params id ticketId format) ;;
     response <- api_get "/OrderClose" ps ;;
     if is_ok_status response then
       result <- lift (parseOrderResponse (data response) "OrderClose") ;;
       closed <- lift (comment_matches (comment result) closed_in_comment) ;;
       if closed then ret (Some (already_closed ticketId format i))
       else
       invalid <- lift (comment_matches (comment result) invalid_volume_in_comment) ;;
       if invalid then logged (value_of format) ;;; ret None
       else if num_eq (retcode result) 10009 then
         logged (value_of format) ;;;
         ret (Some (mkCloseResult 10009
                      (Some (or_else (match order result with
                                      | Some o => o
                                      | None => Undefined
                                      end) (Num ticketId)))
                      (or_else (comment result) (Str "Position closed successfully"))
                      (Some (value_of format)) (Some (S i))
                      (Some (description format))))
       else logged (comment result) ;;; ret None
     else ret None)
    (attempt_failed ticketId i format).

(** The [for] loop of step 3, from index [i] on. *)
Fixpoint tryFormats (ticketId : Q) (i : nat) (formats : list VolumeFormatEntry)
  : M (option CloseResult) :=
  match formats with
  | [] => ret None
  | format :: rest =>
      r <- attempt ticketId i format ;;
      match r with
      | Some result => ret (Some result)
      | None => tryFormats ticketId (S i) rest
      end
  end.

(** Step 1: what the look-up of the position gives. *)
Inductive details : Type :=
| Found (p : Position)
| Absent
| Unavailable.

Definition positionDetails (ticketId : Q) : M details :=
  try_catch
    (positions <- getPositions ;;
     match find (fun pos => strict_eq_num (ticket pos) ticketId) positions with
     | Some p => ret (Found p)
     | None => ret Absent
     end)
    (fun _ => ret Unavailable).

Definition closePosition (ticketId : Q) (volumeToClose : option Q) : M CloseResult :=
  try_catch
    (connected_now <- gets has_token ;;
     if negb connected_now then
       ret (mkCloseResult 10004 None (Str "Not connected to MT5") None None None)
     else
       found <- positionDetails ticketId ;;
       match found with
       | Absent =>
           ret (mkCloseResult 10009 (Some (Num ticketId))
                  (Str "Position not found - may already be closed") None None None)
       | _ =>
           generated <- lift (volumeFormats volumeToClose
                                (match found with Found p => Some p | _ => None end)) ;;
           formats <- lift (uniqueFormats generated) ;;
           lift (describe formats) ;;;
           r <- tryFormats ticketId 0 formats ;;
           match r with
           | Some result => ret result
           | None =>
               ret (mkCloseResult 10004 None
                      (Str ("Failed to close position " ++ Number_toString ticketId
                            ++ " - tried " ++ nat_toString (List.length formats)
                            ++ " different volume formats")) None None None)
           end
       end)
    (fun error =>
       (if is_auth_error error then clearToken else ret tt) ;;;
       ret (mkCloseResult 10004 None
              (Str (str_or (message error) "Failed to close position"))
              None None None)).

(** ** The public interface *)

Inductive call : Type :=
| Connect (credentials : ConnectionCredentials)
| Disconnect
| CheckConnection
| GetAccountInfo
| GetSymbols
| SubscribeSymbol (symbol : string)
| FindMatchingSymbol (baseSymbol : string)
| GetPositions
| SendOrder (orderRequest : OrderRequest)
| GetQuote (symbol : string)
| ClosePosition (ticketId : Q) (volumeToClose : option Q)
| SetToken (t : string)
| GetStoredToken
| ClearToken
| SetApiEndpoint (endpoint : string)
| GetApiEndpoint
| GetCurrentToken.

(** The state a call leaves, whether it returns or throws. *)
Definition perform (c : call) (s : state) : state :=
  match c with
  | Connect credentials => snd (connect credentials s)
  | Disconnect => snd (disconnect s)
  | CheckConnection => snd (checkConnection s)
  | GetAccountInfo => snd (getAccountInfo s)
  | GetSymbols => snd (getSymbols s)
  | SubscribeSymbol symbol => snd (subscribeSymbol symbol s)
  | FindMatchingSymbol baseSymbol => snd (findMatchingSymbol baseSymbol s)
  | GetPositions => snd (getPositions s)
  | SendOrder orderRequest => snd (sendOrder orderRequest s)
  | GetQuote symbol => snd (getQuote symbol s)
  | ClosePosition ticketId volumeToClose => snd (closePosition ticketId volumeToClose s)
  | SetToken t => snd (setToken t s)
  | GetStoredToken => snd (getStoredToken s)
  | ClearToken => snd (clearToken s)
  | SetApiEndpoint endpoint => snd (setApiEndpoint endpoint s)
  | GetApiEndpoint => snd (getApiEndpoint s)
  | GetCurrentToken => snd (getCurrentToken s)
  end.

(** The token in memory and the token in [localStorage] agree. *)
Definition agree (s : state) : Prop := token s = mt5_token s.

Definition keeps_agreement (s s' : state) : Prop := agree s -> agree s'.

(** The tag of the normalized response. *)
Definition classify (body : value) (operation : string) : res kind :=
  let? r := parseOrderResponse body operation in
  Ok (kind_of r).


(** The requests of the probe and of the session calls, as they are
    logged from state [s]. *)
Definition positions_request (s : state) : request :=
  mkRequest "GET" "/OpenedOrders" [("id", token_value s)].

Definition disconnect_request (s : state) : request :=
  mkRequest "GET" "/Disconnect" [("id", token_value s)].

(** The parameter [lots] of the request for a candidate. *)
Definition lots_param (format : VolumeFormatEntry) : list (string * value) :=
  match gt0 (value_of format) with
  | Ok true => [("lots", value_of format)]
  | _ => []
  end.

Definition close_request (s : state) (ticketId : Q) (format : VolumeFormatEntry)
  : request :=
  mkRequest "GET" "/OrderClose"
    ([ ("id", token_value s); ("ticket", Num ticketId); ("slippage", Num 10) ]
     ++ lots_param format)%list.

(** What [closePosition] answers for a ticket that is not listed. *)
Definition not_found (ticketId : Q) : CloseResult :=
  mkCloseResult 10009 (Some (Num ticketId))
    (Str "Position not found - may already be closed") None None None.

(** The value converts to a number: it is anything but an object that
    holds a key [toString], or an array that holds such an object. *)
Definition converts (v : value) : Prop := exists n, ToNumber v = Ok n.

(** The value of the entry converts to a number. *)
Definition numeric (f : VolumeFormatEntry) : Prop := converts (value_of f).

(** The index of the first element that satisfies [p]. *)
Fixpoint first_index {A} (p : A -> bool) (l : list A) : option nat :=
  match l with
  | [] => None
  | x :: r => if p x then Some O
              else match first_index p r with
                   | Some i => Some (S i)
                   | None => None
                   end
  end.

(** The values of two entries lie within the tolerance. *)
Definition close_to (a b : VolumeFormatEntry) : bool :=
  match near (value_of a) (value_of b) with
  | Ok hit => hit
  | Throw _ => false
  end.

(** [uniqueFormats] read from left to right: an entry stays when its
    value lies within the tolerance of itself, which leaves out what is no
    finite number, and no entry seen before it lies within the
    tolerance. *)
Fixpoint sieve (seen formats : list VolumeFormatEntry) : list VolumeFormatEntry :=
  match formats with
  | [] => []
  | format :: rest =>
      if close_to format format && negb (existsb (fun f => close_to f format) seen)
      then format :: sieve (seen ++ [format])%list rest
      else sieve (seen ++ [format])%list rest
  end.

(** [l] is [l'] with some entries left out, the order kept. *)
Inductive Subsequence {A : Type} : list A -> list A -> Prop :=
| Subsequence_nil : Subsequence [] []
| Subsequence_keep x l l' : Subsequence l l' -> Subsequence (x :: l) (x :: l')
| Subsequence_drop x l l' : Subsequence l l' -> Subsequence l (x :: l').

(** The entry of the volume in lots. *)
Definition lots_entry (p : Position) : VolumeFormatEntry :=
  mkFormat (volume p) "Position lots volume".

(** A scaled volume is a number that lies in (0, 1000000). *)
Definition bounded (f : VolumeFormatEntry) : Prop :=
  exists q : Q, value_of f = Num q /\ 0 < q /\ q < 1000000.




(** An optional field of the order appears among the parameters only
    with a positive value, which is the value of the field. *)
Definition sent_only_when_positive (ps : list (string * value)) (k : string)
    (x : option Q) : Prop :=
  forall v, lookup k ps = Some v -> exists q, x = Some q /\ 0 < q /\ v = Num q.

(** What a request to [/OrderSend] owes to the order it carries. *)
Definition order_send_ok (o : OrderRequest) (r : request) : Prop :=
  path r = "/OrderSend" ->
  sent_only_when_positive (params r) "price" (price o)
  /\ sent_only_when_positive (params r) "stoploss" (sl o)
  /\ sent_only_when_positive (params r) "takeprofit" (tp o).

(** From [s] to [s'] the log has grown by requests that satisfy [P]. *)
Definition logs_only (P : request -> Prop) (s s' : state) : Prop :=
  exists l, sent s' = (sent s ++ l)%list /\ Forall P l.



(** [R] holds from the state in which [m] starts to the state it leaves,
    whether [m] returns or throws. *)
Definition maintains (R : state -> state -> Prop) {A} (m : M A) : Prop :=
  forall s, R s (snd (m s)).

(** ** Vocabulary of the session and trade properties *)

(** The request [connect] puts on the wire. *)
Definition connect_request (credentials : ConnectionCredentials) : request :=
  mkRequest "GET" "/ConnectEx"
    [ ("user", Num (match parseInt_string false (accountNumber credentials) with
                    | Some n => Finite (inject_Z n)
                    | None => NaN
                    end));
      ("password", Str (password credentials));
      ("server", Str (serverName credentials)) ].

Definition symbols_request (s : state) : request :=
  mkRequest "GET" "/SymbolList" [("id", token_value s)].

Definition order_request (s : state) (actualSymbol : string)
    (orderRequest : OrderRequest) : request :=
  mkRequest "GET" "/OrderSend" (order_params (token_value s) actualSymbol orderRequest).

(** The token [t] is not empty; the response names it and the service
    holds it, in memory and in [localStorage]. *)
Definition installed (t : string) (r : ConnectionResponse) (s : state) : Prop :=
  t <> "" /\ response_token r = Some t /\ token s = Some t /\ mt5_token s = Some t.

(** The two tokens are as they were. *)
Definition untouched (s s' : state) : Prop :=
  token s' = token s /\ mt5_token s' = mt5_token s.

(** The two tokens are gone. *)
Definition ended (s : state) : Prop := token s = None /\ mt5_token s = None.

Definition kept_or_ended (s s' : state) : Prop := untouched s s' \/ ended s'.

(** How a connection attempt that started in [s] may end. *)
Definition connect_result (s : state) (r : ConnectionResponse) (s' : state) : Prop :=
  (success r = true /\ exists t, installed t r s')
  \/ (success r = false /\ response_token r = None /\ untouched s s').

(** A stage of [connect] that reads the body: it settles the outcome,
    or leaves the state alone. *)
Definition connect_step (m : M (option ConnectionResponse)) : Prop :=
  forall s, match m s with
            | (Ok (Some r), s') => sent s' = sent s /\ connect_result s r s'
            | (Ok None, s') => s' = s
            | (Throw _, s') => s' = s
            end.

Definition installs_token (c : call) : bool :=
  match c with
  | Connect _ => true
  | SetToken _ => true
  | _ => false
  end.

Definition is_connect (c : call) : bool :=
  match c with
  | Connect _ => true
  | _ => false
  end.

(** The requests a call may put on the wire, as far as trading goes. *)
Definition may_issue (c : call) (r : request) : Prop :=
  (path r = "/OrderSend" -> exists o, c = SendOrder o)
  /\ (path r = "/OrderClose" -> exists t v, c = ClosePosition t v).

(** [m] never throws. *)
Definition returns {A} (m : M A) : Prop :=
  forall s, exists a s', m s = (Ok a, s').

(** The two shapes of a result of [closePosition] besides [not_found]. *)
Definition reports_success (r : CloseResult) : Prop :=
  close_retcode r = 10009
  /\ exists closed used n,
       close_ticket r = Some closed
       /\ volumeUsed r = Some used /\ attemptNumber r = Some (S n).

Definition reports_failure (r : CloseResult) : Prop :=
  close_retcode r = 10004
  /\ close_ticket r = None /\ volumeUsed r = None
  /\ attemptNumber r = None /\ formatDescription r = None.

(** The state a failed read leaves: the request is logged, and the
    session is cleared when the error is an authentication error. *)
Definition after_failed_read (r : request) (e : error) (s : state) : state :=
  if is_auth_error e then snd (clearToken (log_request r s)) else log_request r s.

(** A request of the probe once the session is gone. *)
Definition anonymous_close (ticketId : Q) (format : VolumeFormatEntry) : request :=
  mkRequest "GET" "/OrderClose"
    ([ ("id", Null); ("ticket", Num ticketId); ("slippage", Num 10) ]
     ++ lots_param format)%list.

(** A ticket is reported only under retcode 10009, and the retcode is
    never 0. *)
Definition sound_report (r : OrderResponse) : Prop :=
  (order r <> None -> retcode r = 10009) /\ num_eq (retcode r) 0 = false.

Definition summary_request (s : state) : request :=
  mkRequest "GET" "/AccountSummary" [("id", token_value s)].

Definition details_request (s : state) : request :=
  mkRequest "GET" "/AccountDetails" [("id", token_value s)].

End Service.
End Enhanced.

(* ================================================================== *)
(** * The object-literal service (the simple duplicate)                 *)
(* ================================================================== *)

Module Simple.
Import JS Http Eff.

Local Open Scope Q_scope.

(** The module-level [mt5Token] and the log of requests. *)
Record state : Type := mkState {
  mt5Token : option string;
  sent : list request
}.

Local Abbreviation M := (@Eff.M state).

(** The two copies differ in how they put [/OrderClose] on the wire:
    one posts the request data, the other gets with a query string. *)
Inductive transport : Type := Post | Get.

(** Modelled from the spec: the interface [Position] of [types/mt5], a
    file that is not among the sources; of the fields [getPositions] fills
    in, the two that [closePosition] reads. *)
Record Position : Type := mkPosition {
  ticket : value;
  profit : value
}.

Record CloseResult : Type := mkCloseResult {
  success : bool;
  message : value;
  retcode : Q;
  result_profit : value;
  formatDescription : option string
}.

Section Service.
Variable net : bridge.
Variable how : transport.

Definition axios (v p : string) (ps : list (string * value)) : M response :=
  fun s =>
    let r := mkRequest v p ps in
    (settle (net (sent s) r), mkState (mt5Token s) (sent s ++ [r])%list).

Definition has_token (s : state) : bool :=
  match mt5Token s with
  | Some t => negb (String.eqb t "")
  | None => false
  end.

Definition token_text (s : state) : string :=
  match mt5Token s with
  | Some t => t
  | None => "null"
  end.

(** [response.data.map(pos => ({ ticket: pos.ticket, ..., profit: pos.profit }))] *)
Fixpoint map_positions (items : list value) : res (list Position) :=
  match items with
  | [] => Ok []
  | pos :: rest =>
      let? t := get pos "ticket" in
      let? p := get pos "profit" in
      let? ps := map_positions rest in
      Ok (mkPosition t p :: ps)
  end.

Definition body_mentions_expiry (d : value) : bool :=
  match d with
  | Str text => negb (String.eqb text "")
                && (includes text "Authentication failed"
                    || includes text "Session expired")
  | _ => false
  end.

Definition getPositions : M (list Position) :=
  try_catch
    (connected_now <- gets has_token ;;
     if negb connected_now then throw (newError "Not connected to MT5 API")
     else
       id <- gets token_text ;;
       response <- axios "GET" "/Positions" [("id", Str id)] ;;
       match data response with
       | Arr items => lift (map_positions items)
       | Undefined =>
           throw (TypeError "Cannot read properties of undefined (reading 'map')")
       | Null => throw (TypeError "Cannot read properties of null (reading 'map')")
       | _ => throw (TypeError "response.data.map is not a function")
       end)
    (fun error =>
       match http_response error with
       | Some (st, d) =>
           if (st =? 401)%Z || body_mentions_expiry d then
             throw (newError "Authentication failed. Please reconnect your MT5 account.")
           else throw error
       | None => throw error
       end).

(** A log line that holds [v] in a template literal. *)
Definition logged (v : value) : M unit :=
  printed <- lift (ToString v) ;; ret tt.

(** The profit of the position, read ahead of the close; 0 when the
    position is not listed or the list cannot be read.  The assignment
    stands before the log line that prints the profit, so the profit is
    kept when that line throws. *)
Definition positionProfit (ticketId : Q) : M value :=
  try_catch
    (positions <- getPositions ;;
     match find (fun p => strict_eq_num (ticket p) ticketId) positions with
     | Some position =>
         try_catch (logged (profit position) ;;; ret (profit position))
           (fun _ => ret (profit position))
     | None => ret (Num 0)
     end)
    (fun _ => ret (Num 0)).

(** The profit the body of the reply holds, 0 when it holds none; the
    profit found is printed in a log line. *)
Definition responseProfit (body : value) : res value :=
  if truthy body && String.eqb (typeof body) "object" then
    match get_opt body "profit" with
    | Undefined => Ok (Num 0)
    | found => let? printed := ToString found in Ok found
    end
  else Ok (Num 0).

(** [if (volume) ...]: a volume that is given and is not 0. *)
Definition given (volume : option Q) : option Q :=
  match volume with
  | Some v => if Qeq_bool v 0 then None else Some v
  | None => None
  end.

Definition close_request (id : string) (ticketId : Q) (volume : option Q) : request :=
  match how with
  | Post =>
      mkRequest "POST" "/OrderClose"
        ([("id", Str id); ("ticket", Num ticketId)]
         ++ match given volume with
            | Some v => [("lots", Num v)]
            | None => []
            end)%list
  | Get =>
      mkRequest "GET" "/OrderClose"
        ([("id", Str id); ("ticket", Str (Number_toString ticketId))]
         ++ match given volume with
            | Some v => [("lots", Str (Number_toString v))]
            | None => []
            end)%list
  end.

Definition closePosition (ticketId : Q) (volume : option Q) : M CloseResult :=
  try_catch
    (connected_now <- gets has_token ;;
     if negb connected_now then throw (newError "Not connected to MT5 API")
     else
       positionProfit <- positionProfit ticketId ;;
       id <- gets token_text ;;
       let rq := close_request id ticketId volume in
       response <- axios (verb rq) (path rq) (params rq) ;;
       responseProfit <- lift (responseProfit (data response)) ;;
       let finalProfit :=
         if negb (strict_eq_num responseProfit 0) then responseProfit
         else positionProfit in
       ret (mkCloseResult true
              (Str ("Position " ++ Number_toString ticketId ++ " closed successfully"))
              10009 finalProfit
              (Some (match given volume with
                     | Some _ => "with specified volume"
                     | None => "with auto volume"
                     end))))
    (fun error =>
       match http_response error with
       | Some (_, errorMessage) =>
           if match errorMessage with
              | Str text => includes text "position not found"
                            || includes text "already closed"
                            || includes text "POSITION_NOT_EXISTS"
              | _ => false
              end
           then
             ret (mkCloseResult true
                    (Str ("Position " ++ Number_toString ticketId ++ " was already closed"))
                    10009 (Num 0) None)
           else ret (mkCloseResult false errorMessage 10004 (Num 0) None)
       | None =>
           ret (mkCloseResult false (Str (if String.eqb (JS.message error) ""
                                         then "Unknown error" else JS.message error))
                  10004 (Num 0) None)
       end).

(** ** Orders *)

Inductive direction : Type := BUY | SELL.

Record OrderRequest : Type := mkOrderRequest {
  symbol : string;
  action : direction;
  volume : Q;
  price : option Q;
  sl : option Q;
  tp : option Q
}.

Definition operation (order : OrderRequest) : string :=
  match action order with
  | BUY => "Buy"
  | SELL => "Sell"
  end.

(** [if (x) requestData.k = x] when posting, [if (x) params.append(k,
    x.toString())] when getting. *)
Definition optional (k : string) (x : option Q) : list (string * value) :=
  match given x with
  | Some v => [(k, match how with
                   | Post => Num v
                   | Get => Str (Number_toString v)
                   end)]
  | None => []
  end.

Definition order_request (id : string) (order : OrderRequest) : request :=
  match how with
  | Post =>
      mkRequest "POST" "/OrderSend"
        ([ ("id", Str id); ("symbol", Str (symbol order));
           ("operation", Str (operation order));
           ("volume", Num (volume order)); ("slippage", Num 10) ]
         ++ optional "price" (price order)
         ++ optional "stoploss" (sl order)
         ++ optional "takeprofit" (tp order))%list
  | Get =>
      mkRequest "GET" "/OrderSend"
        ([ ("id", Str id); ("symbol", Str (symbol order));
           ("operation", Str (operation order));
           ("volume", Str (Number_toString (volume order)));
           ("slippage", Str "10") ]
         ++ optional "price" (price order)
         ++ optional "stoploss" (sl order)
         ++ optional "takeprofit" (tp order))%list
  end.

(** What the [catch] block of [sendOrder] makes of an error. *)
Definition rejection (error : JS.error) : value :=
  match http_response error with
  | Some (_, d) => Obj [("retcode", Num 10004); ("comment", d)]
  | None =>
      Obj [ ("retcode", Num 10004);
            ("comment", Str (if String.eqb (JS.message error) ""
                             then "Unknown error" else JS.message error)) ]
  end.

Definition sendOrder (order : OrderRequest) : M value :=
  try_catch
    (connected_now <- gets has_token ;;
     if negb connected_now then throw (newError "Not connected to MT5 API")
     else
       id <- gets token_text ;;
       let rq := order_request id order in
       response <- axios (verb rq) (path rq) (params rq) ;;
       ret (data response))
    (fun error => ret (rejection error)).

(** The value an optional field of the order goes out with. *)
Definition wire_value (x : option Q) : option value :=
  match given x with
  | Some v => Some (match how with
                    | Post => Num v
                    | Get => Str (Number_toString v)
                    end)
  | None => None
  end.

End Service.
End Simple.

(* ================================================================== *)
(** * The class-based service: [executeTrade]                           *)
(* ================================================================== *)

Module Classic.
Import JS Http Eff.

Local Open Scope Q_scope.

Record state : Type := mkState {
  token : option string;
  sent : list request
}.

Local Abbreviation M := (@Eff.M state).

Inductive orderType : Type := BUY | SELL.

Definition type_name (t : orderType) : string :=
  match t with
  | BUY => "BUY"
  | SELL => "SELL"
  end.

Record TradeResult : Type := mkTradeResult {
  success : bool;
  ticket : option value;
  message : string
}.

Section Service.
Variable net : bridge.

Definition axios_get (p : string) (ps : list (string * value)) : M response :=
  fun s =>
    let r := mkRequest "GET" p ps in
    (settle (net (sent s) r), mkState (token s) (sent s ++ [r])%list).

Definition has_token (s : state) : bool :=
  match token s with
  | Some t => negb (String.eqb t "")
  | None => false
  end.

(** [if (x) params.k = x] *)
Definition when_given (k : string) (x : option Q) : list (string * value) :=
  match x with
  | Some q => if Qeq_bool q 0 then [] else [(k, Num q)]
  | None => []
  end.

(** [price || 0] *)
Definition price_or_zero (price : option Q) : Q :=
  match price with
  | Some p => if Qeq_bool p 0 then 0 else p
  | None => 0
  end.

(** The [params] object of [executeTrade]. *)
Definition trade_params (id symbol : string) (type : orderType) (volume : Q)
    (price stopLoss takeProfit : option Q) (comment : option string)
  : list (string * value) :=
  ([ ("id", Str id);
     ("symbol", Str symbol);
     ("volume", Num volume);
     ("type", Str (match type with
                   | BUY => "ORDER_TYPE_BUY"
                   | SELL => "ORDER_TYPE_SELL"
                   end));
     ("price", Num (price_or_zero price));
     ("slippage", Num 10) ]
   ++ when_given "sl" stopLoss
   ++ when_given "tp" takeProfit
   ++ match comment with
      | Some c => if String.eqb c "" then [] else [("comment", Str c)]
      | None => []
      end)%list.

(** An optional field appears among the parameters only with a value
    that is not 0, which is the value of the field. *)
Definition sent_only_when_nonzero (ps : list (string * value)) (k : string)
    (x : option Q) : Prop :=
  forall v, lookup k ps = Some v -> exists q, x = Some q /\ ~ q == 0 /\ v = Num q.

Definition executeTrade (symbol : string) (type : orderType) (volume : Q)
    (price stopLoss takeProfit : option Q) (comment : option string)
  : M TradeResult :=
  connected_now <- gets has_token ;;
  if negb connected_now then ret (mkTradeResult false None "Not connected to MT5")
  else
    try_catch
      (id <- gets (fun s => match token s with Some t => t | None => "" end) ;;
       response <- axios_get "/OrderSend"
                     (trade_params id symbol type volume price stopLoss takeProfit comment) ;;
       positive <- lift (if truthy (data response) then gt0 (data response)
                         else Ok false) ;;
       if positive then
         ret (mkTradeResult true (Some (data response))
                (type_name type ++ " order executed successfully"))
       else
         printed <- lift (ToString (data response)) ;;
         ret (mkTradeResult false None
                ("Failed to execute " ++ type_name type ++ " order: " ++ printed)))
      (fun error =>
         if match http_response error with
            | Some (st, _) => (st =? 401)%Z
            | None => false
            end
         then ret (mkTradeResult false None
                     "Authentication failed. MT5 session may have expired. Please reconnect.")
         else ret (mkTradeResult false None (JS.message error))).

Definition token_text (s : state) : string :=
  match token s with
  | Some t => t
  | None => ""
  end.

Definition trade_request (s : state) (symbol : string) (type : orderType) (volume : Q)
    (price stopLoss takeProfit : option Q) (comment : option string) : request :=
  mkRequest "GET" "/OrderSend"
    (trade_params (token_text s) symbol type volume price stopLoss takeProfit comment).

(** [d > 0] holds: the comparison returns, and returns [true]. *)
Definition positive (d : value) : bool :=
  match gt0 d with
  | Ok b => b
  | Throw _ => false
  end.

(** The reply makes the trade a success: a status in [200, 300) and a
    body that is truthy and greater than 0. *)
Definition executed (w : wire) : option value :=
  match w with
  | Reply st d =>
      if ((200 <=? st) && (st <? 300))%Z && truthy d && positive d then Some d else None
  | NoReply _ _ => None
  end.

End Service.
End Classic.

(* ================================================================== *)
(** * The class-based service: session, pending orders, closing         *)
(* ================================================================== *)

Module ClassService.
Import JS Http Eff.

Local Open Scope Q_scope.

(** The fields of the class-based [MT5ApiService]; [mt5Token] is the
    item kept under the key ['mt5Token'] of [localStorage], [sent] logs
    the requests issued. *)
Record state : Type := mkState {
  apiUrl : string;
  apiKey : string;
  token : option string;
  mt5Token : option string;
  sent : list request
}.

Record MT5Credentials : Type := mkCredentials {
  accountNumber : string;
  password : string;
  serverName : string
}.

Record ConnectionResponse : Type := mkConnectionResponse {
  success : bool;
  response_token : option string;
  message : value
}.

(** What [closePosition] returns. *)
Record CloseOutcome : Type := mkCloseOutcome {
  close_success : bool;
  close_message : string
}.

Local Abbreviation M := (@Eff.M state).

Definition set_tokens (t : option string) (s : state) : state :=
  mkState (apiUrl s) (apiKey s) t t (sent s).

(** [new MT5ApiService()]: the environment gives the endpoint and the
    key, [localStorage] the token of an earlier session. *)
Definition constructor (env_url env_key stored : option string) : state :=
  mkState
    (match env_url with
     | Some u => if String.eqb u "" then "https://mt5full2.mtapi.io" else u
     | None => "https://mt5full2.mtapi.io"
     end)
    (match env_key with
     | Some k => k
     | None => ""
     end)
    stored stored [].

Section Service.
Variable net : bridge.

(** [axios.get(`${this.apiUrl}${p}`, { params })] *)
Definition axios_get (p : string) (ps : list (string * value)) : M response :=
  fun s =>
    let r := mkRequest "GET" p ps in
    (settle (net (sent s) r),
     mkState (apiUrl s) (apiKey s) (token s) (mt5Token s) (sent s ++ [r])%list).

(** [!!this.token] *)
Definition has_token (s : state) : bool :=
  match token s with
  | Some t => negb (String.eqb t "")
  | None => false
  end.

Definition token_text (s : state) : string :=
  match token s with
  | Some t => t
  | None => ""
  end.

(** [this.token = token; localStorage.setItem('mt5Token', token)] *)
Definition storeToken (t : string) : M unit := modify (set_tokens (Some t)).

Definition getStoredToken : M (option string) := gets token.

Definition status_is (e : error) (code : Z) : bool :=
  match http_response e with
  | Some (s, _) => (s =? code)%Z
  | None => false
  end.

Definition code_is (e : error) (c : string) : bool :=
  match code e with
  | Some c' => String.eqb c' c
  | None => false
  end.

(** The message of the [catch] block of [connect]; the request is the
    only statement of the [try] block that throws, so the error is one of
    the HTTP client.  The last message holds the body of the reply in a
    template literal, which converts it. *)
Definition connect_error_message (e : error) : res string :=
  if status_is e 401 then
    Ok "Invalid MT5 API key. Please check your .env file contains the correct VITE_MT5_API_KEY and restart the development server."
  else if status_is e 403 then
    Ok "MT5 API access forbidden. Please verify your API key permissions."
  else if status_is e 404 then
    Ok "MT5 API endpoint not found. Please check the API URL configuration."
  else if match http_response e with
          | Some (s, _) => (500 <=? s)%Z
          | None => false
          end then
    Ok "MT5 API server error. Please try again later or contact support."
  else if code_is e "ECONNREFUSED" then
    Ok "Cannot connect to MT5 API server. Please check your internet connection."
  else if code_is e "ETIMEDOUT" then
    Ok "Connection to MT5 API timed out. Please try again."
  else
    let? printed := ToString (or_else (match http_response e with
                                       | Some (_, d) => d
                                       | None => Undefined
                                       end) (Str (JS.message e))) in
    Ok ("MT5 API connection failed: " ++ printed).

Definition connect (credentials : MT5Credentials) : M ConnectionResponse :=
  try_catch
    (key <- gets apiKey ;;
     if String.eqb key "" then
       ret (mkConnectionResponse false None
              (Str "Invalid MT5 API key. Please check your .env file contains VITE_MT5_API_KEY and restart the development server."))
     else if (String.length key <? 10)%nat then
       ret (mkConnectionResponse false None
              (Str "MT5 API key appears to be invalid. Please verify your VITE_MT5_API_KEY in .env file."))
     else
       response <- axios_get "/ConnectEx"
                     [ ("id", Str key);
                       ("user", Str (accountNumber credentials));
                       ("password", Str (password credentials));
                       ("server", Str (serverName credentials)) ] ;;
       match data response with
       | Str t =>
           if (10 <? String.length t)%nat then
             storeToken t ;;;
             ret (mkConnectionResponse true (Some t) (Str "Connected successfully"))
           else
             ret (mkConnectionResponse false None
                    (or_else (Str t) (Str "Failed to connect to MT5 server")))
       | d =>
           ret (mkConnectionResponse false None
                  (or_else d (Str "Failed to connect to MT5 server")))
       end)
    (fun error =>
       text <- lift (connect_error_message error) ;;
       ret (mkConnectionResponse false None (Str text))).

(** [this.token = null; localStorage.removeItem('mt5Token')] *)
Definition disconnect : M unit := modify (set_tokens None).

Definition getPendingOrders : M (list value) :=
  connected_now <- gets has_token ;;
  if negb connected_now then ret []
  else
    try_catch
      (id <- gets token_text ;;
       response <- axios_get "/OrdersGet" [("id", Str id)] ;;
       match data response with
       | Arr items => ret items
       | _ => ret []
       end)
      (fun error =>
         if status_is error 401 then
           throw (newError
                    "Authentication failed. MT5 session may have expired. Please reconnect.")
         else ret []).

(** [response.data === true || response.data === 'true'
     || response.data === 'True'] *)
Definition confirms (d : value) : bool :=
  strict_eq_bool d true || strict_eq_str d "true" || strict_eq_str d "True".

Definition closePosition (ticket : Q) : M CloseOutcome :=
  connected_now <- gets has_token ;;
  if negb connected_now then ret (mkCloseOutcome false "Not connected to MT5")
  else
    try_catch
      (id <- gets token_text ;;
       response <- axios_get "/OrderClose"
                     [ ("id", Str id); ("ticket", Num ticket);
                       ("lots", Num 0); ("slippage", Num 10) ] ;;
       if confirms (data response) then
         ret (mkCloseOutcome true
                ("Position " ++ Number_toString ticket ++ " closed successfully"))
       else
         printed <- lift (ToString (data response)) ;;
         ret (mkCloseOutcome false
                ("Failed to close position " ++ Number_toString ticket ++ ": "
                 ++ printed)))
      (fun error =>
         if status_is error 401 then
           ret (mkCloseOutcome false
                  "Authentication failed. MT5 session may have expired. Please reconnect.")
         else ret (mkCloseOutcome false (JS.message error))).

(** ** The calls modelled, and what the properties speak of *)

Inductive call : Type :=
| Connect (credentials : MT5Credentials)
| Disconnect
| GetStoredToken
| GetPendingOrders
| ClosePosition (ticket : Q).

(** The state a call leaves, whether it returns or throws. *)
Definition perform (c : call) (s : state) : state :=
  match c with
  | Connect credentials => snd (connect credentials s)
  | Disconnect => snd (disconnect s)
  | GetStoredToken => snd (getStoredToken s)
  | GetPendingOrders => snd (getPendingOrders s)
  | ClosePosition ticket => snd (closePosition ticket s)
  end.

(** The key passes the two checks [connect] makes before it asks. *)
Definition key_accepted (s : state) : bool :=
  negb (String.eqb (apiKey s) "") && negb (String.length (apiKey s) <? 10)%nat.

Definition connect_request (s : state) (credentials : MT5Credentials) : request :=
  mkRequest "GET" "/ConnectEx"
    [ ("id", Str (apiKey s));
      ("user", Str (accountNumber credentials));
      ("password", Str (password credentials));
      ("server", Str (serverName credentials)) ].

(** The token a reply grants: the body of a reply with a status in
    [200, 300), when it is a string of more than ten characters. *)
Definition granted (w : wire) : option string :=
  match w with
  | Reply st (Str t) =>
      if ((200 <=? st) && (st <? 300))%Z && (10 <? String.length t)%nat
      then Some t else None
  | _ => None
  end.

Definition close_request (s : state) (ticket : Q) : request :=
  mkRequest "GET" "/OrderClose"
    [ ("id", Str (token_text s)); ("ticket", Num ticket);
      ("lots", Num 0); ("slippage", Num 10) ].

Definition pending_request (s : state) : request :=
  mkRequest "GET" "/OrdersGet" [("id", Str (token_text s))].

(** The reply confirms the close: a status in [200, 300) and a body that
    is [true], ['true'] or ['True']. *)
Definition confirmed (w : wire) : bool :=
  match w with
  | Reply st d => ((200 <=? st) && (st <? 300))%Z && confirms d
  | NoReply _ _ => false
  end.

End Service.
End ClassService.

(* ================================================================== *)
(** * The trading store: symbols and the cache of positions             *)
(* ================================================================== *)

Module Store.
Import JS.

Local Open Scope Q_scope.

Inductive account : Type := demo | live | prop.

Definition special_prefixes : list string :=
  [ "XAU"; "XAG"; "US30"; "NAS100"; "SPX500"; "UK100"; "GER30";
    "BTC"; "ETH"; "LTC"; "XRP"; "BCH" ].

Definition extensions : list string :=
  [".raw"; ".m"; ".c"; ".pro"; ".ecn"; ".stp"].

(** [symbol.match(/\.(raw|m|c|pro|ecn|stp)$/i)] *)
Definition has_extension (symbol : string) : bool :=
  existsb (endsWith (toLowerCase symbol)) extensions.

(** Precious metals, indices, crypto and oil are never modified. *)
Definition is_special (symbol : string) : bool :=
  existsb (fun p => String.prefix p symbol) special_prefixes
  || includes symbol "OIL".

Definition getMT5Symbol (symbol : string) (accountType : option account) : string :=
  if is_special symbol then symbol
  else
    match accountType with
    | Some prop => if negb (has_extension symbol) then symbol ++ ".raw" else symbol
    | _ => symbol
    end.

(** [positions: state.positions.filter(pos => pos.ticket !== ticket)] *)
Definition removeClosedPositionFromCache (ticket : Q)
    (positions : list Enhanced.Position) : list Enhanced.Position :=
  filter (fun pos => negb (strict_eq_num (Enhanced.ticket pos) ticket)) positions.

(** The head of [forceClosePosition]: the position is removed from the
    cache, then looked up in the cache for its profit. *)
Definition profitBeforeClose (ticket : Q) (positions : list Enhanced.Position)
  : value :=
  let cache := removeClosedPositionFromCache ticket positions in
  match find (fun p => strict_eq_num (Enhanced.ticket p) ticket) cache with
  | Some positionToClose => Enhanced.profit positionToClose
  | None => Num 0
  end.

End Store.

(* ================================================================== *)
(** * The object-literal service: opening a session                     *)
(* ================================================================== *)

Module SimpleSession.
Import JS Http Eff.

(** The module-level [mt5Token], which holds whatever [connect] found
    under [token] in the reply, and the log of requests. *)
Record state : Type := mkState {
  mt5Token : value;
  sent : list request
}.

Record ConnectionResponse : Type := mkConnectionResponse {
  success : bool;
  token : value;
  message : string
}.

Record Credentials : Type := mkCredentials {
  accountNumber : string;
  password : string;
  serverName : string
}.

Local Abbreviation M := (@Eff.M state).

Section Service.
Variable net : bridge.

(** [MT5_API_KEY] *)
Variable apiKey : string.

(** [error.response.statusText]: the reason phrase that comes with a
    status. *)
Variable statusText : Z -> string.

Definition axios_get (p : string) (ps : list (string * value)) : M response :=
  fun s =>
    let r := mkRequest "GET" p ps in
    (settle (net (sent s) r), mkState (mt5Token s) (sent s ++ [r])%list).

Definition connect_request (credentials : Credentials) : request :=
  mkRequest "GET" "/ConnectEx"
    [ ("accountNumber", Str (accountNumber credentials));
      ("password", Str (password credentials));
      ("serverName", Str (serverName credentials));
      ("apiKey", Str apiKey) ].

Definition connect (credentials : Credentials) : M ConnectionResponse :=
  try_catch
    (response <- axios_get "/ConnectEx" (params (connect_request credentials)) ;;
     tok <- lift (get (data response) "token") ;;
     modify (fun s => mkState tok (sent s)) ;;;
     ret (mkConnectionResponse true tok "Connected successfully"))
    (fun error =>
       ret (mkConnectionResponse false Null
              (match http_response error with
               | Some (st, _) =>
                   "MT5 API error: " ++ Z_toString st ++ " - " ++ statusText st
               | None => JS.message error
               end))).

Definition disconnect : M unit := modify (fun s => mkState Null (sent s)).

Definition getStoredToken : M value := gets mt5Token.

(** [!mt5Token], the guard of every other method. *)
Definition not_connected (s : state) : bool := negb (truthy (mt5Token s)).

(** The reply that makes [connect] report success: a status in
    [200, 300) and a body that is neither [null] nor [undefined]. *)
Definition accepted (w : wire) : option value :=
  match w with
  | Reply st d =>
      if ((200 <=? st) && (st <? 300))%Z then
        match d with
        | Null => None
        | Undefined => None
        | _ => Some (get_opt d "token")
        end
      else None
  | NoReply _ _ => None
  end.

End Service.
End SimpleSession.

(* ================================================================== *)
(** * Scenarios: concrete bridges, states and requests                  *)
(* ================================================================== *)

Module Scenario.
Import JS Http.

Local Open Scope Q_scope.

(** A session with a token in memory and in [localStorage]. *)
Definition session : Enhanced.state :=
  Enhanced.mkState (Some "session-token-1") (Some "session-token-1")
    "https://mt5full2.mtapi.io" "key" 1 [].

(** A buy of 0.01 lots, reported with native volume 1000. *)
Definition open_order : value :=
  Obj [ ("ticket", Num 12345); ("symbol", Str "EURUSD"); ("orderType", Str "Buy");
        ("lots", Num 0.01); ("volume", Num 1000); ("openPrice", Num 1.1);
        ("profit", Num 1.5) ].

(** A bridge that lists [open_order], publishes two symbols and accepts
    whatever else it is asked. *)
Definition friendly : bridge :=
  fun _ r =>
    if is_path "/OpenedOrders" r then Reply 200 (Arr [open_order])
    else if is_path "/SymbolList" r then Reply 200 (Arr [Str "EURUSD"; Str "EURUSD.raw"])
    else if is_path "/OrderClose" r then Reply 200 (Obj [("retcode", Num 10009)])
    else if is_path "/OrderSend" r then Reply 200 (Num 777)
    else Reply 200 (Bool true).

(** A bridge whose session has expired for closing: it still lists the
    position, and answers every [/OrderClose] with status 401. *)
Definition expired : bridge :=
  fun _ r =>
    if is_path "/OpenedOrders" r then Reply 200 (Arr [open_order])
    else if is_path "/OrderClose" r then Reply 401 (Str "Unauthorized")
    else Reply 200 (Bool true).

(** A bridge that cannot be reached. *)
Definition unreachable : bridge :=
  fun _ _ => NoReply "Network Error" (Some "ERR_NETWORK").



(** An object that can be converted neither to a string nor to a
    number: the JSON text [{"toString": null, "valueOf": null}]. *)
Definition opaque : value := Obj [("toString", Null); ("valueOf", Null)].


(** A position without lots, whose volume is the text "n/a". *)
Definition no_lots : value :=
  Obj [ ("ticket", Num 5); ("orderType", Str "Buy"); ("volume", Str "n/a") ].

(** A position whose lots were written as 1e999 in the body, which
    [JSON.parse] reads as infinity. *)
Definition huge_lots : value :=
  Obj [ ("ticket", Num 8); ("orderType", Str "Sell"); ("lots", Num (Infinity false)) ].

(** A position of one lot whose volume cannot be converted. *)
Definition opaque_volume : value :=
  Obj [ ("ticket", Num 9); ("orderType", Str "Buy"); ("lots", Num 1);
        ("volume", opaque) ].

(** A bridge that lists the three, and accepts whatever else it is
    asked. *)
Definition vague : bridge :=
  fun _ r =>
    if is_path "/OpenedOrders" r then Reply 200 (Arr [no_lots; huge_lots; opaque_volume])
    else if is_path "/OrderClose" r then Reply 200 (Obj [("retcode", Num 10009)])
    else Reply 200 (Bool true).

(** A broker that knows gold as GOLD, and answers an order with a
    ticket. *)
Definition gold_broker : bridge :=
  fun _ r =>
    if is_path "/SymbolList" r then Reply 200 (Arr [Str "EURUSD"; Str "GOLD"])
    else if is_path "/OrderSend" r then Reply 200 (Obj [("ticket", Num 42)])
    else Reply 200 (Bool true).

(** A bridge that answers the connection with a token and has no open
    orders to report. *)
Definition welcoming : bridge :=
  fun _ r =>
    if is_path "/ConnectEx" r then Reply 200 (Str "abcdef-0123456789")
    else if is_path "/OpenedOrders" r then Reply 200 Null
    else Reply 200 (Bool true).

Definition credentials : Enhanced.ConnectionCredentials :=
  Enhanced.mkCredentials "123456" "secret" "Broker-Live".

(** A bridge that refuses every request with status 401. *)
Definition refusing : bridge :=
  fun _ _ => Reply 401 (Str "Unauthorized").

(** A bridge that publishes its symbols and refuses every order with
    status 401. *)
Definition refusing_orders : bridge :=
  fun _ r =>
    if is_path "/SymbolList" r then Reply 200 (Arr [Str "EURUSD"])
    else if is_path "/OrderSend" r then Reply 401 (Str "Unauthorized")
    else Reply 200 (Bool true).

(** A bridge that knows the summary of the account and refuses to give
    its details. *)
Definition summary_only : bridge :=
  fun _ r =>
    if is_path "/AccountSummary" r then Reply 200 (Obj [("balance", Num 1000)])
    else if is_path "/AccountDetails" r then Reply 401 (Str "Unauthorized")
    else Reply 200 (Bool true).

(** A service that has just been constructed, with nothing in
    [localStorage]. *)
Definition fresh : Enhanced.state := Enhanced.constructor None None None.

Definition gold_order : Enhanced.OrderRequest :=
  Enhanced.mkOrderRequest "XAUUSD" Enhanced.BUY 0.01 None None None None.

Definition euro_order : Enhanced.OrderRequest :=
  Enhanced.mkOrderRequest "EURUSD" Enhanced.SELL 0.01 None (Some 1.2) None None.

End Scenario.

(* ================================================================== *)
(** * Properties                                                        *)
(* ================================================================== *)

Import JS Http Eff.
Local Open Scope Q_scope.

(** ** The model at work *)

Section Examples.
Import Enhanced.

(** One body for each rule of the normalizer. *)
Example normalizer_rules :
  map (fun body => classify body "OrderSend")
    [ Null;
      Obj [("ticket", Num 5)];
      Obj [("retcode", Num 10013); ("comment", Str "Invalid request")];
      Obj [("success", Bool false)];
      Obj [("Error", Str "boom")];
      Obj [("message", Str "Order executed")];
      Obj [("message", Str "Invalid stops")];
      Obj [];
      Str "12345";
      Str "Trade failed";
      Str "whatever";
      Num 0;
      Num (-5);
      Bool true;
      Bool false;
      Fun;
      Obj [("ticket", Obj [("toString", Null)])] ]
  = [ Ok Success; Ok Success; Ok Failure; Ok Failure; Ok Failure; Ok Success;
      Ok Failure; Ok Success; Ok Success; Ok Failure; Ok Success; Ok Success;
      Ok Failure; Ok Success; Ok Failure; Ok Failure; Throw unconvertible ].
Proof. vm_compute. reflexivity. Qed.

(** Connecting with a bridge that answers with a token, then reading the
    positions, then closing a ticket that is not open. *)
Example connect_then_close :
  let s0 := constructor None None None in
  let (connected, s1) := connect Scenario.welcoming Scenario.credentials s0 in
  let (positions, s2) := getPositions Scenario.welcoming s1 in
  let (closed, s3) := closePosition Scenario.welcoming 12345 None s2 in
  connected = Ok (mkConnectionResponse true (Some "abcdef-0123456789")
                    (Str "Connected successfully"))
  /\ has_token s1 = true
  /\ positions = Ok []
  /\ closed = Ok (not_found 12345)
  /\ filter (is_path "/OrderClose") (sent s3) = [].
Proof. vm_compute. repeat split. Qed.

(** An order for XAUUSD with a broker that lists GOLD: the symbol is
    resolved and subscribed to before the order goes out. *)
Example gold_is_resolved :
  map (fun r => (path r, lookup "symbol" (params r)))
    (sent (snd (sendOrder Scenario.gold_broker
                  (mkOrderRequest "XAUUSD" BUY 0.01 None None None None)
                  Scenario.session)))
  = [ ("/SymbolList", None);
      ("/Subscribe", Some (Str "GOLD"));
      ("/OrderSend", Some (Str "GOLD")) ].
Proof. vm_compute. reflexivity. Qed.

(** The candidates for a position of 0.01 lots with raw volume 1000. *)
Example candidates_of_open_order :
  (let? formats := volumeFormats None (Some (toPosition Scenario.open_order)) in
   let? candidates := uniqueFormats formats in
   Ok (map value_of candidates))
  = Ok (map (fun q : Q => Num q)
          [ 0.01; 1000; 0.01 * 1000; 0.01 * 10000; 0.01 * 0.001; 0.01 * 0.0001;
            0.01 * 10; 0.01 * 100; 0.01 * 0.1; 0.01 * 0.01; 1000 * 100; 1000 * 10 ]).
Proof. reflexivity. Qed.

(** What the bridge reports is kept as it is.  A volume that is a text
    is tried as that text when it reads as a number; a volume that is no
    finite number is not near itself and drops out of the candidates, and
    a volume that cannot be converted stops the generation. *)
Example candidates_of_odd_volumes :
  map (fun lots =>
         let? formats :=
           volumeFormats None
             (Some (toPosition (Obj [("ticket", Num 5); ("orderType", Str "Buy");
                                     ("lots", lots)]))) in
         let? candidates := uniqueFormats formats in
         Ok (map value_of (firstn 2 candidates)))
    [ Str "2"; Num (Infinity false); Obj [("toString", Null)] ]
  = [ Ok [Str "2"; Num (2 * 1000)]; Ok []; Throw unconvertible ].
Proof. vm_compute. reflexivity. Qed.

End Examples.

(** ** Conversions *)

Section Conversions.

(** A conversion throws one thing only. *)
Lemma ToString_throws : forall v e, ToString v = Throw e -> e = unconvertible.
Proof.
  fix IH 1. intros v. destruct v as [| | b | n | s | items | fields |]; cbn [ToString];
    try discriminate.
  - destruct b; discriminate.
  - induction items as [|x r IHr]; intros e; [discriminate|].
    pose proof (IH x) as IHx.
    assert (Hx : forall e, match x with
                           | Undefined => Ok ""
                           | Null => Ok ""
                           | _ => ToString x
                           end = Throw e -> e = unconvertible).
    { intros e0. destruct x; try discriminate; apply IHx. }
    clear IHx.
    match goal with
    | |- match ?m with _ => _ end = _ -> _ => destruct m as [sx|e0]
    end.
    + destruct r as [|y r']; [discriminate|].
      match goal with
      | |- match ?m with _ => _ end = _ -> _ => destruct m as [rest|e1]
      end; [discriminate|].
      intros H. inversion H; subst. apply IHr. reflexivity.
    + intros H. inversion H; subst. apply Hx. reflexivity.
  - intros e. destruct (lookup "toString" fields); [|discriminate].
    intros H; inversion H; reflexivity.
Qed.

Lemma ToNumber_throws v e : ToNumber v = Throw e -> e = unconvertible.
Proof.
  destruct v as [| | b | n | s | items | fields |]; cbn [ToNumber]; try discriminate;
    try (destruct b; discriminate);
    match goal with
    | |- match ?m with _ => _ end = _ -> _ => destruct m eqn:E
    end; try discriminate; intros H; inversion H; subst; eapply ToString_throws; exact E.
Qed.

(** What converts to a number converts to a string, and the other way
    round. *)
Lemma ToNumber_ToString v n : ToNumber v = Ok n -> exists s, ToString v = Ok s.
Proof.
  destruct v as [| | b | m | s | items | fields |]; cbn [ToNumber];
    try (intros _; eexists; reflexivity);
    try (destruct b; intros _; eexists; reflexivity);
    match goal with
    | |- match ?m with _ => _ end = _ -> _ => destruct m eqn:E
    end; try discriminate; intros _; eexists; reflexivity.
Qed.

Lemma ToString_ToNumber v s : ToString v = Ok s -> exists n, ToNumber v = Ok n.
Proof.
  destruct v as [| | b | m | s0 | items | fields |]; cbn [ToNumber];
    try (intros _; eexists; reflexivity);
    try (destruct b; intros _; eexists; reflexivity);
    intros H; rewrite H; eexists; reflexivity.
Qed.

Lemma gt0_throws v e : gt0 v = Throw e -> e = unconvertible.
Proof.
  unfold gt0. destruct (ToNumber v) eqn:E; [discriminate|].
  intros H. inversion H; subst. eapply ToNumber_throws. exact E.
Qed.


Lemma gt0_ToString v b : gt0 v = Ok b -> exists s, ToString v = Ok s.
Proof.
  unfold gt0. destruct (ToNumber v) eqn:E; [|discriminate].
  intros _. eapply ToNumber_ToString. exact E.
Qed.


Lemma ToString_parseInt v s : ToString v = Ok s -> exists z, parseInt v = Ok z.
Proof. intros H. unfold parseInt. rewrite H. eexists; reflexivity. Qed.

(** The message of a failed conversion names neither a closed position
    nor the session. *)
Lemma unconvertible_message :
  message unconvertible = "Cannot convert object to primitive value".
Proof. reflexivity. Qed.

End Conversions.

(** ** The response normalizer *)

Section Normalizer.
Import Enhanced.


(** The rules of an object body, in the order in which they are tried. *)
Lemma parse_object (fields : list (string * value)) (operation : string) :
  let body := Obj fields in
  let has k := match lookup k fields with Some _ => true | None => false end in
  parseOrderResponse body operation
  = let? by_ticket := if has "ticket" then gt0 (get_opt body "ticket") else Ok false in
    if by_ticket then
      ticket_rule body (get_opt body "ticket") (get_opt body "message")
        (get_opt body "comment") operation
    else if has "retcode" then
      retcode_rule (get_opt body "retcode") (get_opt body "comment")
        (get_opt body "message") (get_opt body "order") (get_opt body "ticket") operation
    else if has "success" then
      Ok (success_rule (get_opt body "success") (get_opt body "message")
            (get_opt body "comment") (get_opt body "order") (get_opt body "ticket")
            operation)
    else if has "error" || has "Error" then
      error_rule (get_opt body "error") (get_opt body "Error") operation
    else
      let? by_message :=
        if has "message" && String.eqb (typeof (get_opt body "message")) "string"
        then message_rule (get_opt body "message") (get_opt body "order")
               (get_opt body "ticket")
        else Ok None in
      match by_message with
      | Some r => Ok r
      | None =>
          order_rule (has "order") (get_opt body "order") (get_opt body "comment")
            (get_opt body "message") operation
      end.
Proof.
  reflexivity.
Qed.









(** *** The normalizer on a body it can read *)


Lemma nonzero_cases z : (exists n, nonzero z = Some n /\ n <> 0%Z) \/ nonzero z = None.
Proof.
  unfold nonzero. destruct z as [n|]; [|right; reflexivity].
  destruct (Z.eqb_spec n 0); [right; reflexivity | left; exists n; split; auto].
Qed.














End Normalizer.
(** ** Relations that every method maintains

    [R] relates the state before a step to the state after it; it is
    reflexive and transitive, holds across the logging of a request that
    is [safe], and across the assignments that touch the token.  Then it
    holds across every method of the service. *)

Section Invariance.
Import Enhanced.
Variable net : bridge.
Variable now : string.
Variable R : state -> state -> Prop.
Variable safe : request -> Prop.
Hypothesis R_refl : forall s, R s s.
Hypothesis R_trans : forall a b c, R a b -> R b c -> R a c.
Hypothesis R_log : forall s r, safe r -> R s (log_request r s).
Hypothesis R_store : forall t s, R s (snd (store t s)).
Hypothesis R_forget : forall s, R s (snd (forget s)).
Hypothesis R_remember : forall t s, t <> "" -> R s (snd (remember t s)).
Hypothesis R_baseURL : forall u s, R s (set_baseURL u s).
Hypothesis R_client : forall s, R s (new_client s).
Hypothesis safe_read :
  forall p ps, String.eqb p "/OrderSend" = false -> String.eqb p "/OrderClose" = false ->
               safe (mkRequest "GET" p ps).

Lemma maintains_ret {A} (a : A) : maintains R (ret a).
Proof. intros s. apply R_refl. Qed.

Lemma maintains_throw {A} e : maintains R (@throw state A e).
Proof. intros s. apply R_refl. Qed.

Lemma maintains_lift {A} (r : res A) : maintains R (lift r).
Proof. intros s. apply R_refl. Qed.

Lemma maintains_gets {A} (f : state -> A) : maintains R (gets f).
Proof. intros s. apply R_refl. Qed.

Lemma maintains_bind {A B} (m : @M state A) (k : A -> @M state B) :
  maintains R m -> (forall a, maintains R (k a)) -> maintains R (bind m k).
Proof.
  intros Hm Hk s. unfold bind. specialize (Hm s).
  destruct (m s) as [[a|e] s1]; simpl in *.
  - eapply R_trans; [exact Hm | apply Hk].
  - exact Hm.
Qed.

Lemma maintains_try_catch {A} (m : @M state A) h :
  maintains R m -> (forall e, maintains R (h e)) -> maintains R (try_catch m h).
Proof.
  intros Hm Hh s. unfold try_catch. specialize (Hm s).
  destruct (m s) as [[a|e] s1]; simpl in *.
  - exact Hm.
  - eapply R_trans; [exact Hm | apply Hh].
Qed.

Lemma maintains_settled {A} (m : @M state A) : maintains R m -> maintains R (settled m).
Proof.
  intros Hm s. unfold settled. specialize (Hm s). destruct (m s); exact Hm.
Qed.

Lemma maintains_api_get p ps :
  safe (mkRequest "GET" p ps) -> maintains R (api_get net p ps).
Proof. intros H s. unfold api_get. simpl. apply R_log, H. Qed.

Lemma maintains_store t : maintains R (store t).
Proof. intros s. apply R_store. Qed.

Lemma maintains_forget : maintains R forget.
Proof. intros s. apply R_forget. Qed.

Lemma maintains_remember t : t <> "" -> maintains R (remember t).
Proof. intros H s. apply R_remember, H. Qed.

Ltac maintain_using tac :=
  repeat first
    [ tac
    | apply maintains_ret | apply maintains_throw | apply maintains_lift
    | apply maintains_gets | apply maintains_store | apply maintains_forget
    | apply maintains_remember
    | apply maintains_settled
    | apply maintains_api_get; apply safe_read; reflexivity
    | apply maintains_bind; [| intros ?]
    | apply maintains_try_catch; [| intros ?]
    | match goal with
      | |- maintains R (if ?b then _ else _) => destruct b eqn:?
      | |- maintains R (match ?x with _ => _ end) => destruct x eqn:?
      end ].

Ltac maintain := maintain_using fail.

Lemma maintains_clearToken : maintains R clearToken.
Proof. apply maintains_forget. Qed.

Lemma maintains_setToken t : maintains R (setToken t).
Proof. apply maintains_store. Qed.

Lemma maintains_getSymbols : maintains R (getSymbols net).
Proof. unfold getSymbols. maintain. Qed.

Lemma maintains_getPositions : maintains R (getPositions net).
Proof. unfold getPositions. maintain. Qed.

Lemma maintains_subscribeSymbol sym : maintains R (subscribeSymbol net sym).
Proof. unfold subscribeSymbol. maintain. Qed.

Lemma maintains_findMatchingSymbol sym : maintains R (findMatchingSymbol net sym).
Proof. unfold findMatchingSymbol. maintain_using ltac:(apply maintains_getSymbols). Qed.

Lemma maintains_resolve sym : maintains R (resolve_and_subscribe net sym).
Proof.
  unfold resolve_and_subscribe.
  maintain_using ltac:(first [apply maintains_findMatchingSymbol | apply maintains_subscribeSymbol]).
Qed.

Lemma maintains_getAccountInfo : maintains R (getAccountInfo net).
Proof. unfold getAccountInfo. maintain. Qed.

Lemma maintains_checkConnection : maintains R (checkConnection net).
Proof. unfold checkConnection. maintain. Qed.

Lemma maintains_getQuote sym : maintains R (getQuote net now sym).
Proof. unfold getQuote. maintain_using ltac:(apply maintains_resolve). Qed.

Lemma valid_token_nonempty v t : valid_token v = Some t -> t <> "".
Proof.
  destruct v; simpl; try discriminate.
  destruct s; simpl; [discriminate|]. intros H.
  destruct (_ && _) in H; inversion H. discriminate.
Qed.

Lemma long_nonempty t : (10 <? String.length t)%nat = true -> t <> "".
Proof. destruct t; simpl; [discriminate | discriminate]. Qed.

Lemma maintains_token_from_fields rd msg fields :
  maintains R (token_from_fields rd msg fields).
Proof.
  induction fields as [|f rest IH]; simpl; maintain_using ltac:(exact IH).
  apply long_nonempty. 
  match goal with H : _ && _ = true |- _ => apply andb_prop in H; apply H end.
Qed.

Lemma maintains_connect_object rd : maintains R (connect_object rd).
Proof.
  unfold connect_object.
  maintain_using ltac:(apply maintains_token_from_fields).
  match goal with H : (if _ then _ else _) = Some _ |- _ =>
    destruct a in H; [|discriminate]; eapply valid_token_nonempty; exact H end.
Qed.

Lemma maintains_connect_string text : maintains R (connect_string text).
Proof.
  unfold connect_string. maintain.
  apply long_nonempty.
  match goal with H : _ && _ && _ = true |- _ =>
    apply andb_prop in H; destruct H as [H _]; apply andb_prop in H; apply H end.
Qed.

Lemma maintains_connect c : maintains R (connect net c).
Proof.
  unfold connect.
  maintain_using ltac:(first [apply maintains_connect_object | apply maintains_connect_string]).
Qed.

Lemma maintains_modify_client : maintains R (modify new_client).
Proof. intros s. apply R_client. Qed.

Lemma maintains_disconnect : maintains R (disconnect net).
Proof. unfold disconnect. maintain_using ltac:(apply maintains_modify_client). Qed.

Lemma maintains_setApiEndpoint e : maintains R (setApiEndpoint e).
Proof. intros s. apply R_baseURL. Qed.

Lemma maintains_sendOrder o :
  (forall id sym, safe (mkRequest "GET" "/OrderSend" (order_params id sym o))) ->
  maintains R (sendOrder net o).
Proof.
  intros Hsafe. unfold sendOrder.
  maintain_using ltac:(first [apply maintains_resolve
                             | apply maintains_api_get; apply Hsafe]).
Qed.

Section Close.
Hypothesis safe_close : forall ps, safe (mkRequest "GET" "/OrderClose" ps).

Lemma maintains_attempt t i f : maintains R (attempt net t i f).
Proof.
  unfold attempt, attempt_failed. cbv zeta.
  maintain_using ltac:(apply maintains_api_get; apply safe_close).
Qed.

Lemma maintains_tryFormats t fs : forall i, maintains R (tryFormats net t i fs).
Proof.
  induction fs as [|f rest IH]; intros i; simpl.
  - maintain.
  - maintain_using ltac:(first [apply maintains_attempt | apply IH]).
Qed.

Lemma maintains_closePosition t v : maintains R (closePosition net t v).
Proof.
  unfold closePosition, positionDetails.
  maintain_using ltac:(first [apply maintains_getPositions | apply maintains_tryFormats]).
Qed.
End Close.

End Invariance.


(** ** The token in memory and the token in the store *)

Section Agreement.
Import Enhanced.
Variable net : bridge.
Variable now : string.

Lemma keeps_agreement_remember t s :
  t <> "" -> keeps_agreement s (snd (remember t s)).
Proof.
  intros Ht _. unfold remember, bind, modify. simpl.
  destruct (String.eqb_spec t ""); [contradiction | reflexivity].
Qed.

Lemma perform_agree c s : agree s -> agree (perform net now c s).
Proof.
  assert (Hrefl : forall s, keeps_agreement s s) by (intros ? H; exact H).
  assert (Htrans : forall a b c, keeps_agreement a b -> keeps_agreement b c
                                 -> keeps_agreement a c)
    by (intros ? ? ? H1 H2 H; auto).
  assert (Hlog : forall s r, True -> keeps_agreement s (log_request r s))
    by (intros ? ? _ H; exact H).
  assert (Hstore : forall t s, keeps_agreement s (snd (store t s)))
    by (intros ? ? _; reflexivity).
  assert (Hforget : forall s, keeps_agreement s (snd (forget s)))
    by (intros ? _; reflexivity).
  assert (Hrem := keeps_agreement_remember).
  assert (Hurl : forall u s, keeps_agreement s (set_baseURL u s))
    by (intros ? ? H; exact H).
  assert (Hcl : forall s, keeps_agreement s (new_client s))
    by (intros ? H; exact H).
  destruct c; cbn [perform].
  - apply (maintains_connect net keeps_agreement (fun _ => True)); auto.
  - apply (maintains_disconnect net keeps_agreement (fun _ => True)); auto.
  - apply (maintains_checkConnection net keeps_agreement (fun _ => True)); auto.
  - apply (maintains_getAccountInfo net keeps_agreement (fun _ => True)); auto.
  - apply (maintains_getSymbols net keeps_agreement (fun _ => True)); auto.
  - apply (maintains_subscribeSymbol net keeps_agreement (fun _ => True)); auto.
  - apply (maintains_findMatchingSymbol net keeps_agreement (fun _ => True)); auto.
  - apply (maintains_getPositions net keeps_agreement (fun _ => True)); auto.
  - apply (maintains_sendOrder net keeps_agreement (fun _ => True)); auto.
  - apply (maintains_getQuote net now keeps_agreement (fun _ => True)); auto.
  - apply (maintains_closePosition net keeps_agreement (fun _ => True)); auto.
  - intros _; reflexivity.
  - intros H; exact H.
  - intros _; reflexivity.
  - intros H; exact H.
  - intros H; exact H.
  - intros H; exact H.
Qed.

Lemma constructor_agree env_url env_key stored :
  stored <> Some "" -> agree (constructor env_url env_key stored).
Proof.
  intros H. unfold agree, constructor. simpl.
  destruct stored as [t|]; [|reflexivity].
  destruct (String.eqb_spec t ""); [subst; contradiction | reflexivity].
Qed.

(** C9, as amended.  When the item found in [localStorage] at construction
    is absent or is a string that is not empty, the token in memory and
    the persisted token agree after construction and after every sequence
    of public calls (connect, disconnect, setToken, clearToken, the read
    and the trade operations), however each call ends. *)
Theorem token_agreement (env_url env_key stored : option string) (calls : list call) :
  stored <> Some "" ->
  agree (fold_left (fun s c => perform net now c s) calls
           (constructor env_url env_key stored)).
Proof.
  intros H. generalize (constructor_agree env_url env_key stored H).
  generalize (constructor env_url env_key stored).
  induction calls as [|c rest IH]; intros s Hs; simpl.
  - exact Hs.
  - apply IH. apply perform_agree. exact Hs.
Qed.

End Agreement.

Lemma token_agreement_witness :
  Some "session-token-1" <> Some ""
  /\ Enhanced.agree
       (fold_left (fun s c => Enhanced.perform Scenario.expired "" c s)
          [Enhanced.ClosePosition 12345 None; Enhanced.SetToken "another-token";
           Enhanced.GetPositions; Enhanced.Disconnect]
          (Enhanced.constructor None None (Some "session-token-1"))).
Proof.
  split; [discriminate|].
  apply (token_agreement Scenario.expired "" None None (Some "session-token-1")).
  discriminate.
Defined.

(** C9, as stated, fails at construction: an empty string found in
    [localStorage] is not restored, so the token in memory is absent while
    the persisted one is the empty string.  The class itself can put it
    there: [setToken("")] stores it, and the next construction finds it. *)
Lemma token_agreement_counterexample :
  Enhanced.mt5_token
    (Enhanced.perform Scenario.friendly "" (Enhanced.SetToken "")
       (Enhanced.constructor None None None))
  = Some ""
  /\ Enhanced.token (Enhanced.constructor None None (Some "")) = None
  /\ Enhanced.mt5_token (Enhanced.constructor None None (Some "")) = Some ""
  /\ ~ Enhanced.agree (Enhanced.constructor None None (Some "")).
Proof.
  split; [reflexivity|]. split; [reflexivity|]. split; [reflexivity|].
  unfold Enhanced.agree. simpl. discriminate.
Qed.

(** ** The symbol resolver *)

Section Resolver.
Import Enhanced.
Variable net : bridge.




End Resolver.


(** ** The candidates of the position closer *)

Section Candidates.
Import Enhanced.

Lemma bind_returns {A B} (x : res A) (k : A -> res B) r :
  res_bind x k = Ok r -> exists a, x = Ok a /\ k a = Ok r.
Proof. destruct x as [a|]; [intros H; exists a; split; [reflexivity | exact H] | discriminate]. Qed.

Lemma bind_throws {A B} (x : res A) (k : A -> res B) e :
  res_bind x k = Throw e -> x = Throw e \/ exists a, x = Ok a /\ k a = Throw e.
Proof.
  destruct x as [a|e0]; cbn [res_bind]; intros H.
  - right. exists a. split; [reflexivity | exact H].
  - left. inversion H. reflexivity.
Qed.

(** *** Nearness *)

Lemma near_throws a b e : near a b = Throw e -> e = unconvertible.
Proof.
  unfold near. destruct (ToNumber a) eqn:Ea; cbn [res_bind].
  - destruct (ToNumber b) eqn:Eb; cbn [res_bind]; [discriminate|].
    intros H. inversion H; subst. eapply ToNumber_throws. exact Eb.
  - intros H. inversion H; subst. eapply ToNumber_throws. exact Ea.
Qed.

Lemma near_converts a b : converts a -> converts b -> exists hit, near a b = Ok hit.
Proof.
  intros [x Hx] [y Hy]. unfold near. rewrite Hx, Hy. eexists; reflexivity.
Qed.

Lemma near_returns a b hit : near a b = Ok hit -> converts a /\ converts b.
Proof.
  unfold near. destruct (ToNumber a) as [x|] eqn:Ea; cbn [res_bind]; [|discriminate].
  destruct (ToNumber b) as [y|] eqn:Eb; cbn [res_bind]; [|discriminate].
  intros _. split; eexists; eassumption.
Qed.

Lemma close_to_near a b : numeric a -> numeric b ->
  near (value_of a) (value_of b) = Ok (close_to a b).
Proof.
  intros Ha Hb. destruct (near_converts _ _ Ha Hb) as [hit H].
  unfold close_to. rewrite H. reflexivity.
Qed.

Lemma near_finite (p q : Q) :
  near (Num p) (Num q) = Ok (Qltb (Qabs (p - q)) 0.000001).
Proof. reflexivity. Qed.

Lemma Qltb_abs_refl (a : Q) : Qltb (Qabs (a - a)) 0.000001 = true.
Proof.
  unfold Qltb. apply negb_true_iff.
  destruct (Qle_bool 0.000001 (Qabs (a - a))) eqn:E; [|reflexivity].
  apply Qle_bool_iff in E.
  assert (H : Qabs (a - a) == 0).
  { assert (Hz : a - a == 0) by ring. rewrite Hz. reflexivity. }
  rewrite H in E. exfalso. revert E. apply Qlt_not_le. reflexivity.
Qed.

(** A rational is near itself; an infinity, [NaN] and what reads as
    [NaN] are not. *)
Lemma near_refl (a : Q) : near (Num a) (Num a) = Ok true.
Proof. rewrite near_finite, Qltb_abs_refl. reflexivity. Qed.

Lemma near_eq (a b : Q) : a == b -> near (Num a) (Num b) = Ok true.
Proof.
  intros H. rewrite near_finite. f_equal.
  pose proof (Qltb_abs_refl b) as Hn.
  assert (Hq : Qabs (a - b) == Qabs (b - b)) by (rewrite H; reflexivity).
  unfold Qltb in *. apply negb_true_iff. apply negb_true_iff in Hn.
  destruct (Qle_bool 0.000001 (Qabs (a - b))) eqn:E; [|reflexivity].
  apply Qle_bool_iff in E. rewrite Hq in E. apply Qle_bool_iff in E. congruence.
Qed.

Lemma bounded_numeric f : bounded f -> numeric f.
Proof. intros [q [H _]]. exists q. rewrite H. reflexivity. Qed.

Lemma bounded_self f : bounded f -> close_to f f = true.
Proof. intros [q [H _]]. unfold close_to. rewrite H, near_refl. reflexivity. Qed.

(** *** Indices *)

Lemma first_index_bound {A} (p : A -> bool) l i :
  first_index p l = Some i -> (i < List.length l)%nat.
Proof.
  revert i. induction l as [|x r IH]; simpl; intros i; [discriminate|].
  destruct (p x); [intros H; inversion H; lia|].
  destruct (first_index p r) as [j|]; [|discriminate].
  intros H; inversion H. specialize (IH j eq_refl). lia.
Qed.

Lemma first_index_none {A} (p : A -> bool) l :
  first_index p l = None <-> existsb p l = false.
Proof.
  induction l as [|x r IH]; simpl; [tauto|].
  destruct (p x); simpl; [split; discriminate|].
  destruct (first_index p r); [split; [discriminate | intros H; apply IH in H; discriminate]|].
  tauto.
Qed.

Lemma first_index_app {A} (p : A -> bool) pre l :
  first_index p (pre ++ l)
  = match first_index p pre with
    | Some i => Some i
    | None => match first_index p l with
              | Some j => Some (List.length pre + j)%nat
              | None => None
              end
    end.
Proof.
  induction pre as [|x r IH]; simpl.
  - destruct (first_index p l); reflexivity.
  - destruct (p x); [reflexivity|]. rewrite IH.
    destruct (first_index p r); [reflexivity|].
    destruct (first_index p l); reflexivity.
Qed.

Lemma findIndex_pure {A} (p : A -> res bool) (q : A -> bool) l :
  (forall x, In x l -> p x = Ok (q x)) -> findIndex p l = Ok (first_index q l).
Proof.
  induction l as [|x r IH]; intros H; [reflexivity|].
  cbn [findIndex first_index]. rewrite (H x (or_introl eq_refl)). cbn [res_bind].
  destruct (q x); [reflexivity|].
  rewrite IH; [reflexivity|]. intros y Hy. apply H. right. exact Hy.
Qed.

Lemma findIndex_throws {A} (p : A -> res bool) l e :
  (forall x e, p x = Throw e -> e = unconvertible) ->
  findIndex p l = Throw e -> e = unconvertible.
Proof.
  intros Hp. induction l as [|x r IH]; [discriminate|].
  cbn [findIndex]. destruct (p x) as [[|]|e0] eqn:E; cbn [res_bind].
  - discriminate.
  - destruct (findIndex p r); cbn [res_bind]; [discriminate|].
    intros H. inversion H; subst. apply IH. reflexivity.
  - intros H. inversion H; subst. eapply Hp. exact E.
Qed.

Lemma findIndex_head {A} (p : A -> res bool) x r i :
  findIndex p (x :: r) = Ok i -> exists hit, p x = Ok hit.
Proof.
  cbn [findIndex]. destruct (p x) as [hit|]; [|discriminate]. eauto.
Qed.

(** *** The removal of duplicates *)

(** The entry at the end of [pre] stays exactly when it is near itself
    and nothing in [pre] is near it. *)
Lemma kept_at_boundary pre x rest :
  same_index (first_index (fun f => close_to f x) (pre ++ x :: rest)) (List.length pre)
  = close_to x x && negb (existsb (fun f => close_to f x) pre).
Proof.
  rewrite first_index_app.
  destruct (first_index (fun f => close_to f x) pre) as [i|] eqn:E.
  - pose proof (first_index_bound _ _ _ E) as Hi.
    assert (Hex : existsb (fun f => close_to f x) pre = true).
    { destruct (existsb _ pre) eqn:Ex; [reflexivity|].
      apply first_index_none in Ex. congruence. }
    rewrite Hex, andb_false_r. simpl. apply Nat.eqb_neq. lia.
  - apply first_index_none in E. rewrite E. cbn [first_index negb].
    rewrite andb_true_r. destruct (close_to x x).
    + simpl. rewrite Nat.add_0_r. apply Nat.eqb_refl.
    + destruct (first_index _ rest); simpl; [|reflexivity].
      apply Nat.eqb_neq. lia.
Qed.

Lemma uniqueFormats_from pre l :
  Forall numeric (pre ++ l) ->
  filter_from
    (fun format index =>
       let? first := findIndex (fun f => near (value_of f) (value_of format)) (pre ++ l) in
       Ok (same_index first index))
    (List.length pre) l
  = Ok (sieve pre l).
Proof.
  revert pre. induction l as [|x rest IH]; intros pre Hn; [reflexivity|].
  cbn [filter_from sieve].
  assert (Hx : numeric x).
  { rewrite Forall_forall in Hn. apply Hn. apply in_or_app. right. left. reflexivity. }
  rewrite (findIndex_pure _ (fun f => close_to f x)).
  2:{ intros f Hf. apply close_to_near; [|exact Hx].
      rewrite Forall_forall in Hn. apply Hn, Hf. }
  cbn [res_bind]. rewrite kept_at_boundary.
  specialize (IH (pre ++ [x])%list).
  rewrite <- app_assoc in IH. cbn [app] in IH.
  rewrite length_app in IH. cbn [List.length] in IH.
  rewrite Nat.add_1_r in IH.
  rewrite (IH Hn). cbn [res_bind]. reflexivity.
Qed.

(** On values that convert, [uniqueFormats] returns what [sieve]
    keeps. *)
Lemma uniqueFormats_sieve l : Forall numeric l -> uniqueFormats l = Ok (sieve [] l).
Proof. intros H. unfold uniqueFormats. apply (uniqueFormats_from [] l H). Qed.

Lemma filter_from_throws {A} (p : A -> nat -> res bool) l :
  (forall x i e, p x i = Throw e -> e = unconvertible) ->
  forall i e, filter_from p i l = Throw e -> e = unconvertible.
Proof.
  intros Hp. induction l as [|x r IH]; intros i e; [discriminate|].
  cbn [filter_from]. destruct (p x i) as [keep|e0] eqn:E; cbn [res_bind].
  - destruct (filter_from p (S i) r) eqn:F; cbn [res_bind]; [discriminate|].
    intros H. inversion H; subst. eapply IH. exact F.
  - intros H. inversion H; subst. eapply Hp. exact E.
Qed.

Lemma filter_from_returns {A} (p : A -> nat -> res bool) l :
  forall i kept x, filter_from p i l = Ok kept -> In x l ->
                   exists j hit, p x j = Ok hit.
Proof.
  induction l as [|y r IH]; intros i kept x; [intros _ []|].
  cbn [filter_from]. destruct (p y i) as [keep|] eqn:E; cbn [res_bind]; [|discriminate].
  destruct (filter_from p (S i) r) as [k|] eqn:F; cbn [res_bind]; [|discriminate].
  intros _ [<-|Hin]; [eauto | eapply IH; eassumption].
Qed.

Lemma uniqueFormats_throws l e : uniqueFormats l = Throw e -> e = unconvertible.
Proof.
  unfold uniqueFormats. apply filter_from_throws.
  intros x i e0. destruct (findIndex _ l) eqn:F; cbn [res_bind]; [discriminate|].
  intros H. inversion H; subst. eapply findIndex_throws; [|exact F].
  intros f e1. apply near_throws.
Qed.

(** When [uniqueFormats] returns, every value of the list converts, and
    what it returns is what [sieve] keeps. *)
Lemma uniqueFormats_returns l c :
  uniqueFormats l = Ok c -> Forall numeric l /\ c = sieve [] l.
Proof.
  intros H.
  assert (Hn : Forall numeric l).
  { apply Forall_forall. intros x Hx.
    destruct (filter_from_returns _ _ _ _ x H Hx) as [j [hit Hp]].
    destruct (findIndex _ l) as [first|] eqn:F; cbn [res_bind] in Hp; [|discriminate].
    destruct l as [|y r]; [destruct Hx|].
    destruct (findIndex_head _ _ _ _ F) as [h Hh].
    apply near_returns in Hh. apply Hh. }
  split; [exact Hn|].
  rewrite (uniqueFormats_sieve l Hn) in H. inversion H. reflexivity.
Qed.



Lemma sieve_self seen l : Forall (fun f => close_to f f = true) (sieve seen l).
Proof.
  revert seen. induction l as [|y rest IH]; intros seen; simpl; [constructor|].
  destruct (close_to y y && _) eqn:E; [|apply IH].
  constructor; [|apply IH]. apply andb_prop in E. apply E.
Qed.

Lemma sieve_subsequence seen l : Subsequence (sieve seen l) l.
Proof.
  revert seen. induction l as [|y rest IH]; intros seen; simpl; [constructor|].
  destruct (_ && _); [apply Subsequence_keep | apply Subsequence_drop]; apply IH.
Qed.

Lemma Subsequence_length {A} (l l' : list A) :
  Subsequence l l' -> (List.length l <= List.length l')%nat.
Proof. induction 1; simpl; lia. Qed.

Lemma Subsequence_In {A} (l l' : list A) x : Subsequence l l' -> In x l -> In x l'.
Proof.
  induction 1; simpl; [tauto | |].
  - intros [->|H1]; [left; reflexivity | right; auto].
  - intros H1. right. auto.
Qed.



Lemma close_to_numeric a b : close_to a b = true -> numeric a /\ numeric b.
Proof.
  unfold close_to. destruct (near _ _) as [hit|] eqn:E; [|discriminate].
  intros _. eapply near_returns. exact E.
Qed.

(** What is kept converts, whatever the list. *)
Lemma sieve_numeric seen l : Forall numeric (sieve seen l).
Proof.
  pose proof (sieve_self seen l) as H. rewrite Forall_forall in *.
  intros x Hx. apply (close_to_numeric x x), H, Hx.
Qed.

(** *** The generation of the volumes *)

Lemma some_near_throws l x e : some_near l x = Throw e -> e = unconvertible.
Proof.
  induction l as [|v r IH]; [discriminate|].
  cbn [some_near]. destruct (near (value_of v) x) as [[|]|e0] eqn:E; cbn [res_bind].
  - discriminate.
  - exact IH.
  - intros H. inversion H; subst. eapply near_throws. exact E.
Qed.


Lemma in_range (n : number) :
  num_gt n 0 = true -> num_lt n 1000000 = true ->
  exists q : Q, n = Finite q /\ 0 < q /\ q < 1000000.
Proof.
  destruct n as [|negative|q]; cbn; try discriminate.
  - destruct negative; discriminate.
  - intros H1 H2. exists q. split; [reflexivity|]. split.
    + unfold Qltb in H1. apply negb_true_iff in H1.
      destruct (Qlt_le_dec 0 q) as [Hl|Hl]; [exact Hl|].
      apply Qle_bool_iff in Hl. congruence.
    + unfold Qltb in H2. apply negb_true_iff in H2.
      destruct (Qlt_le_dec q 1000000) as [Hl|Hl]; [exact Hl|].
      apply Qle_bool_iff in Hl. congruence.
Qed.

Lemma push_scaled_throws base acc sc e :
  push_scaled base acc sc = Throw e -> e = unconvertible.
Proof.
  unfold push_scaled. destruct (ToNumber base) eqn:B; cbn [res_bind].
  - cbv zeta. destruct (_ && _); [|discriminate].
    destruct (some_near acc _) as [[|]|e0] eqn:S; cbn [res_bind]; try discriminate.
    intros H. inversion H; subst. eapply some_near_throws. exact S.
  - intros H. inversion H; subst. eapply ToNumber_throws. exact B.
Qed.

(** One turn of the loop leaves the list as it is or adds one volume,
    which lies in (0, 1000000). *)
Lemma push_scaled_shape base acc sc r :
  push_scaled base acc sc = Ok r ->
  r = acc \/ exists f, r = (acc ++ [f])%list /\ bounded f.
Proof.
  unfold push_scaled. destruct (ToNumber base) as [b|]; cbn [res_bind]; [|discriminate].
  cbv zeta. destruct (num_gt _ 0 && num_lt _ 1000000) eqn:E.
  - apply andb_prop in E. destruct E as [E1 E2].
    destruct (in_range _ E1 E2) as [q [Hq Hb]].
    destruct (some_near acc _) as [[|]|]; cbn [res_bind]; try discriminate;
      intros H; inversion H; [left; reflexivity|].
    right. eexists. split; [reflexivity|]. exists q. cbn [value_of]. rewrite Hq.
    split; [reflexivity | exact Hb].
  - intros H; inversion H. left. reflexivity.
Qed.

Lemma forEach_throws {A B} (f : B -> A -> res B) items :
  (forall acc x e, f acc x = Throw e -> e = unconvertible) ->
  forall acc e, forEach f items acc = Throw e -> e = unconvertible.
Proof.
  intros Hf. induction items as [|x rest IH]; intros acc e; [discriminate|].
  cbn [forEach]. destruct (f acc x) eqn:E; cbn [res_bind].
  - apply IH.
  - intros H. inversion H; subst. eapply Hf. exact E.
Qed.

Lemma forEach_push_shape base scalings :
  forall acc r,
    forEach (push_scaled base) scalings acc = Ok r ->
    exists extra,
      r = (acc ++ extra)%list
      /\ Forall bounded extra
      /\ (List.length extra <= List.length scalings)%nat.
Proof.
  induction scalings as [|sc rest IH]; intros acc r; cbn [forEach].
  - intros H. inversion H. exists []. rewrite app_nil_r.
    split; [reflexivity|]. split; [constructor | simpl; lia].
  - destruct (push_scaled base acc sc) as [acc'|] eqn:E; cbn [res_bind]; [|discriminate].
    intros H. destruct (IH acc' r H) as [extra [H1 [H2 H3]]].
    destruct (push_scaled_shape _ _ _ _ E) as [->|[f [-> Hf]]].
    + exists extra. split; [exact H1|]. split; [exact H2 | simpl; lia].
    + exists (f :: extra). rewrite H1, <- app_assoc.
      split; [reflexivity|]. split; [constructor; assumption | simpl; lia].
Qed.


Lemma Qgtb_lt a b : Qgtb a b = true -> b < a.
Proof.
  unfold Qgtb, Qltb. intros H. apply negb_true_iff in H.
  destruct (Qlt_le_dec b a) as [Hlt|Hle]; [exact Hlt|].
  apply Qle_bool_iff in Hle. congruence.
Qed.

Lemma lt_Qgtb a : 0 < a -> Qgtb a 0 = true.
Proof.
  intros H. unfold Qgtb, Qltb. apply negb_true_iff.
  destruct (Qle_bool a 0) eqn:E; [|reflexivity].
  apply Qle_bool_iff in E. exfalso. revert E. apply Qlt_not_le. exact H.
Qed.

Lemma provided_cases vol :
  provided vol = []
  \/ exists v, vol = Some v /\ 0 < v /\ provided vol = [mkFormat (Num v) "Provided volume"].
Proof.
  unfold provided. destruct vol as [v|]; [|left; reflexivity].
  destruct (negb (Qeq_bool v 0) && Qgtb v 0) eqn:E; [|left; reflexivity].
  right. exists v. repeat split.
  apply andb_prop in E. destruct E as [_ E]. apply Qgtb_lt, E.
Qed.

Lemma provided_length vol : (List.length (provided vol) <= 1)%nat.
Proof. destruct (provided_cases vol) as [->|[v [_ [_ ->]]]]; simpl; lia. Qed.

Lemma provided_numeric vol : Forall numeric (provided vol).
Proof.
  destruct (provided_cases vol) as [->|[v [_ [_ ->]]]]; [constructor|].
  constructor; [|constructor]. exists v. reflexivity.
Qed.

Lemma raw_length p : (List.length (raw p) <= 1)%nat.
Proof. unfold raw. destruct (_ && _); simpl; lia. Qed.

Lemma lots_shape p l :
  lots p = Ok l -> (l = [] \/ l = [lots_entry p]) /\ converts (volume p).
Proof.
  unfold lots, gt0. destruct (ToNumber (volume p)) as [n|] eqn:E; cbn [res_bind];
    [|discriminate].
  intros H. split; [|eexists; exact E].
  destruct (num_gt n 0); inversion H; [right | left]; reflexivity.
Qed.

Lemma fallback_shape :
  let fallback := map (fun vol : Q =>
                         mkFormat (Num vol) ("Fallback volume " ++ Number_toString vol))
                    fallbackVolumes in
  List.length fallback = 8%nat /\ Forall bounded fallback.
Proof.
  cbv zeta. split; [reflexivity|].
  unfold fallbackVolumes. cbn [map].
  repeat (constructor; [eexists; cbn [value_of]; split; [reflexivity|]; split; reflexivity|]).
  constructor.
Qed.

Lemma volumeFormats_throws vol found e :
  volumeFormats vol found = Throw e -> e = unconvertible.
Proof.
  intros H. unfold volumeFormats in H.
  apply bind_throws in H. destruct H as [H|[a [_ H]]]; [|discriminate].
  destruct found as [p|]; [|discriminate].
  apply bind_throws in H. destruct H as [H|[l [_ H]]].
  { unfold lots in H. apply bind_throws in H. destruct H as [H|[a [_ H]]]; [|discriminate].
    eapply gt0_throws. exact H. }
  cbv zeta in H.
  apply bind_throws in H. destruct H as [H|[positive [_ H]]].
  { eapply gt0_throws. exact H. }
  apply bind_throws in H. destruct H as [H|[scaled [_ H]]].
  { destruct positive; [|discriminate].
    eapply forEach_throws; [|exact H]. intros a x e1. apply push_scaled_throws. }
  apply bind_throws in H. destruct H as [H|[rawPositive [_ H]]].
  { destruct (truthy (rawVolume p)); [|discriminate]. eapply gt0_throws. exact H. }
  destruct rawPositive; [|discriminate].
  eapply forEach_throws; [|exact H]. intros a x e1. apply push_scaled_throws.
Qed.

(** The volumes generated for a position, when the generation returns:
    the caller's, the native one, the raw one, the scaled ones. *)
Lemma volumeFormats_position vol p formats :
  volumeFormats vol (Some p) = Ok formats ->
  exists l e1 e2,
    lots p = Ok l
    /\ formats = (let generated := ((provided vol ++ l ++ raw p) ++ e1 ++ e2)%list in
                   match generated with
                   | [] => map (fun vol : Q =>
                                  mkFormat (Num vol)
                                    ("Fallback volume " ++ Number_toString vol))
                             fallbackVolumes
                   | _ => generated
                   end)
    /\ Forall bounded e1 /\ (List.length e1 <= 10)%nat
    /\ Forall bounded e2 /\ (List.length e2 <= 6)%nat
    /\ Forall numeric (raw p).
Proof.
  intros H. unfold volumeFormats in H.
  apply bind_returns in H. destruct H as [generated [H Hfinal]].
  apply bind_returns in H. destruct H as [l [Hl H]].
  cbv zeta in H.
  apply bind_returns in H. destruct H as [positive [_ H]].
  apply bind_returns in H. destruct H as [scaled [Hs H]].
  apply bind_returns in H. destruct H as [rawPositive [Hr H]].
  assert (H1 : exists e1, scaled = ((provided vol ++ l ++ raw p) ++ e1)%list
                          /\ Forall bounded e1 /\ (List.length e1 <= 10)%nat).
  { destruct positive.
    - destruct (forEach_push_shape _ _ _ _ Hs) as [e1 [H1 [H2 H3]]].
      exists e1. repeat split; assumption.
    - inversion Hs. exists []. rewrite app_nil_r.
      split; [reflexivity|]. split; [constructor | simpl; lia]. }
  destruct H1 as [e1 [-> [Hb1 Hl1]]].
  assert (H2 : exists e2, generated = (((provided vol ++ l ++ raw p) ++ e1) ++ e2)%list
                          /\ Forall bounded e2 /\ (List.length e2 <= 6)%nat).
  { destruct rawPositive.
    - destruct (forEach_push_shape _ _ _ _ H) as [e2 [H1 [H2 H3]]].
      exists e2. repeat split; assumption.
    - inversion H. exists []. rewrite app_nil_r.
      split; [reflexivity|]. split; [constructor | simpl; lia]. }
  destruct H2 as [e2 [-> [Hb2 Hl2]]].
  exists l, e1, e2. split; [exact Hl|]. split.
  { injection Hfinal as <-.
    rewrite (app_assoc (provided vol ++ l ++ raw p) e1 e2). reflexivity. }
  repeat (split; [assumption|]).
  unfold raw. destruct (truthy (rawVolume p) && _) eqn:E; [|constructor].
  apply andb_prop in E. destruct E as [E _]. rewrite E in Hr.
  constructor; [|constructor].
  destruct (gt0_ToString _ _ Hr) as [s Hs']. eapply ToString_ToNumber. exact Hs'.
Qed.

(** What [volumeFormats] returns: between one and nineteen entries, whose
    values convert. *)
Lemma volumeFormats_returns vol found formats :
  volumeFormats vol found = Ok formats ->
  (1 <= List.length formats <= 19)%nat /\ Forall numeric formats.
Proof.
  destruct fallback_shape as [Hf8 Hfb].
  assert (Hfinal : forall generated : list VolumeFormatEntry,
            (List.length generated <= 19)%nat -> Forall numeric generated ->
            forall formats,
              formats = match generated with
                        | [] => map (fun vol : Q =>
                                       mkFormat (Num vol)
                                         ("Fallback volume " ++ Number_toString vol))
                                  fallbackVolumes
                        | _ => generated
                        end ->
              (1 <= List.length formats <= 19)%nat /\ Forall numeric formats).
  { intros generated Hl Hn fs ->. destruct generated as [|g gs].
    - rewrite Hf8. split; [lia|].
      eapply Forall_impl; [|exact Hfb]. intros a. apply bounded_numeric.
    - split; [simpl in *; lia | exact Hn]. }
  destruct found as [p|].
  2:{ unfold volumeFormats. cbn [res_bind]. intros H. inversion H as [H1].
      eapply Hfinal; [| |reflexivity]; [pose proof (provided_length vol); lia|].
      apply provided_numeric. }
  intros H. destruct (volumeFormats_position _ _ _ H)
    as [l [e1 [e2 [Hl [Hf [Hb1 [Hl1 [Hb2 [Hl2 Hraw]]]]]]]]].
  destruct (lots_shape p l Hl) as [Hcases Hv].
  cbv zeta in Hf. apply (Hfinal _) in Hf; [exact Hf | |].
  - repeat rewrite length_app. pose proof (provided_length vol). pose proof (raw_length p).
    destruct Hcases as [->| ->]; simpl; lia.
  - apply Forall_app. split; [|apply Forall_app; split];
      [| eapply Forall_impl; [|exact Hb1]; intros a; apply bounded_numeric
       | eapply Forall_impl; [|exact Hb2]; intros a; apply bounded_numeric].
    apply Forall_app. split; [apply provided_numeric|].
    apply Forall_app. split; [|exact Hraw].
    destruct Hcases as [->| ->]; [constructor|]. constructor; [exact Hv | constructor].
Qed.

(** The candidates, when there are any to speak of: at most nineteen,
    taken from the volumes generated, in their order. *)
Lemma candidates_shape vol found formats candidates :
  volumeFormats vol found = Ok formats ->
  uniqueFormats formats = Ok candidates ->
  candidates = sieve [] formats
  /\ (List.length candidates <= 19)%nat
  /\ Forall numeric candidates.
Proof.
  intros Hf Hu. destruct (volumeFormats_returns _ _ _ Hf) as [[_ Hl] Hn].
  destruct (uniqueFormats_returns _ _ Hu) as [_ Hc].
  split; [exact Hc|]. split.
  - rewrite Hc. pose proof (sieve_subsequence [] formats) as Hs.
    apply Subsequence_length in Hs. lia.
  - rewrite Hc. apply sieve_numeric.
Qed.


Lemma candidates_return vol found formats :
  volumeFormats vol found = Ok formats ->
  exists candidates, uniqueFormats formats = Ok candidates.
Proof.
  intros H. destruct (volumeFormats_returns _ _ _ H) as [_ Hn].
  eexists. apply uniqueFormats_sieve, Hn.
Qed.

Lemma describe_throws l e : describe l = Throw e -> e = unconvertible.
Proof.
  induction l as [|f r IH]; [discriminate|].
  cbn [describe]. destruct (ToString (value_of f)) eqn:E; cbn [res_bind].
  - destruct (describe r); cbn [res_bind]; [discriminate|].
    intros H. inversion H; subst. apply IH. reflexivity.
  - intros H. inversion H; subst. eapply ToString_throws. exact E.
Qed.

Lemma describe_numeric l : Forall numeric l -> exists lines, describe l = Ok lines.
Proof.
  induction 1 as [|f r Hf Hr IH]; [eexists; reflexivity|].
  cbn [describe]. destruct Hf as [n Hn].
  destruct (ToNumber_ToString _ _ Hn) as [s ->]. cbn [res_bind].
  destruct IH as [lines ->]. eexists; reflexivity.
Qed.

(** Without a position the candidates are the caller's volume, or else
    the eight fallback volumes: rationals, of which the first stays. *)
Lemma candidates_without_position vol :
  exists formats candidates first,
    volumeFormats vol None = Ok formats
    /\ uniqueFormats formats = Ok candidates
    /\ hd_error formats = Some first
    /\ hd_error candidates = Some first
    /\ (List.length candidates <= 19)%nat.
Proof.
  assert (Hf : exists formats first rest (q : Q),
            volumeFormats vol None = Ok formats
            /\ formats = first :: rest /\ value_of first = Num q).
  { unfold volumeFormats. cbn [res_bind].
    destruct (provided_cases vol) as [->|[v [_ [Hv ->]]]].
    - do 4 eexists. split; [reflexivity|]. split; reflexivity.
    - do 4 eexists. split; [reflexivity|]. split; reflexivity. }
  destruct Hf as [formats [first [rest [q [Hf [-> Hq]]]]]].
  destruct (candidates_return _ _ _ Hf) as [candidates Hu].
  exists (first :: rest), candidates, first.
  split; [exact Hf|]. split; [exact Hu|]. split; [reflexivity|].
  destruct (candidates_shape _ _ _ _ Hf Hu) as [Hc [Hl _]].
  split; [|exact Hl].
  rewrite Hc. cbn [sieve existsb negb]. rewrite andb_true_r.
  unfold close_to. rewrite Hq, near_refl. reflexivity.
Qed.

End Candidates.
(** ** Closing a position, ending a session *)

Section Closing.
Import Enhanced.
Variable net : bridge.

(** What [getPositions] leaves behind when it returns: the request for the
    open orders in the log, and the tokens as they were. *)
Lemma getPositions_returns s ps s' :
  has_token s = true ->
  getPositions net s = (Ok ps, s') ->
  s' = log_request (positions_request s) s.
Proof.
  intros Ht. unfold getPositions, try_catch, bind, gets, api_get, rethrow_clearing.
  rewrite Ht. cbn [negb].
  destruct (settle _) as [response|e]; cbn.
  - destruct (is_ok_status response && truthy (data response)).
    + destruct (ordersData (data response)); cbn; intros H; inversion H; reflexivity.
    + cbn; intros H; inversion H; reflexivity.
  - unfold throw, clearToken, forget, bind, modify, ret.
    destruct (is_auth_error e); cbn; intros H; inversion H.
Qed.

(** C2.  With a session, when the query for the open positions returns a
    list in which the ticket does not occur, [closePosition] returns
    Success (retcode 10009, "Position not found - may already be closed")
    straight after that query: the only request it issues is the one for
    the open orders, and none to [/OrderClose]. *)
Theorem close_absent_ticket s t vol ps s' :
  has_token s = true ->
  getPositions net s = (Ok ps, s') ->
  (forall p, In p ps -> strict_eq_num (ticket p) t = false) ->
  closePosition net t vol s = (Ok (not_found t), s')
  /\ close_retcode (not_found t) = 10009
  /\ sent s' = (sent s ++ [positions_request s])%list
  /\ filter (is_path "/OrderClose") (sent s')
     = filter (is_path "/OrderClose") (sent s).
Proof.
  intros Ht Hp Habs.
  assert (Hlog : sent s' = (sent s ++ [positions_request s])%list)
    by (rewrite (getPositions_returns s ps s' Ht Hp); reflexivity).
  assert (Hf : find (fun pos => strict_eq_num (ticket pos) t) ps = None).
  { clear Hp Hlog. induction ps as [|p rest IH]; simpl; [reflexivity|].
    rewrite (Habs p (or_introl eq_refl)). apply IH.
    intros q Hq. apply Habs. right. exact Hq. }
  split.
  - unfold closePosition, try_catch, bind, gets, positionDetails.
    rewrite Ht. cbn [negb]. unfold try_catch, bind. rewrite Hp, Hf. reflexivity.
  - split; [reflexivity|]. split; [exact Hlog|].
    rewrite Hlog, filter_app. simpl. apply app_nil_r.
Qed.

(** The read operations do clear the session on a 401: here
    [getPositions], whose [catch] block tests the status of the error. *)
Lemma getPositions_unauthorized_clears s d :
  has_token s = true ->
  net (sent s) (positions_request s) = Reply 401 d ->
  exists e s',
    getPositions net s = (Throw e, s')
    /\ token s' = None
    /\ getStoredToken s' = (Ok None, s').
Proof.
  intros Ht Hw. unfold getPositions, try_catch, bind, gets, api_get.
  rewrite Ht. cbn [negb]. fold (positions_request s). rewrite Hw.
  eexists; eexists. split; [reflexivity|]. split; reflexivity.
Qed.

(** When the request to [/Disconnect] completes, or when there is no
    token to invalidate, [disconnect] does clear both tokens and creates a
    new transport client. *)
Lemma disconnect_clears s :
  (has_token s = false
   \/ exists resp, settle (net (sent s) (disconnect_request s)) = Ok resp) ->
  exists s',
    disconnect net s = (Ok true, s')
    /\ token s' = None /\ mt5_token s' = None
    /\ clients s' = S (clients s).
Proof.
  unfold disconnect, try_catch, bind, gets, api_get.
  intros [Ht|[resp Hw]].
  - rewrite Ht. eexists. split; [reflexivity|]. repeat split.
  - destruct (has_token s).
    + fold (disconnect_request s). rewrite Hw.
      eexists. split; [reflexivity|]. repeat split.
    + eexists. split; [reflexivity|]. repeat split.
Qed.

(** C7, on the code.  When a session is open and the request to
    [/Disconnect] fails, [disconnect] returns [false] and changes nothing
    but the log: the token stays in memory and in [localStorage], and no
    new transport client is created. *)
Theorem disconnect_failure_keeps_token s e :
  has_token s = true ->
  settle (net (sent s) (disconnect_request s)) = Throw e ->
  disconnect net s = (Ok false, log_request (disconnect_request s) s).
Proof.
  intros Ht Hw. unfold disconnect, try_catch, bind, gets, api_get.
  rewrite Ht. fold (disconnect_request s). rewrite Hw. reflexivity.
Qed.

Lemma attempt_failed_unconvertible t i f s :
  attempt_failed t i f unconvertible s = (Ok None, s).
Proof. reflexivity. Qed.

Lemma close_params_throws id t f e : close_params id t f = Throw e -> e = unconvertible.
Proof.
  unfold close_params. intros H. apply bind_throws in H.
  destruct H as [H|[a [_ H]]]; [eapply gt0_throws; exact H | discriminate].
Qed.

(** An attempt that the bridge answers with status 401 lets the loop go
    on; one whose volume cannot be printed throws before the request.  The
    tokens stay in both cases. *)
Lemma attempt_unauthorized t i f s :
  (forall history ps, exists d,
      net history (mkRequest "GET" "/OrderClose" ps) = Reply 401 d) ->
  exists r s',
    attempt net t i f s = (r, s')
    /\ (r = Ok None \/ r = Throw unconvertible)
    /\ token s' = token s /\ mt5_token s' = mt5_token s.
Proof.
  intros H401. unfold attempt, logged, bind, lift.
  destruct (ToString (value_of f)) as [printed|e] eqn:E.
  - cbn [ret]. unfold try_catch, bind, gets, lift.
    destruct (close_params (token_value s) t f) as [ps|e] eqn:P.
    + unfold api_get. destruct (H401 (sent s) ps) as [d ->].
      eexists; eexists. split; [reflexivity|]. split; [left; reflexivity|].
      split; reflexivity.
    + apply close_params_throws in P. subst e.
      eexists; eexists. split; [reflexivity|]. split; [left; reflexivity|].
      split; reflexivity.
  - apply ToString_throws in E. subst e.
    eexists; eexists. split; [reflexivity|]. split; [right; reflexivity|].
    split; reflexivity.
Qed.

Lemma tryFormats_unauthorized t fs :
  (forall history ps, exists d,
      net history (mkRequest "GET" "/OrderClose" ps) = Reply 401 d) ->
  forall i s, exists r s',
    tryFormats net t i fs s = (r, s')
    /\ (r = Ok None \/ r = Throw unconvertible)
    /\ token s' = token s /\ mt5_token s' = mt5_token s.
Proof.
  intros H401. induction fs as [|f rest IH]; intros i s; cbn [tryFormats].
  - exists (Ok None), s. split; [reflexivity|]. split; [left; reflexivity|].
    split; reflexivity.
  - destruct (attempt_unauthorized t i f s H401) as [r [s1 [Ha [Hr [H1 H2]]]]].
    unfold bind. rewrite Ha. destruct Hr as [-> | ->].
    + destruct (IH (S i) s1) as [r' [s' [Ht [Hr' [H3 H4]]]]].
      exists r', s'. split; [exact Ht|]. split; [exact Hr'|].
      split; congruence.
    + exists (Throw unconvertible), s1. split; [reflexivity|].
      split; [right; reflexivity|]. split; assumption.
Qed.

(** C4, on the code.  When the position is listed and the bridge answers
    every request to [/OrderClose] with status 401, [closePosition] goes
    through its candidates, returns retcode 10004 and leaves the session
    as it was: [getStoredToken] still returns the token. *)
Theorem close_unauthorized_keeps_session s t vol ps s1 p :
  has_token s = true ->
  getPositions net s = (Ok ps, s1) ->
  find (fun pos => strict_eq_num (ticket pos) t) ps = Some p ->
  (forall history ps, exists d,
      net history (mkRequest "GET" "/OrderClose" ps) = Reply 401 d) ->
  exists r s',
    closePosition net t vol s = (Ok r, s')
    /\ close_retcode r = 10004
    /\ token s' = token s
    /\ getStoredToken s' = (Ok (mt5_token s), s').
Proof.
  intros Ht Hp Hf H401.
  pose proof (getPositions_returns s ps s1 Ht Hp) as Hs1.
  assert (Hthrown : forall s', token s' = token s -> mt5_token s' = mt5_token s ->
            exists r s'',
              ((if is_auth_error unconvertible then clearToken else ret tt) ;;;
               ret (mkCloseResult 10004 None
                      (Str (str_or (message unconvertible) "Failed to close position"))
                      None None None)) s' = (Ok r, s'')
              /\ close_retcode r = 10004
              /\ token s'' = token s
              /\ getStoredToken s'' = (Ok (mt5_token s), s'')).
  { intros s' H1 H2. eexists; exists s'. split; [reflexivity|].
    split; [reflexivity|]. split; [exact H1|].
    unfold getStoredToken, gets. rewrite H2. reflexivity. }
  assert (Ht1 : token s1 = token s) by (rewrite Hs1; reflexivity).
  assert (Hm1 : mt5_token s1 = mt5_token s) by (rewrite Hs1; reflexivity).
  unfold closePosition, try_catch, bind, gets, positionDetails.
  rewrite Ht. cbn [negb]. unfold try_catch, bind. rewrite Hp, Hf. cbn [ret].
  unfold lift.
  destruct (volumeFormats vol (Some p)) as [generated|e] eqn:G.
  2:{ apply volumeFormats_throws in G. subst e. apply Hthrown; assumption. }
  destruct (uniqueFormats generated) as [formats|e] eqn:U.
  2:{ apply uniqueFormats_throws in U. subst e. apply Hthrown; assumption. }
  destruct (describe formats) as [lines|e] eqn:D.
  2:{ apply describe_throws in D. subst e. apply Hthrown; assumption. }
  destruct (tryFormats_unauthorized t formats H401 0%nat s1)
    as [r [s' [H1 [Hr [H2 H3]]]]].
  rewrite H1. destruct Hr as [-> | ->].
  - eexists; exists s'. split; [reflexivity|]. split; [reflexivity|].
    split; [congruence|]. unfold getStoredToken, gets.
    replace (mt5_token s') with (mt5_token s) by congruence. reflexivity.
  - apply Hthrown; congruence.
Qed.

End Closing.

Lemma close_absent_ticket_witness :
  Enhanced.has_token Scenario.session = true
  /\ fst (Enhanced.closePosition Scenario.friendly 999 None Scenario.session)
     = Ok (Enhanced.not_found 999)
  /\ filter (is_path "/OrderClose")
       (Enhanced.sent (snd (Enhanced.getPositions Scenario.friendly Scenario.session)))
     = [].
Proof.
  split; [reflexivity|].
  pose proof (close_absent_ticket Scenario.friendly Scenario.session 999 None
                [Enhanced.toPosition Scenario.open_order]
                (Enhanced.log_request (Enhanced.positions_request Scenario.session)
                   Scenario.session)
                eq_refl eq_refl) as H.
  assert (Habs : forall p, In p [Enhanced.toPosition Scenario.open_order] ->
                           strict_eq_num (Enhanced.ticket p) 999 = false).
  { intros p [<-|[]]. reflexivity. }
  destruct (H Habs) as [H1 [_ [_ H2]]].
  split; [rewrite H1; reflexivity | exact H2].
Defined.

Lemma disconnect_failure_witness :
  Enhanced.has_token Scenario.session = true
  /\ Enhanced.disconnect Scenario.unreachable Scenario.session
     = (Ok false,
        Enhanced.log_request (Enhanced.disconnect_request Scenario.session)
          Scenario.session)
  /\ Enhanced.token (snd (Enhanced.disconnect Scenario.unreachable Scenario.session))
     = Some "session-token-1"
  /\ Enhanced.mt5_token (snd (Enhanced.disconnect Scenario.unreachable Scenario.session))
     = Some "session-token-1"
  /\ Enhanced.clients (snd (Enhanced.disconnect Scenario.unreachable Scenario.session))
     = Enhanced.clients Scenario.session.
Proof.
  split; [reflexivity|].
  pose proof (disconnect_failure_keeps_token Scenario.unreachable Scenario.session
                (mkError "Network Error" (Some "ERR_NETWORK") None) eq_refl eq_refl) as H.
  split; [exact H|]. rewrite H. repeat split.
Defined.

Lemma close_unauthorized_witness :
  exists r s',
    Enhanced.closePosition Scenario.expired 12345 None Scenario.session = (Ok r, s')
    /\ Enhanced.close_retcode r = 10004
    /\ Enhanced.token s' = Enhanced.token Scenario.session
    /\ Enhanced.getStoredToken s' = (Ok (Some "session-token-1"), s').
Proof.
  eapply (close_unauthorized_keeps_session Scenario.expired Scenario.session 12345 None).
  - reflexivity.
  - vm_compute. reflexivity.
  - vm_compute. reflexivity.
  - intros history ps. exists (Str "Unauthorized"). reflexivity.
Defined.


(** ** The parameters of an order *)

Lemma lookup_In k (l : list (string * value)) v : lookup k l = Some v -> In (k, v) l.
Proof.
  induction l as [|[k' v'] r IH]; simpl; [discriminate|].
  destruct (String.eqb_spec k k') as [->|Hne].
  - intros H; inversion H; left; reflexivity.
  - intros H; right; apply IH, H.
Qed.

Section OrderParameters.
Import Enhanced.
Variable net : bridge.

Lemma optional_param_sound k x k' v :
  In (k', v) (optional_param k x) ->
  k' = k /\ exists q, x = Some q /\ 0 < q /\ v = Num q.
Proof.
  unfold optional_param. destruct x as [q|]; [|intros []].
  destruct (negb (Qeq_bool q 0) && Qgtb q 0) eqn:E; [|intros []].
  intros [H|[]]. inversion H; subst. split; [reflexivity|].
  exists q. apply andb_prop in E. destruct E as [_ E].
  repeat split. apply Qgtb_lt, E.
Qed.

Lemma order_params_optional id sym o :
  sent_only_when_positive (order_params id sym o) "price" (price o)
  /\ sent_only_when_positive (order_params id sym o) "stoploss" (sl o)
  /\ sent_only_when_positive (order_params id sym o) "takeprofit" (tp o).
Proof.
  unfold sent_only_when_positive, order_params.
  repeat split; intros v Hv; apply lookup_In in Hv;
    cbn [app] in Hv;
    repeat (destruct Hv as [Hv|Hv]; [inversion Hv|]);
    repeat (apply in_app_or in Hv; destruct Hv as [Hv|Hv]);
    try (apply optional_param_sound in Hv; destruct Hv as [Hk Hq];
         first [discriminate Hk | exact Hq]);
    destruct (request_comment o) as [c|]; try destruct (String.eqb c "");
    try destruct Hv as [Hv|[]]; try inversion Hv; try destruct Hv.
Qed.

Lemma sendOrder_parameters o s :
  logs_only (order_send_ok o) s (snd (sendOrder net o s)).
Proof.
  apply (maintains_sendOrder net (logs_only (order_send_ok o)) (order_send_ok o)).
  - intros s0. exists []. split; [symmetry; apply app_nil_r | constructor].
  - intros a b c [l1 [H1 F1]] [l2 [H2 F2]]. exists (l1 ++ l2)%list. split.
    + rewrite H2, H1, app_assoc. reflexivity.
    + apply Forall_app. split; assumption.
  - intros s0 r Hr. exists [r]. split; [reflexivity | constructor; [exact Hr | constructor]].
  - intros s0. exists []. split; [symmetry; apply app_nil_r | constructor].
  - intros p ps H1 H2 Hp. simpl in Hp. subst p. discriminate.
  - intros id sym _. apply order_params_optional.
Qed.

End OrderParameters.

Section Trade.
Import Classic.
Variable net : bridge.

Lemma when_given_sound k x k' v :
  In (k', v) (when_given k x) ->
  k' = k /\ exists q, x = Some q /\ ~ q == 0 /\ v = Num q.
Proof.
  unfold when_given. destruct x as [q|]; [|intros []].
  destruct (Qeq_bool q 0) eqn:E; [intros []|].
  intros [H|[]]. inversion H; subst. split; [reflexivity|].
  exists q. repeat split. intros Hq. apply Qeq_bool_iff in Hq. congruence.
Qed.

Lemma trade_params_fields id symbol type volume price stopLoss takeProfit comment :
  let ps := trade_params id symbol type volume price stopLoss takeProfit comment in
  lookup "price" ps = Some (Num (price_or_zero price))
  /\ sent_only_when_nonzero ps "sl" stopLoss
  /\ sent_only_when_nonzero ps "tp" takeProfit.
Proof.
  unfold sent_only_when_nonzero, trade_params. cbv zeta.
  split; [reflexivity|].
  split; intros v Hv; apply lookup_In in Hv;
    cbn [app] in Hv;
    repeat (destruct Hv as [Hv|Hv]; [inversion Hv|]);
    repeat (apply in_app_or in Hv; destruct Hv as [Hv|Hv]);
    try (apply when_given_sound in Hv; destruct Hv as [Hk Hq];
         first [discriminate Hk | exact Hq]);
    destruct comment as [c|]; try destruct (String.eqb c "");
    try destruct Hv as [Hv|[]]; try inversion Hv; try destruct Hv.
Qed.

Lemma executeTrade_request symbol type volume price stopLoss takeProfit comment s :
  has_token s = true ->
  exists id,
    sent (snd (executeTrade net symbol type volume price stopLoss takeProfit comment s))
    = (sent s ++ [mkRequest "GET" "/OrderSend"
                    (trade_params id symbol type volume price stopLoss takeProfit comment)])%list.
Proof.
  intros Ht. exists (match token s with Some t => t | None => "" end).
  unfold executeTrade, bind, gets, try_catch, axios_get. rewrite Ht. cbn [negb].
  assert (Hcatch : forall (e : error) (s' : state),
            sent (snd ((if match http_response e with
                            | Some (st, _) => (st =? 401)%Z
                            | None => false
                            end
                        then ret (mkTradeResult false None
                                    "Authentication failed. MT5 session may have expired. Please reconnect.")
                        else ret (mkTradeResult false None (JS.message e))) s'))
            = sent s').
  { intros e s'. destruct (match http_response e with
                           | Some (st, _) => (st =? 401)%Z
                           | None => false
                           end); reflexivity. }
  destruct (settle _) as [resp|e]; cbn [fst snd].
  - unfold lift.
    destruct (if truthy (data resp) then gt0 (data resp) else Ok false) as [[|]|e];
      [reflexivity | | rewrite Hcatch; reflexivity].
    destruct (ToString (data resp)) as [printed|e];
      [reflexivity | rewrite Hcatch; reflexivity].
  - rewrite Hcatch. reflexivity.
Qed.
End Trade.

(** C6, as amended.  [sendOrder] of the enhanced service puts [price],
    [stoploss] and [takeprofit] among the parameters of [/OrderSend] only
    when the field of the order is present and positive, with its value;
    an absent field, and a zero, leave no parameter.  [executeTrade] of
    the class-based service does so for [sl] and [tp] (present and not
    0), and always sends [price]: the price when it is given and not 0,
    the number 0 otherwise. *)
Theorem optional_order_fields (net : bridge)
    (o : Enhanced.OrderRequest) (s : Enhanced.state)
    (symbol : string) (type : Classic.orderType) (volume : Q)
    (price stopLoss takeProfit : option Q) (comment : option string)
    (cs : Classic.state) :
  Enhanced.logs_only (Enhanced.order_send_ok o) s (snd (Enhanced.sendOrder net o s))
  /\ (Classic.has_token cs = true ->
      exists r,
        Classic.sent (snd (Classic.executeTrade net symbol type volume
                             price stopLoss takeProfit comment cs))
        = (Classic.sent cs ++ [r])%list
        /\ path r = "/OrderSend"
        /\ lookup "price" (params r) = Some (Num (Classic.price_or_zero price))
        /\ Classic.sent_only_when_nonzero (params r) "sl" stopLoss
        /\ Classic.sent_only_when_nonzero (params r) "tp" takeProfit).
Proof.
  split; [apply sendOrder_parameters|].
  intros Ht.
  destruct (executeTrade_request net symbol type volume price stopLoss takeProfit
              comment cs Ht) as [id Hid].
  eexists. split; [exact Hid|]. split; [reflexivity|].
  apply trade_params_fields.
Qed.

Lemma optional_order_fields_witness :
  Classic.has_token (Classic.mkState (Some "tok") []) = true
  /\ exists r,
       Classic.sent (snd (Classic.executeTrade Scenario.friendly "EURUSD" Classic.SELL
                            0.01 (Some 1.1) (Some 0) None None
                            (Classic.mkState (Some "tok") [])))
       = [r]
       /\ lookup "price" (params r) = Some (Num 1.1)
       /\ lookup "sl" (params r) = None.
Proof.
  split; [reflexivity|].
  destruct (proj2 (optional_order_fields Scenario.friendly
                     (Enhanced.mkOrderRequest "EURUSD" Enhanced.SELL 0.01
                        (Some 1.1) (Some 0) None None)
                     Scenario.session
                     "EURUSD" Classic.SELL 0.01 (Some 1.1) (Some 0) None None
                     (Classic.mkState (Some "tok") [])) eq_refl)
    as [r [Hr _]].
  exists r. split; [exact Hr|].
  vm_compute in Hr. inversion Hr. split; reflexivity.
Defined.

(** C6, as stated, fails on [executeTrade]: a trade without a price goes
    out with the parameter [price] set to 0. *)
Lemma optional_order_fields_counterexample :
  exists r,
    Classic.sent (snd (Classic.executeTrade Scenario.friendly "EURUSD" Classic.BUY
                         0.01 None None None None (Classic.mkState (Some "tok") [])))
    = [r]
    /\ path r = "/OrderSend"
    /\ lookup "price" (params r) = Some (Num 0).
Proof. eexists. repeat split. Qed.

(** ** The simple duplicate of [closePosition] *)

Section SimpleClose.
Import Simple.
Variable net : bridge.
Variable how : transport.




End SimpleClose.


(** ** The probe of the position closer *)

Section Probe.
Import Enhanced.
Variable net : bridge.







Lemma numeric_printed f : numeric f -> exists text, ToString (value_of f) = Ok text.
Proof. intros [n Hn]. eapply ToNumber_ToString. exact Hn. Qed.

Lemma logged_numeric f s : numeric f -> logged (value_of f) s = (Ok tt, s).
Proof.
  intros Hf. destruct (numeric_printed f Hf) as [text Ht].
  unfold logged, bind, lift. rewrite Ht. reflexivity.
Qed.

(** The parameters of the attempt for a candidate whose value converts
    are those of [close_request]. *)
Lemma close_params_request s t f :
  numeric f -> close_params (token_value s) t f = Ok (params (close_request s t f)).
Proof.
  intros [n Hn]. unfold close_params, close_request, lots_param, gt0.
  rewrite Hn. cbn [res_bind params]. destruct (num_gt n 0); reflexivity.
Qed.

(** The body of an attempt up to the reply. *)
Lemma attempt_sends t i f s :
  numeric f ->
  attempt net t i f s
  = try_catch
      (response <- (fun s0 => (settle (net (sent s) (close_request s t f)),
                               log_request (close_request s t f) s)) ;;
       if is_ok_status response then
         result <- lift (parseOrderResponse (data response) "OrderClose") ;;
         closed <- lift (comment_matches (comment result) closed_in_comment) ;;
         if closed then ret (Some (already_closed t f i))
         else
         invalid <- lift (comment_matches (comment result) invalid_volume_in_comment) ;;
         if invalid then logged (value_of f) ;;; ret None
         else if num_eq (retcode result) 10009 then
           logged (value_of f) ;;;
           ret (Some (mkCloseResult 10009
                        (Some (or_else (match order result with
                                        | Some o => o
                                        | None => Undefined
                                        end) (Num t)))
                        (or_else (comment result) (Str "Position closed successfully"))
                        (Some (value_of f)) (Some (S i))
                        (Some (description f))))
         else logged (comment result) ;;; ret None
       else ret None)
      (attempt_failed t i f) s.
Proof.
  intros Hf. unfold attempt. unfold bind at 1. rewrite (logged_numeric f s Hf).
  unfold try_catch, bind, gets, lift, api_get.
  rewrite (close_params_request s t f Hf).
  destruct (close_request s t f) as [v pth ps] eqn:E.
  assert (Hv : v = "GET") by (unfold close_request in E; inversion E; reflexivity).
  assert (Hp : pth = "/OrderClose") by (unfold close_request in E; inversion E; reflexivity).
  subst v pth. reflexivity.
Qed.






(** The state an attempt leaves: the request for its candidate is logged;
    the token is touched only when the attempt throws. *)
Lemma attempt_failed_state t i f e s :
  sent (snd (attempt_failed t i f e s)) = sent s
  /\ ((exists o, attempt_failed t i f e s = (Ok o, s))
      \/ exists e', fst (attempt_failed t i f e s) = Throw e').
Proof.
  unfold attempt_failed.
  destruct (negb (String.eqb (message e) "") && existsb (includes (message e)) closed_in_error);
    [split; [reflexivity | left; eexists; reflexivity]|].
  destruct (negb (String.eqb (message e) "") && auth_phrase (message e)).
  - split; [reflexivity | right; eexists; reflexivity].
  - split; [reflexivity | left; eexists; reflexivity].
Qed.

Lemma attempt_state t i f s :
  numeric f ->
  sent (snd (attempt net t i f s)) = (sent s ++ [close_request s t f])%list
  /\ ((exists o, attempt net t i f s = (Ok o, log_request (close_request s t f) s))
      \/ exists e, fst (attempt net t i f s) = Throw e).
Proof.
  intros Hf. rewrite (attempt_sends t i f s Hf). unfold try_catch.
  match goal with
  | |- context [match ?body s with _ => _ end] =>
      assert (Hb : snd (body s) = log_request (close_request s t f) s)
  end.
  { unfold bind, lift.
    destruct (settle (net (sent s) (close_request s t f))) as [resp|e]; cbn [fst snd];
      [|reflexivity].
    destruct (is_ok_status resp); [|reflexivity].
    destruct (parseOrderResponse (data resp) "OrderClose") as [result|e]; [|reflexivity].
    destruct (comment_matches (comment result) closed_in_comment) as [[|]|e];
      try reflexivity.
    destruct (comment_matches (comment result) invalid_volume_in_comment) as [[|]|e];
      try reflexivity.
    - rewrite logged_numeric by exact Hf. reflexivity.
    - destruct (num_eq (retcode result) 10009).
      + rewrite logged_numeric by exact Hf. reflexivity.
      + unfold logged, bind, lift. destruct (ToString (comment result)); reflexivity. }
  match goal with
  | |- context [match ?body s with _ => _ end] => destruct (body s) as [[o|e] s0]
  end; cbn [snd] in Hb; subst s0.
  - split; [reflexivity | left; eexists; reflexivity].
  - destruct (attempt_failed_state t i f e (log_request (close_request s t f) s))
      as [Hs [[o Ho]|[e' He']]].
    + rewrite Ho. split; [reflexivity | left; eexists; reflexivity].
    + split; [rewrite Hs; reflexivity | right; eexists; exact He'].
Qed.







End Probe.


(* ================================================================== *)
(** * Further properties of the adapter                                 *)
(* ================================================================== *)

(** ** The further models at work *)

Section MoreExamples.

(** The store leaves metals, indices and symbols with an extension alone,
    and adds [.raw] for a prop account only. *)
Example store_symbols :
  map (fun '(symbol, accountType) => Store.getMT5Symbol symbol accountType)
    [ ("EURUSD", Some Store.prop); ("EURUSD", Some Store.demo); ("EURUSD", None);
      ("XAUUSD", Some Store.prop); ("EURUSD.m", Some Store.prop);
      ("EURUSD.RAW", Some Store.prop); ("USOIL", Some Store.prop) ]
  = [ "EURUSD.raw"; "EURUSD"; "EURUSD"; "XAUUSD"; "EURUSD.m"; "EURUSD.RAW"; "USOIL" ].
Proof. reflexivity. Qed.

(** The class-based service connects with a key of ten characters, and
    takes a body of [true] for a close, a ticket number for a failure. *)
Example class_session :
  let s0 := ClassService.constructor None (Some "0123456789") None in
  let '(r, s1) := ClassService.connect Scenario.welcoming
                    (ClassService.mkCredentials "123456" "secret" "Broker-Live") s0 in
  let '(c1, s2) := ClassService.closePosition Scenario.welcoming 7 s1 in
  let '(c2, _) := ClassService.closePosition Scenario.friendly 8 s2 in
  (match r with Ok x => Some (ClassService.success x) | Throw _ => None end,
   ClassService.token s1,
   match c1 with Ok x => Some (ClassService.close_success x) | Throw _ => None end,
   match c2 with Ok x => Some (ClassService.close_success x) | Throw _ => None end)
  = (Some true, Some "abcdef-0123456789", Some true, Some false).
Proof. vm_compute. reflexivity. Qed.

(** The object-literal service reports a connection on a body that holds
    no token, and is not connected for it. *)
Example simple_session :
  let s0 := SimpleSession.mkState Null [] in
  let '(r, s1) := SimpleSession.connect Scenario.friendly "key" (fun _ => "")
                    (SimpleSession.mkCredentials "123456" "secret" "Broker-Live") s0 in
  (match r with Ok x => Some (SimpleSession.success x) | Throw _ => None end,
   SimpleSession.mt5Token s1, SimpleSession.not_connected s1)
  = (Some true, Undefined, true).
Proof. vm_compute. reflexivity. Qed.

(** An order of the object-literal service with a negative stop loss,
    posted and sent as a query. *)
Example simple_order_on_the_wire :
  let order := Simple.mkOrderRequest "EURUSD" Simple.SELL 0.5 None (Some (-1)) (Some 0) in
  (params (Simple.order_request Simple.Post "tok" order),
   params (Simple.order_request Simple.Get "tok" order))
  = ([ ("id", Str "tok"); ("symbol", Str "EURUSD"); ("operation", Str "Sell");
       ("volume", Num 0.5); ("slippage", Num 10); ("stoploss", Num (-1)) ],
     [ ("id", Str "tok"); ("symbol", Str "EURUSD"); ("operation", Str "Sell");
       ("volume", Str "0.5"); ("slippage", Str "10"); ("stoploss", Str "-1") ]).
Proof. vm_compute. reflexivity. Qed.

(** Positions whose volumes are no finite numbers: a volume that reads
    as no number leaves the closer without a candidate, and a volume that
    cannot be converted ends the call in the outer [catch]. *)
Example close_of_odd_positions :
  map (fun ticket =>
         match fst (Enhanced.closePosition Scenario.vague ticket None Scenario.session) with
         | Ok r => Some (Enhanced.close_retcode r, Enhanced.close_comment r)
         | Throw _ => None
         end)
    [5; 8; 9]
  = [ Some (10004, Str "Failed to close position 5 - tried 0 different volume formats");
      Some (10004, Str "Failed to close position 8 - tried 0 different volume formats");
      Some (10004, Str "Cannot convert object to primitive value") ].
Proof. vm_compute. reflexivity. Qed.

(** The removal of duplicates drops what is not within the tolerance of
    itself, at the head of the list as elsewhere. *)
Example duplicates_of_odd_volumes :
  Enhanced.uniqueFormats
    [ Enhanced.mkFormat (Str "n/a") "Position raw volume";
      Enhanced.mkFormat (Num 1) "Position lots volume";
      Enhanced.mkFormat (Num (Infinity false)) "Volume × 1000";
      Enhanced.mkFormat (Str "1") "Volume × 10" ]
  = Ok [Enhanced.mkFormat (Num 1) "Position lots volume"].
Proof. vm_compute. reflexivity. Qed.

(** [connect] of the class-based service rejects when the request is
    refused with a body that cannot be printed. *)
Example class_connect_rejects :
  fst (ClassService.connect (fun _ _ => Reply 400 Scenario.opaque)
         (ClassService.mkCredentials "123456" "secret" "Broker-Live")
         (ClassService.constructor None (Some "0123456789") None))
  = Throw unconvertible.
Proof. vm_compute. reflexivity. Qed.

End MoreExamples.

(** ** Opening a session *)

Section Session.
Import Enhanced.
Variable net : bridge.

Lemma Z_toString_nonempty z : Z_toString z <> "".
Proof.
  unfold Z_toString, NilZero.string_of_int.
  destruct (Z.to_int z) as [d|d]; [|discriminate].
  destruct d; discriminate.
Qed.

Lemma append_empty (a b : string) : a ++ b = "" -> a = "" /\ b = "".
Proof. destruct a; simpl; [intros H; split; [reflexivity | exact H] | discriminate]. Qed.

Lemma positional_nonempty a : positional a <> "".
Proof.
  unfold positional. cbv zeta. intros H.
  apply append_empty in H. destruct H as [H _].
  exact (Z_toString_nonempty _ H).
Qed.

Lemma Q_toString_nonempty q : Q_toString q <> "".
Proof.
  unfold Q_toString. cbv zeta.
  destruct (Qeq_bool (Qabs q) 0); [discriminate|].
  destruct (Qle_bool 1000000000000000000000 (Qabs q)).
  { intros H. apply append_empty in H. destruct H as [_ H].
    apply append_empty in H. destruct H as [_ H]. discriminate H. }
  destruct (Qltb (Qabs q) 0.000001).
  { intros H. apply append_empty in H. destruct H as [_ H].
    apply append_empty in H. destruct H as [_ H]. discriminate H. }
  intros H. apply append_empty in H. destruct H as [_ H].
  exact (positional_nonempty _ H).
Qed.

Lemma Number_toString_nonempty n : Number_toString n <> "".
Proof.
  destruct n as [|negative|q]; [discriminate | destruct negative; discriminate |].
  apply Q_toString_nonempty.
Qed.

Lemma remember_connected t message s :
  t <> "" ->
  exists r s',
    (remember t ;;; r <- connected message ;; ret (Some r)) s = (Ok (Some r), s')
    /\ sent s' = sent s /\ success r = true /\ installed t r s'.
Proof.
  intros Ht. unfold remember, connected, current_token, bind, modify, gets, ret, has_token.
  destruct (String.eqb_spec t ""); [contradiction|]. cbn.
  destruct (String.eqb_spec t ""); [contradiction|]. cbn.
  eexists; eexists; split; [reflexivity|]. repeat split; assumption.
Qed.

Lemma step_remember t message :
  t <> "" -> connect_step (remember t ;;; r <- connected message ;; ret (Some r)).
Proof.
  intros Ht s. destruct (remember_connected t message s Ht) as [r [s' [H [H1 [H2 H3]]]]].
  rewrite H. split; [exact H1|]. left. split; [exact H2|]. exists t. exact H3.
Qed.

Lemma step_ret_none : connect_step (ret None).
Proof. intros s. reflexivity. Qed.

Lemma step_failure msg : connect_step (ret (Some (mkConnectionResponse false None msg))).
Proof. intros s. cbn. split; [reflexivity|]. right. repeat split. Qed.

Lemma step_lift {A} (x : res A) k :
  (forall a, connect_step (k a)) -> connect_step (a <- lift x ;; k a).
Proof.
  intros Hk s. unfold bind, lift. destruct x as [a|e]; [apply Hk | reflexivity].
Qed.

Lemma step_token_from_fields rd msg fields : connect_step (token_from_fields rd msg fields).
Proof.
  induction fields as [|f rest IH]; [apply step_ret_none|].
  cbn [token_from_fields]. apply step_lift; intros present. apply step_lift; intros v.
  destruct v; try exact IH.
  destruct (present && (10 <? String.length s)%nat) eqn:E; [|exact IH].
  apply step_remember. apply long_nonempty. apply andb_prop in E. apply E.
Qed.

Lemma step_connect_object rd : connect_step (connect_object rd).
Proof.
  unfold connect_object.
  apply step_lift; intros has_tok. apply step_lift; intros tok. apply step_lift; intros msg.
  destruct (if has_tok then valid_token tok else None) as [t|] eqn:E.
  - apply step_remember. destruct has_tok; [|discriminate].
    eapply valid_token_nonempty; exact E.
  - apply step_lift; intros he. apply step_lift; intros hc. apply step_lift; intros hm.
    destruct (he || hc || (hm && String.eqb (typeof msg) "string")).
    + apply step_lift; intros err. apply step_lift; intros cd.
      apply step_lift; intros friendly. apply step_failure.
    + apply step_lift; intros hs. apply step_lift; intros flag.
      destruct (hs && strict_eq_bool flag true);
        [apply step_token_from_fields | apply step_ret_none].
Qed.

Lemma step_connect_string text : connect_step (connect_string text).
Proof.
  unfold connect_string. cbv zeta.
  destruct (_ || _ || _ || _); [apply step_failure|].
  destruct (_ && _ && _) eqn:E; [|apply step_ret_none].
  apply step_remember. apply long_nonempty.
  apply andb_prop in E. destruct E as [E _]. apply andb_prop in E. apply E.
Qed.

Lemma connect_result_untouched s0 s1 r s2 :
  untouched s0 s1 -> connect_result s1 r s2 -> connect_result s0 r s2.
Proof.
  intros [U1 U2] [[H1 H2]|[H1 [H2 [H3 H4]]]].
  - left. split; assumption.
  - right. split; [exact H1|]. split; [exact H2|].
    split; [rewrite H3; exact U1 | rewrite H4; exact U2].
Qed.

Lemma connect_cases (c : ConnectionCredentials) (s : state) :
  exists r s',
    connect net c s = (Ok r, s')
    /\ sent s' = (sent s ++ [connect_request c])%list
    /\ connect_result s r s'.
Proof.
  assert (Hfail : forall (s1 : state) msg,
            sent s1 = (sent s ++ [connect_request c])%list ->
            untouched s s1 ->
            exists r s', (Ok (mkConnectionResponse false None msg), s1) = (Ok r, s')
              /\ sent s' = (sent s ++ [connect_request c])%list
              /\ connect_result s r s').
  { intros s1 msg H1 H2. eexists; eexists; split; [reflexivity|].
    split; [exact H1|]. right. split; [reflexivity|]. split; [reflexivity | exact H2]. }
  unfold connect, try_catch. unfold bind at 1. unfold api_get.
  fold (connect_request c).
  remember (log_request (connect_request c) s) as s1 eqn:Es1.
  assert (Hs1 : sent s1 = (sent s ++ [connect_request c])%list) by (subst s1; reflexivity).
  assert (Hu1 : untouched s s1) by (subst s1; split; reflexivity).
  clear Es1.
  destruct (settle (net (sent s) (connect_request c))) as [response|e].
  2:{ apply Hfail; assumption. }
  destruct (is_ok_status response).
  2:{ apply Hfail; assumption. }
  cbv zeta. unfold bind at 1.
  match goal with
  | |- context [match ?m s1 with _ => _ end] => assert (Hfirst : connect_step m)
  end.
  { destruct (_ && _); [apply step_connect_object | apply step_ret_none]. }
  specialize (Hfirst s1).
  match goal with
  | |- context [match ?m s1 with _ => _ end] => destruct (m s1) as [[[r|]|e] s2]
  end.
  - destruct Hfirst as [Hsent Hr]. exists r, s2. split; [reflexivity|].
    split; [rewrite Hsent; exact Hs1|].
    apply (connect_result_untouched s s1 r s2 Hu1 Hr).
  - subst s2. unfold bind at 1.
    match goal with
    | |- context [match ?m s1 with _ => _ end] => assert (Hsecond : connect_step m)
    end.
    { destruct (data response); try apply step_ret_none. apply step_connect_string. }
    specialize (Hsecond s1).
    match goal with
    | |- context [match ?m s1 with _ => _ end] => destruct (m s1) as [[[r|]|e] s2]
    end.
    + destruct Hsecond as [Hsent Hr]. exists r, s2. split; [reflexivity|].
      split; [rewrite Hsent; exact Hs1|].
      apply (connect_result_untouched s s1 r s2 Hu1 Hr).
    + subst s2. destruct (data response); try (apply Hfail; assumption).
      destruct (num_gt n 0); [|apply Hfail; assumption].
      pose proof (Number_toString_nonempty n) as Hne.
      unfold store, connected, current_token, bind, modify, gets, ret, has_token.
      cbn [token set_token set_mt5_token mt5_token].
      destruct (String.eqb_spec (Number_toString n) ""); [contradiction|]. cbn [negb].
      eexists; eexists; split; [reflexivity|]. split; [exact Hs1|].
      left. split; [reflexivity|]. exists (Number_toString n). repeat split. exact Hne.
    + subst s2. apply Hfail; assumption.
  - subst s2. apply Hfail; assumption.
Qed.

(** X1.  [connect] never throws and puts exactly one request on the
    wire, the one to [/ConnectEx].  When it reports success, the response
    names a token that is not empty, and this token is the one the
    service holds in memory and in [localStorage]; when it reports
    failure, the response names no token and both tokens are as they were
    before the call. *)
Theorem connect_outcome (c : ConnectionCredentials) (s : state) :
  exists r s',
    connect net c s = (Ok r, s')
    /\ sent s' = (sent s ++ [connect_request c])%list
    /\ (success r = true -> exists t, installed t r s')
    /\ (success r = false -> response_token r = None /\ untouched s s').
Proof.
  destruct (connect_cases c s) as [r [s' [Hc [Hlog Hr]]]].
  exists r, s'. split; [exact Hc|]. split; [exact Hlog|].
  destruct Hr as [[Hs Ht]|[Hs Hu]]; split; intros H.
  - exact Ht.
  - rewrite Hs in H. discriminate H.
  - rewrite Hs in H. discriminate H.
  - exact Hu.
Qed.

(** X2.  A session opened by [connect] survives a reload of the page:
    the service constructed anew from [localStorage] holds the token that
    the response named. *)
Theorem session_survives_reload (c : ConnectionCredentials) (s s' : state)
    (r : ConnectionResponse) (env_url env_key : option string) :
  connect net c s = (Ok r, s') ->
  success r = true ->
  let reloaded := constructor env_url env_key (mt5_token s') in
  token reloaded = response_token r
  /\ has_token reloaded = true
  /\ agree reloaded.
Proof.
  intros Hc Hs. destruct (connect_cases c s) as [r0 [s0 [H0 [_ Hres]]]].
  rewrite Hc in H0. inversion H0; subst r0 s0.
  destruct Hres as [[_ [t [Hne [Hr [Ht Hm]]]]]|[Hf _]];
    [|rewrite Hs in Hf; discriminate Hf].
  cbv zeta. unfold constructor, has_token, agree. cbn [token mt5_token].
  rewrite Hm, Hr. destruct (String.eqb_spec t "") as [E|E]; [contradiction|].
  split; [reflexivity|]. split; [|reflexivity].
  destruct (String.eqb_spec t ""); [contradiction | reflexivity].
Qed.

End Session.

(** ** What a call may do to the session and to the wire *)

Section Calls.
Import Enhanced.
Variable net : bridge.
Variable now : string.

Lemma kept_or_ended_refl s : kept_or_ended s s.
Proof. left. split; reflexivity. Qed.

Lemma kept_or_ended_trans a b c :
  kept_or_ended a b -> kept_or_ended b c -> kept_or_ended a c.
Proof.
  intros [[H1 H2]|[H1 H2]] [[H3 H4]|[H3 H4]].
  - left. split; congruence.
  - right. split; assumption.
  - right. split; congruence.
  - right. split; assumption.
Qed.

Lemma kept_or_ended_tryFormats t formats i s :
  kept_or_ended s (snd (tryFormats net t i formats s)).
Proof.
  apply (maintains_tryFormats net kept_or_ended (fun _ => True));
    try (intros; left; split; reflexivity); auto.
  - apply kept_or_ended_trans.
  - intros s0. right. split; reflexivity.
Qed.

(** X3.  Only [connect] and [setToken] can install a token.  Every other
    call of the public interface, however it ends, either leaves both
    tokens as they were or leaves the service without any token. *)
Theorem session_only_ends (c : call) (s : state) :
  installs_token c = false -> kept_or_ended s (perform net now c s).
Proof.
  pose proof kept_or_ended_refl as Hrefl.
  pose proof kept_or_ended_trans as Htrans.
  assert (Hlog : forall s r, True -> kept_or_ended s (log_request r s))
    by (intros ? ? _; left; split; reflexivity).
  assert (Hforget : forall s, kept_or_ended s (snd (forget s)))
    by (intros ?; right; split; reflexivity).
  assert (Hurl : forall u s, kept_or_ended s (set_baseURL u s))
    by (intros ? ?; left; split; reflexivity).
  assert (Hcl : forall s, kept_or_ended s (new_client s))
    by (intros ?; left; split; reflexivity).
  intros Hc. destruct c; try discriminate Hc; cbn [perform].
  - apply (maintains_disconnect net kept_or_ended (fun _ => True)); auto.
  - apply (maintains_checkConnection net kept_or_ended (fun _ => True)); auto.
  - apply (maintains_getAccountInfo net kept_or_ended (fun _ => True)); auto.
  - apply (maintains_getSymbols net kept_or_ended (fun _ => True)); auto.
  - apply (maintains_subscribeSymbol net kept_or_ended (fun _ => True)); auto.
  - apply (maintains_findMatchingSymbol net kept_or_ended (fun _ => True)); auto.
  - apply (maintains_getPositions net kept_or_ended (fun _ => True)); auto.
  - apply (maintains_sendOrder net kept_or_ended (fun _ => True)); auto.
  - apply (maintains_getQuote net now kept_or_ended (fun _ => True)); auto.
  - apply (maintains_closePosition net kept_or_ended (fun _ => True)); auto.
  - apply Hrefl.
  - right. split; reflexivity.
  - apply Hurl.
  - apply Hrefl.
  - apply Hrefl.
Qed.

(** X4.  Without a token in memory no call other than [connect] reaches
    the bridge: the log of requests is left as it was. *)
Theorem no_token_no_request (c : call) (s : state) :
  has_token s = false -> is_connect c = false ->
  sent (perform net now c s) = sent s.
Proof.
  intros Ht Hc. destruct c; try discriminate Hc; cbn [perform]; try reflexivity.
  - unfold disconnect, try_catch, bind, gets. rewrite Ht. reflexivity.
  - unfold checkConnection, try_catch, bind, gets. rewrite Ht. reflexivity.
  - unfold getAccountInfo, try_catch, bind, gets. rewrite Ht. reflexivity.
  - unfold getSymbols, try_catch, bind, gets. rewrite Ht. reflexivity.
  - unfold subscribeSymbol, try_catch, bind, gets. rewrite Ht. reflexivity.
  - unfold findMatchingSymbol, try_catch, bind, gets. rewrite Ht. reflexivity.
  - unfold getPositions, try_catch, bind, gets. rewrite Ht. reflexivity.
  - unfold sendOrder, try_catch, bind, gets. rewrite Ht. reflexivity.
  - unfold getQuote, try_catch, bind, gets. rewrite Ht. reflexivity.
  - unfold closePosition, try_catch, bind, gets. rewrite Ht. reflexivity.
Qed.

Lemma logs_only_same P s s' : sent s' = sent s -> logs_only P s s'.
Proof. intros H. exists []. split; [rewrite H; symmetry; apply app_nil_r | constructor]. Qed.

Lemma logs_only_trans P a b c : logs_only P a b -> logs_only P b c -> logs_only P a c.
Proof.
  intros [l1 [H1 F1]] [l2 [H2 F2]]. exists (l1 ++ l2)%list. split.
  - rewrite H2, H1, app_assoc. reflexivity.
  - apply Forall_app. split; assumption.
Qed.

Lemma logs_only_log (P : request -> Prop) s r : P r -> logs_only P s (log_request r s).
Proof. intros Hr. exists [r]. split; [reflexivity | constructor; [exact Hr | constructor]]. Qed.

(** X5.  The log only grows, and a call trades only when asked to: a
    request to [/OrderSend] is issued by [sendOrder] alone, a request to
    [/OrderClose] by [closePosition] alone.  The session calls, the read
    operations and the symbol resolver never place or close an order. *)
Theorem trades_only_on_request (c : call) (s : state) :
  logs_only (may_issue c) s (perform net now c s).
Proof.
  assert (Hsame : forall s s', sent s' = sent s -> logs_only (may_issue c) s s')
    by (intros ? ?; apply logs_only_same).
  assert (Hrefl : forall s, logs_only (may_issue c) s s) by (intros ?; apply Hsame; reflexivity).
  pose proof (logs_only_trans (may_issue c)) as Htrans.
  pose proof (logs_only_log (may_issue c)) as Hlog.
  assert (Hstore : forall t s, logs_only (may_issue c) s (snd (store t s)))
    by (intros ? ?; apply Hsame; reflexivity).
  assert (Hforget : forall s, logs_only (may_issue c) s (snd (forget s)))
    by (intros ?; apply Hsame; reflexivity).
  assert (Hrem : forall t s, t <> "" -> logs_only (may_issue c) s (snd (remember t s))).
  { intros t s0 _. unfold remember, bind, modify. cbn.
    destruct (String.eqb t ""); apply Hsame; reflexivity. }
  assert (Hurl : forall u s, logs_only (may_issue c) s (set_baseURL u s))
    by (intros ? ?; apply Hsame; reflexivity).
  assert (Hcl : forall s, logs_only (may_issue c) s (new_client s))
    by (intros ?; apply Hsame; reflexivity).
  assert (Hread : forall p ps, String.eqb p "/OrderSend" = false ->
                               String.eqb p "/OrderClose" = false ->
                               may_issue c (mkRequest "GET" p ps)).
  { intros p ps H1 H2. split; cbn; intros ->; discriminate. }
  set (P := may_issue c) in *.
  assert (Hsend : forall o id sym, c = SendOrder o ->
                    P (mkRequest "GET" "/OrderSend" (order_params id sym o))).
  { intros o id sym Hc. split; cbn; [intros _; exists o; exact Hc | discriminate]. }
  assert (Hclose : forall t v ps, c = ClosePosition t v ->
                     P (mkRequest "GET" "/OrderClose" ps)).
  { intros t v ps Hc. split; cbn; [discriminate | intros _; exists t, v; exact Hc]. }
  clearbody P.
  destruct c; cbn [perform]; try (apply Hsame; reflexivity).
  - apply (maintains_connect net (logs_only P) P); auto.
  - apply (maintains_disconnect net (logs_only P) P); auto.
  - apply (maintains_checkConnection net (logs_only P) P); auto.
  - apply (maintains_getAccountInfo net (logs_only P) P); auto.
  - apply (maintains_getSymbols net (logs_only P) P); auto.
  - apply (maintains_subscribeSymbol net (logs_only P) P); auto.
  - apply (maintains_findMatchingSymbol net (logs_only P) P); auto.
  - apply (maintains_getPositions net (logs_only P) P); auto.
  - apply (maintains_sendOrder net (logs_only P) P); auto.
  - apply (maintains_getQuote net now (logs_only P) P); auto.
  - apply (maintains_closePosition net (logs_only P) P); auto.
    intros ps. eapply Hclose. reflexivity.
Qed.

Lemma try_catch_returns {A} (m : @M state A) h :
  (forall e, returns (h e)) -> returns (try_catch m h).
Proof.
  intros Hh s. unfold try_catch. destruct (m s) as [[a|e] s1].
  - exists a, s1. reflexivity.
  - apply Hh.
Qed.

Lemma clearing_returns {A} (e : error) (a : A) :
  returns ((if is_auth_error e then clearToken else ret tt) ;;; ret a).
Proof.
  intros s. unfold bind. destruct (is_auth_error e); eexists; eexists; reflexivity.
Qed.

(** X6.  The calls that change something at the broker or in the
    session never throw: [connect], [disconnect], [checkConnection],
    [subscribeSymbol], [findMatchingSymbol], [sendOrder] and
    [closePosition] return a result whatever the bridge does. *)
Theorem commands_never_throw :
  (forall c, returns (connect net c))
  /\ returns (disconnect net)
  /\ returns (checkConnection net)
  /\ (forall sym, returns (subscribeSymbol net sym))
  /\ (forall sym, returns (findMatchingSymbol net sym))
  /\ (forall o, returns (sendOrder net o))
  /\ (forall t v, returns (closePosition net t v)).
Proof.
  repeat split; intros; apply try_catch_returns; intros e;
    first [ apply clearing_returns | intros s; eexists; eexists; reflexivity ].
Qed.

End Calls.

(** ** The results and the requests of the position closer *)

Section Shape.
Import Enhanced.
Variable net : bridge.

Lemma attempt_failed_shape t i f e s r s' :
  attempt_failed t i f e s = (Ok (Some r), s') -> reports_success r.
Proof.
  unfold attempt_failed. cbv zeta.
  destruct (_ && existsb _ _).
  - intros H. inversion H. split; [reflexivity|].
    eexists; eexists; eexists. repeat split.
  - destruct (_ && auth_phrase _); intros H; inversion H.
Qed.

Lemma attempt_shape t i f s r s' :
  attempt net t i f s = (Ok (Some r), s') -> reports_success r.
Proof.
  unfold attempt. unfold bind at 1.
  destruct (logged (value_of f) s) as [[u|e] s0]; [|discriminate].
  unfold try_catch.
  match goal with
  | |- context [match ?body s0 with _ => _ end] =>
      assert (Hb : forall r0 s1, body s0 = (Ok (Some r0), s1) -> reports_success r0)
  end.
  { unfold bind, gets, api_get, lift, logged, bind, lift.
    destruct (close_params (token_value s0) t f) as [ps|e]; [|discriminate].
    destruct (settle _) as [resp|e]; cbn [fst snd]; [|discriminate].
    destruct (is_ok_status resp); [|discriminate].
    destruct (parseOrderResponse (data resp) "OrderClose") as [result|e]; [|discriminate].
    destruct (comment_matches (comment result) closed_in_comment) as [[|]|e];
      try discriminate.
    - intros r0 s1 H. inversion H. split; [reflexivity|].
      eexists; eexists; eexists. repeat split.
    - destruct (comment_matches (comment result) invalid_volume_in_comment) as [[|]|e];
        try discriminate.
      + destruct (ToString (value_of f)); discriminate.
      + destruct (num_eq (retcode result) 10009).
        * destruct (ToString (value_of f)); [|discriminate].
          intros r0 s1 H. inversion H. split; [reflexivity|].
          eexists; eexists; eexists. repeat split.
        * destruct (ToString (comment result)); discriminate. }
  match goal with
  | |- context [match ?body s0 with _ => _ end] => destruct (body s0) as [[o|e] s1]
  end.
  - intros H. inversion H; subst. eapply Hb. reflexivity.
  - apply attempt_failed_shape.
Qed.

Lemma tryFormats_shape t formats :
  forall i s r s', tryFormats net t i formats s = (Ok (Some r), s') -> reports_success r.
Proof.
  induction formats as [|f rest IH]; intros i s r s'; simpl; [discriminate|].
  unfold bind. destruct (attempt net t i f s) as [[[r0|]|e] s1] eqn:Ha.
  - intros H. inversion H; subst. eapply attempt_shape. exact Ha.
  - apply IH.
  - discriminate.
Qed.

(** X7.  [closePosition] answers in one of three shapes, whatever the
    bridge does: the answer for a ticket that is not listed; a success
    with retcode 10009 that names the ticket, the volume used and the
    number of the attempt; or a failure with retcode 10004 that names
    none of them.  No other retcode comes out of it. *)
Theorem close_result_shape (t : Q) (vol : option Q) (s : state) :
  exists r s',
    closePosition net t vol s = (Ok r, s')
    /\ (r = not_found t \/ reports_success r \/ reports_failure r).
Proof.
  assert (Hfail : forall msg, reports_failure (mkCloseResult 10004 None msg None None None))
    by (intros msg; repeat split).
  unfold closePosition, try_catch.
  match goal with
  | |- context [match ?body s with _ => _ end] =>
      assert (Hb : forall r0 s0, body s = (Ok r0, s0) ->
                     r0 = not_found t \/ reports_success r0 \/ reports_failure r0)
  end.
  { unfold bind at 1. unfold gets.
    destruct (has_token s); cbn [negb].
    - unfold bind at 1.
      destruct (positionDetails net t s) as [[found|e] s1]; [|discriminate].
      assert (Hprobe : forall formats r0 s0,
                (r <- tryFormats net t 0 formats ;;
                 match r with
                 | Some result => ret result
                 | None =>
                     ret (mkCloseResult 10004 None
                            (Str ("Failed to close position " ++ Number_toString t
                                  ++ " - tried " ++ nat_toString (List.length formats)
                                  ++ " different volume formats")) None None None)
                 end) s1 = (Ok r0, s0) ->
                r0 = not_found t \/ reports_success r0 \/ reports_failure r0).
      { intros formats r0 s0. unfold bind.
        destruct (tryFormats net t 0 formats s1) as [[[r|]|e] s2] eqn:Hp.
        - intros H. inversion H; subst. right. left. eapply tryFormats_shape. exact Hp.
        - intros H. inversion H. right. right. apply Hfail.
        - discriminate. }
      assert (Hgen : forall known r0 s0,
                (generated <- lift (volumeFormats vol known) ;;
                 formats <- lift (uniqueFormats generated) ;;
                 lift (describe formats) ;;;
                 r <- tryFormats net t 0 formats ;;
                 match r with
                 | Some result => ret result
                 | None =>
                     ret (mkCloseResult 10004 None
                            (Str ("Failed to close position " ++ Number_toString t
                                  ++ " - tried " ++ nat_toString (List.length formats)
                                  ++ " different volume formats")) None None None)
                 end) s1 = (Ok r0, s0) ->
                r0 = not_found t \/ reports_success r0 \/ reports_failure r0).
      { intros known r0 s0. unfold bind at 1. unfold lift at 1.
        destruct (volumeFormats vol known) as [generated|e]; [|discriminate].
        unfold bind at 1. unfold lift at 1.
        destruct (uniqueFormats generated) as [formats|e]; [|discriminate].
        unfold bind at 1. unfold lift at 1.
        destruct (describe formats) as [lines|e]; [|discriminate].
        apply Hprobe. }
      destruct found.
      + apply Hgen.
      + intros r0 s0 H. inversion H. left. reflexivity.
      + apply Hgen.
    - intros r0 s0 H. inversion H. right. right. apply Hfail. }
  match goal with
  | |- context [match ?body s with _ => _ end] => destruct (body s) as [[r|e] s1]
  end.
  - exists r, s1. split; [reflexivity|]. eapply Hb. reflexivity.
  - unfold bind. destruct (is_auth_error e); cbn;
      eexists; eexists; (split; [reflexivity|]); right; right; apply Hfail.
Qed.


(** X9.  When the generation of the candidates returns, there are at
    most nineteen of them.  There is at least one, and the first
    candidate is the first volume generated, when the caller gives a
    positive volume, when no position is at hand, and when the volume in
    lots of the position is a positive rational. *)
Theorem candidates_never_empty (vol : option Q) (found : option Position)
    (formats candidates : list VolumeFormatEntry) :
  volumeFormats vol found = Ok formats ->
  uniqueFormats formats = Ok candidates ->
  (List.length candidates <= 19)%nat
  /\ Subsequence candidates formats
  /\ (provided vol <> []
      \/ found = None
      \/ (exists p (q : Q), found = Some p /\ volume p = Num q /\ 0 < q) ->
      (1 <= List.length candidates)%nat
      /\ hd_error candidates = hd_error formats).
Proof.
  intros Hf Hu. destruct (candidates_shape _ _ _ _ Hf Hu) as [Hc [Hlen _]].
  split; [exact Hlen|]. split; [rewrite Hc; apply sieve_subsequence|].
  intros Hcase.
  assert (Hhead : exists first rest (q : Q),
             formats = first :: rest /\ value_of first = Num q).
  { destruct (provided_cases vol) as [Hp|[v [Hv [Hvpos Hp]]]].
    - destruct found as [p|].
      + destruct Hcase as [Hne|[Hnone|[p' [q [Hsome [HV Hpos]]]]]];
          [rewrite Hp in Hne; contradiction | discriminate|].
        inversion Hsome; subst p'.
        destruct (volumeFormats_position vol p formats Hf)
          as [l [e1 [e2 [Hl [Hshape _]]]]].
        assert (Hlots : l = [lots_entry p]).
        { unfold lots, gt0 in Hl. rewrite HV in Hl. cbn in Hl.
          pose proof (lt_Qgtb q Hpos) as Hg. unfold Qgtb in Hg.
          rewrite Hg in Hl. inversion Hl. unfold lots_entry. rewrite HV. reflexivity. }
        subst l. rewrite Hp in Hshape. cbn in Hshape.
        do 3 eexists. split; [exact Hshape | exact HV].
      + unfold volumeFormats in Hf. rewrite Hp in Hf. cbn in Hf. inversion Hf.
        do 3 eexists. split; reflexivity.
    - assert (Hs : exists rest,
                 formats = mkFormat (Num v) "Provided volume" :: rest).
      { destruct found as [p|].
        - destruct (volumeFormats_position vol p formats Hf)
            as [l [e1 [e2 [_ [Hshape _]]]]].
          rewrite Hp in Hshape. cbn in Hshape. eexists. exact Hshape.
        - unfold volumeFormats in Hf. rewrite Hp in Hf. cbn in Hf. inversion Hf.
          eexists. reflexivity. }
      destruct Hs as [rest Hs]. do 3 eexists. split; [exact Hs | reflexivity]. }
  destruct Hhead as [first [rest [q [Hs Hq]]]].
  assert (Hkept : hd_error candidates = Some first).
  { rewrite Hc, Hs. cbn [sieve existsb negb]. rewrite andb_true_r.
    unfold close_to. rewrite Hq, near_refl. reflexivity. }
  split; [|rewrite Hkept, Hs; reflexivity].
  destruct candidates; [discriminate Hkept | simpl; lia].
Qed.

Lemma getPositions_log s :
  has_token s = true ->
  sent (snd (getPositions net s)) = (sent s ++ [positions_request s])%list.
Proof.
  intros Ht. unfold getPositions, try_catch, bind, gets, api_get, rethrow_clearing.
  rewrite Ht. cbn [negb]. fold (positions_request s).
  destruct (settle _) as [response|e]; cbn.
  - destruct (is_ok_status response && truthy (data response)).
    + destruct (ordersData (data response)); reflexivity.
    + reflexivity.
  - unfold throw, clearToken, forget, bind, modify, ret.
    destruct (is_auth_error e); reflexivity.
Qed.

Lemma probe_log t formats :
  Forall numeric formats ->
  forall i s, exists n,
    (n <= List.length formats)%nat
    /\ (formats <> [] -> 1 <= n)%nat
    /\ sent (snd (tryFormats net t i formats s))
       = (sent s ++ map (close_request s t) (firstn n formats))%list.
Proof.
  induction 1 as [|f rest Hf Hrest IH]; intros i s.
  - exists 0%nat. simpl. rewrite app_nil_r. split; [lia|]. split; [congruence | reflexivity].
  - cbn [tryFormats]. unfold bind.
    destruct (attempt_state net t i f s Hf) as [Hlog Hcase].
    destruct (attempt net t i f s) as [[[r|]|e] s1] eqn:Ha; cbn [fst snd] in *.
    + exists 1%nat. simpl. split; [lia|]. split; [lia | exact Hlog].
    + destruct Hcase as [[o Hs1]|[e He]]; [|discriminate].
      inversion Hs1; subst s1.
      destruct (IH (S i) (log_request (close_request s t f) s)) as [n [Hn [_ Hsent]]].
      exists (S n). split; [simpl; lia|]. split; [lia|].
      rewrite Hsent. cbn [firstn map log_request sent]. rewrite <- app_assoc.
      reflexivity.
    + exists 1%nat. simpl. split; [lia|]. split; [lia | exact Hlog].
Qed.

Lemma handler_log {A} (m : @M state A) (h : error -> @M state A) s :
  (forall e s0, sent (snd (h e s0)) = sent s0) ->
  sent (snd (try_catch m h s)) = sent (snd (m s)).
Proof.
  intros Hh. unfold try_catch. destruct (m s) as [[a|e] s1]; [reflexivity | apply Hh].
Qed.

Lemma positionDetails_returns t s :
  has_token s = true ->
  exists found s1,
    positionDetails net t s = (Ok found, s1)
    /\ s1 = snd (getPositions net s)
    /\ (found = Unavailable <-> exists e, fst (getPositions net s) = Throw e).
Proof.
  intros Ht. unfold positionDetails, try_catch, bind.
  destruct (getPositions net s) as [[ps|e] s1]; cbn [fst snd].
  - destruct (find _ ps); eexists; eexists; (split; [reflexivity|]);
      (split; [reflexivity|]); split; try discriminate; intros [e He]; discriminate.
  - eexists; eexists. split; [reflexivity|]. split; [reflexivity|].
    split; [intros _; exists e; reflexivity | reflexivity].
Qed.

(** X10.  A close costs at most twenty requests: none without a session;
    else the query for the open orders, followed by at most nineteen
    requests, all of them to [/OrderClose] and all for the ticket
    asked. *)
Theorem close_request_bound (t : Q) (vol : option Q) (s : state) :
  exists closes,
    sent (snd (closePosition net t vol s))
    = (sent s ++ (if has_token s then [positions_request s] else []) ++ closes)%list
    /\ (List.length closes <= 19)%nat
    /\ Forall (fun r => path r = "/OrderClose"
                        /\ lookup "ticket" (params r) = Some (Num t)) closes.
Proof.
  unfold closePosition. rewrite handler_log.
  2:{ intros e s0. unfold bind. destruct (is_auth_error e); reflexivity. }
  unfold bind at 1. unfold gets.
  destruct (has_token s) eqn:Ht; cbn [negb].
  2:{ exists []. cbn. rewrite app_nil_r. split; [reflexivity|]. split; [lia | constructor]. }
  unfold bind at 1.
  destruct (positionDetails_returns t s Ht) as [found [s1 [Hd [Hs1 _]]]].
  rewrite Hd.
  assert (Hlog : sent s1 = (sent s ++ [positions_request s])%list)
    by (rewrite Hs1; apply getPositions_log, Ht).
  assert (Hprobe : forall formats,
            (List.length formats <= 19)%nat -> Forall numeric formats ->
            exists closes,
              sent (snd ((r <- tryFormats net t 0 formats ;;
                          match r with
                          | Some result => ret result
                          | None =>
                              ret (mkCloseResult 10004 None
                                     (Str ("Failed to close position " ++ Number_toString t
                                           ++ " - tried " ++ nat_toString (List.length formats)
                                           ++ " different volume formats")) None None None)
                          end) s1))
              = (sent s ++ [positions_request s] ++ closes)%list
              /\ (List.length closes <= 19)%nat
              /\ Forall (fun r => path r = "/OrderClose"
                                  /\ lookup "ticket" (params r) = Some (Num t)) closes).
  { intros formats Hlen Hnum.
    destruct (probe_log t formats Hnum 0%nat s1) as [n [Hn [_ Hsent]]].
    exists (map (close_request s1 t) (firstn n formats)). split.
    - unfold bind.
      destruct (tryFormats net t 0 formats s1) as [[[r|]|e] s2]; unfold ret;
        cbn [snd] in *; rewrite Hsent, Hlog, <- app_assoc; reflexivity.
    - split.
      + rewrite length_map, length_firstn. lia.
      + apply Forall_forall. intros r Hr. apply in_map_iff in Hr.
        destruct Hr as [f [<- _]]. split; reflexivity. }
  assert (Hnone : exists closes : list request,
            sent s1 = (sent s ++ [positions_request s] ++ closes)%list
            /\ (List.length closes <= 19)%nat
            /\ Forall (fun r => path r = "/OrderClose"
                                /\ lookup "ticket" (params r) = Some (Num t)) closes).
  { exists []. rewrite Hlog, app_nil_r.
    split; [reflexivity|]. split; [simpl; lia | constructor]. }
  assert (Hgen : forall known,
            exists closes,
              sent (snd ((generated <- lift (volumeFormats vol known) ;;
                          formats <- lift (uniqueFormats generated) ;;
                          lift (describe formats) ;;;
                          r <- tryFormats net t 0 formats ;;
                          match r with
                          | Some result => ret result
                          | None =>
                              ret (mkCloseResult 10004 None
                                     (Str ("Failed to close position " ++ Number_toString t
                                           ++ " - tried " ++ nat_toString (List.length formats)
                                           ++ " different volume formats")) None None None)
                          end) s1))
              = (sent s ++ [positions_request s] ++ closes)%list
              /\ (List.length closes <= 19)%nat
              /\ Forall (fun r => path r = "/OrderClose"
                                  /\ lookup "ticket" (params r) = Some (Num t)) closes).
  { intros known. unfold bind at 1. unfold lift at 1.
    destruct (volumeFormats vol known) as [generated|e] eqn:G; [|exact Hnone].
    unfold bind at 1. unfold lift at 1.
    destruct (uniqueFormats generated) as [formats|e] eqn:U; [|exact Hnone].
    unfold bind at 1. unfold lift at 1.
    destruct (describe formats) as [lines|e]; [|exact Hnone].
    destruct (candidates_shape _ _ _ _ G U) as [_ [Hlen Hnum]].
    apply Hprobe; assumption. }
  destruct found as [p| |].
  - apply Hgen.
  - exact Hnone.
  - apply Hgen.
Qed.

(** X11.  The listing of the open orders is refused with status 401:
    the session is cleared, and the probe still goes out, over the
    caller's volume or else the fallback volumes, with a [null] id. *)
Theorem close_after_refused_listing (t : Q) (vol : option Q) (s : state) (d : value) :
  has_token s = true ->
  net (sent s) (positions_request s) = Reply 401 d ->
  exists candidates r s' n,
    (let? formats := volumeFormats vol None in uniqueFormats formats) = Ok candidates
    /\ closePosition net t vol s = (Ok r, s')
    /\ ended s'
    /\ (1 <= n <= List.length candidates)%nat
    /\ sent s'
       = (sent s ++ positions_request s
            :: map (anonymous_close t) (firstn n candidates))%list.
Proof.
  intros Ht Hw.
  destruct (candidates_without_position vol)
    as [formats [candidates [first [Hf [Hu [_ [Hhd _]]]]]]].
  destruct (candidates_shape _ _ _ _ Hf Hu) as [_ [_ Hnum]].
  destruct (describe_numeric _ Hnum) as [lines Hd].
  destruct (getPositions_unauthorized_clears net s d Ht Hw) as [e [s1 [Hg [Htok Hst]]]].
  assert (Hmt : mt5_token s1 = None).
  { unfold getStoredToken, gets in Hst. inversion Hst as [H]. rewrite H. reflexivity. }
  pose proof (getPositions_log s Ht) as Hlog. rewrite Hg in Hlog. cbn [snd] in Hlog.
  assert (Hne : candidates <> []) by (intros E; rewrite E in Hhd; discriminate Hhd).
  destruct (probe_log t candidates Hnum 0%nat s1) as [n [Hn [Hn1 Hsent]]].
  specialize (Hn1 Hne).
  assert (Hreq : map (close_request s1 t) (firstn n candidates)
                 = map (anonymous_close t) (firstn n candidates)).
  { apply map_ext. intros f. unfold close_request, anonymous_close, token_value.
    rewrite Htok. reflexivity. }
  rewrite Hreq in Hsent.
  pose proof (kept_or_ended_tryFormats net t candidates 0%nat s1) as Hk.
  assert (Hend : ended (snd (tryFormats net t 0 candidates s1))).
  { destruct Hk as [[A B]|E]; [|exact E]. split; congruence. }
  exists candidates.
  unfold closePosition, try_catch. unfold bind at 1. unfold gets.
  rewrite Ht. cbn [negb]. unfold bind at 1.
  unfold positionDetails, try_catch. unfold bind at 1. rewrite Hg. cbn [ret].
  unfold bind at 1. unfold lift at 1. rewrite Hf.
  unfold bind at 1. unfold lift at 1. rewrite Hu.
  unfold bind at 1. unfold lift at 1. rewrite Hd.
  unfold bind at 1.
  destruct (tryFormats net t 0 candidates s1) as [[[r|]|e1] s2]; cbn [snd] in *.
  - exists r, s2, n. split; [exact Hu|]. split; [reflexivity|].
    split; [exact Hend|]. split; [lia|].
    rewrite Hsent, Hlog, <- app_assoc. reflexivity.
  - eexists; exists s2, n. split; [exact Hu|]. split; [reflexivity|].
    split; [exact Hend|]. split; [lia|].
    rewrite Hsent, Hlog, <- app_assoc. reflexivity.
  - unfold bind. destruct Hend as [E1 E2].
    destruct (is_auth_error e1); cbn.
    + eexists; eexists; exists n. split; [exact Hu|]. split; [reflexivity|].
      split; [split; reflexivity|].
      split; [lia|]. cbn. rewrite Hsent, Hlog, <- app_assoc. reflexivity.
    + eexists; eexists; exists n. split; [exact Hu|]. split; [reflexivity|].
      split; [split; assumption|].
      split; [lia|]. rewrite Hsent, Hlog, <- app_assoc. reflexivity.
Qed.

End Shape.

(** ** Errors of the bridge *)

Section Failures.
Import Enhanced.
Variable net : bridge.

Lemma ended_after_401 r e s :
  status_is e 401 = true -> ended (after_failed_read r e s).
Proof.
  intros H. unfold after_failed_read, is_auth_error. rewrite H, orb_true_r.
  split; reflexivity.
Qed.

(** X12.  A read whose request fails throws a plain error: it carries
    the message of the failure, or the fallback text of the operation when
    that message is empty, and neither the status nor the body of the
    response.  The request is logged, and the session is cleared exactly
    when the failure is an authentication error; a reply with status 401
    is one. *)
Theorem failed_read_rethrows (s : state) (e : error) :
  has_token s = true ->
  (settle (net (sent s) (symbols_request s)) = Throw e ->
   getSymbols net s
   = (Throw (newError (str_or (message e) "Failed to retrieve symbols")),
      after_failed_read (symbols_request s) e s))
  /\ (settle (net (sent s) (positions_request s)) = Throw e ->
      getPositions net s
      = (Throw (newError (str_or (message e) "Failed to retrieve positions")),
         after_failed_read (positions_request s) e s))
  /\ (forall r, status_is e 401 = true -> ended (after_failed_read r e s)).
Proof.
  intros Ht. split; [|split].
  - intros Hw. unfold getSymbols, try_catch, bind, gets, api_get, rethrow_clearing.
    rewrite Ht. cbn [negb]. fold (symbols_request s). rewrite Hw.
    unfold after_failed_read, bind, throw. destruct (is_auth_error e); reflexivity.
  - intros Hw. unfold getPositions, try_catch, bind, gets, api_get, rethrow_clearing.
    rewrite Ht. cbn [negb]. fold (positions_request s). rewrite Hw.
    unfold after_failed_read, bind, throw. destruct (is_auth_error e); reflexivity.
  - intros r. apply ended_after_401.
Qed.

(** X13.  An order whose request fails is answered with retcode 10004
    and the message of the failure, never with an exception; the session
    is cleared when the failure is an authentication error, so an order
    refused with status 401 logs the service out. *)
Theorem refused_order_ends_session (o : OrderRequest) (s s1 : state)
    (actualSymbol : string) (e : error) :
  has_token s = true ->
  resolve_and_subscribe net (request_symbol o) s = (Ok actualSymbol, s1) ->
  settle (net (sent s1) (order_request s1 actualSymbol o)) = Throw e ->
  sendOrder net o s
  = (Ok (mkOrderResponse 10004 None
           (Str (str_or (message e) "Failed to send order")) None),
     after_failed_read (order_request s1 actualSymbol o) e s1)
  /\ (status_is e 401 = true ->
      ended (after_failed_read (order_request s1 actualSymbol o) e s1)).
Proof.
  intros Ht Hr Hw. split; [|apply ended_after_401].
  unfold sendOrder, try_catch. unfold bind at 1. unfold gets. rewrite Ht. cbn [negb].
  unfold bind at 1. rewrite Hr. unfold bind at 1. unfold bind at 1.
  unfold api_get. fold (order_request s1 actualSymbol o). rewrite Hw.
  unfold after_failed_read, bind. destruct (is_auth_error e); reflexivity.
Qed.

End Failures.

(** ** What the resolver returns *)

Section Listed.
Import Enhanced.
Variable net : bridge.

Lemma listed_In l x : listed l x = true -> In x l.
Proof.
  unfold listed. intros H. apply existsb_exists in H. destruct H as [y [Hy He]].
  apply String.eqb_eq in He. subst. exact Hy.
Qed.

Lemma filter_head_In {A} (p : A -> bool) l x rest :
  filter p l = x :: rest -> In x l /\ p x = true.
Proof.
  intros H. apply filter_In. rewrite H. left. reflexivity.
Qed.

Lemma guarded_head_In {A} (b : bool) (p : A -> bool) l x rest :
  (if b then filter p l else []) = x :: rest -> In x l.
Proof.
  destruct b; [|discriminate]. intros H. apply (filter_head_In _ _ _ _ H).
Qed.

Lemma bestMatch_listed baseSymbol allSymbols x :
  bestMatch baseSymbol allSymbols = Some x -> In x allSymbols.
Proof.
  unfold bestMatch. cbv zeta.
  destruct (listed allSymbols baseSymbol) eqn:L1.
  { intros H. inversion H; subst. apply listed_In, L1. }
  destruct (listed allSymbols (normalizeSymbol baseSymbol)) eqn:L2.
  { intros H. inversion H; subst. apply listed_In, L2. }
  match goal with
  | |- context [if ?b then filter is_gold ?l else []] =>
      destruct (if b then filter is_gold l else []) as [|g gs] eqn:G
  end.
  2:{ intros H. inversion H; subst. eapply guarded_head_In. exact G. }
  match goal with
  | |- context [if ?b then filter is_silver ?l else []] =>
      destruct (if b then filter is_silver l else []) as [|v vs] eqn:V
  end.
  2:{ intros H. inversion H; subst. eapply guarded_head_In. exact V. }
  destruct (filter (is_partial (normalizeSymbol baseSymbol)) allSymbols) as [|p ps] eqn:P;
    [discriminate|].
  intros H. inversion H; subst. apply (filter_head_In _ _ _ _ P).
Qed.

Lemma findMatchingSymbol_some (baseSymbol x : string) (s : state) :
  fst (findMatchingSymbol net baseSymbol s) = Ok (Some x) ->
  exists allSymbols,
    fst (getSymbols net s) = Ok allSymbols
    /\ bestMatch baseSymbol allSymbols = Some x.
Proof.
  unfold findMatchingSymbol, try_catch. unfold bind at 1. unfold gets.
  destruct (has_token s); cbn [negb]; [|discriminate].
  unfold bind. destruct (getSymbols net s) as [[allSymbols|e] s1]; cbn [fst];
    [|discriminate].
  destruct allSymbols as [|a l] eqn:E; [discriminate|]. rewrite <- E.
  cbn [ret fst]. intros H. inversion H as [Hb].
  exists allSymbols. split; reflexivity.
Qed.

(** X14.  The resolver never invents a symbol: what [findMatchingSymbol]
    returns is one of the symbols the bridge has just published. *)
Theorem resolved_symbol_is_listed (baseSymbol x : string) (s : state) :
  fst (findMatchingSymbol net baseSymbol s) = Ok (Some x) ->
  exists allSymbols,
    fst (getSymbols net s) = Ok allSymbols /\ In x allSymbols.
Proof.
  intros H. destruct (findMatchingSymbol_some baseSymbol x s H) as [allSymbols [Hs Hb]].
  exists allSymbols. split; [exact Hs|].
  eapply bestMatch_listed. exact Hb.
Qed.

(** *** The suffix rule *)

Lemma append_nil_r (a : string) : a ++ "" = a.
Proof. induction a as [|c a IH]; simpl; [reflexivity | rewrite IH; reflexivity]. Qed.

Lemma append_assoc (a b c : string) : (a ++ b) ++ c = a ++ (b ++ c).
Proof. induction a as [|x a IH]; simpl; [reflexivity | rewrite IH; reflexivity]. Qed.

Lemma rev_string_app a b : rev_string (a ++ b) = rev_string b ++ rev_string a.
Proof.
  induction a as [|c a IH]; simpl.
  - symmetry. apply append_nil_r.
  - rewrite IH. apply append_assoc.
Qed.

Lemma rev_string_involutive a : rev_string (rev_string a) = a.
Proof.
  induction a as [|c a IH]; simpl; [reflexivity|].
  rewrite rev_string_app. simpl. rewrite IH. reflexivity.
Qed.

Lemma prefix_split p s : String.prefix p s = true -> exists r, s = p ++ r.
Proof.
  revert s. induction p as [|c p IH]; intros s; simpl.
  - intros _. exists s. reflexivity.
  - destruct s as [|d s]; simpl; [discriminate|].
    destruct (Ascii.ascii_dec c d) as [->|Hne]; [|discriminate].
    intros H. destruct (IH s H) as [r ->]. exists r. reflexivity.
Qed.

Lemma prefix_app p r : String.prefix p (p ++ r) = true.
Proof.
  induction p as [|c p IH]; simpl; [destruct r; reflexivity|].
  destruct (Ascii.ascii_dec c c); [exact IH | contradiction].
Qed.

Lemma endsWith_split s suffix : endsWith s suffix = true -> exists pre, s = pre ++ suffix.
Proof.
  unfold endsWith. intros H. apply prefix_split in H. destruct H as [r Hr].
  exists (rev_string r).
  rewrite <- (rev_string_involutive s), Hr, rev_string_app, rev_string_involutive.
  reflexivity.
Qed.

Lemma endsWith_app pre suffix : endsWith (pre ++ suffix) suffix = true.
Proof. unfold endsWith. rewrite rev_string_app. apply prefix_app. Qed.

Lemma toLowerCase_app a b : toLowerCase (a ++ b) = toLowerCase a ++ toLowerCase b.
Proof. induction a as [|c a IH]; simpl; [reflexivity | rewrite IH; reflexivity]. Qed.

Lemma toLowerCase_length a : String.length (toLowerCase a) = String.length a.
Proof. induction a as [|c a IH]; simpl; [reflexivity | rewrite IH; reflexivity]. Qed.

Lemma length_app_string a b : String.length (a ++ b) = (String.length a + String.length b)%nat.
Proof. induction a as [|c a IH]; simpl; [reflexivity | rewrite IH; reflexivity]. Qed.

Lemma substring_app a b : String.substring 0 (String.length a) (a ++ b) = a.
Proof.
  induction a as [|c a IH]; simpl; [destruct b; reflexivity | rewrite IH; reflexivity].
Qed.

(** A string splits at any length below its own. *)
Lemma split_at n s :
  (n <= String.length s)%nat ->
  exists a b, s = a ++ b /\ String.length a = n.
Proof.
  revert s. induction n as [|n IH]; intros s Hn.
  - exists "", s. split; reflexivity.
  - destruct s as [|c s]; [simpl in Hn; lia|].
    destruct (IH s) as [a [b [-> Ha]]]; [simpl in Hn; lia|].
    exists (String c a), b. split; [reflexivity | simpl; rewrite Ha; reflexivity].
Qed.

Lemma app_inj_length a a' b b' :
  a ++ b = a' ++ b' -> String.length a = String.length a' -> a = a' /\ b = b'.
Proof.
  revert a'. induction a as [|c a IH]; intros [|c' a'] H Hl; simpl in *;
    try discriminate.
  - split; [reflexivity | exact H].
  - inversion H; subst. destruct (IH a' H2) as [-> ->]; [lia|]. split; reflexivity.
Qed.

(** The symbol ends, whatever the case of its letters, with [suffix]. *)
Lemma lower_suffix s suffix :
  endsWith (toLowerCase s) suffix = true ->
  exists base ext,
    s = base ++ ext /\ toLowerCase ext = suffix
    /\ String.substring 0 (String.length s - String.length suffix) s = base.
Proof.
  intros H. apply endsWith_split in H. destruct H as [pre Hpre].
  assert (Hlen : String.length s = (String.length pre + String.length suffix)%nat).
  { rewrite <- (toLowerCase_length s), Hpre. apply length_app_string. }
  destruct (split_at (String.length pre) s) as [base [ext [Hs Hb]]]; [lia|].
  exists base, ext. split; [exact Hs|].
  rewrite Hs in Hpre. rewrite toLowerCase_app in Hpre.
  destruct (app_inj_length _ _ _ _ Hpre) as [_ He].
  { rewrite toLowerCase_length. exact Hb. }
  split; [exact He|].
  replace (String.length s - String.length suffix)%nat with (String.length base) by lia.
  rewrite Hs. apply substring_app.
Qed.

(** X15.  [normalizeSymbol] removes at most one thing: a broker suffix
    ([.raw], [.m], [.c], [.pro], [.ecn], [.stp], in any case of the
    letters) at the very end of the symbol.  A symbol that ends with none
    of them is returned as it is. *)
Theorem normalizeSymbol_strips_suffix (baseSymbol : string) :
  exists ext,
    baseSymbol = normalizeSymbol baseSymbol ++ ext
    /\ (ext = "" \/ In (toLowerCase ext) broker_suffixes)
    /\ (ext = "" ->
        forall suffix, In suffix broker_suffixes ->
                       endsWith (toLowerCase baseSymbol) suffix = false).
Proof.
  unfold normalizeSymbol.
  destruct (find (endsWith (toLowerCase baseSymbol)) broker_suffixes) as [suffix|] eqn:F.
  - apply find_some in F. destruct F as [Hin He].
    destruct (lower_suffix baseSymbol suffix He) as [base [ext [Hs [Hl Hsub]]]].
    exists ext. rewrite Hsub. split; [exact Hs|]. split.
    + right. rewrite Hl. exact Hin.
    + intros ->. simpl in Hl. subst suffix.
      repeat (destruct Hin as [Hin|Hin]; [discriminate|]). destruct Hin.
  - exists "". split; [|split].
    + symmetry. apply append_nil_r.
    + left. reflexivity.
    + intros _ suffix Hin. exact (find_none _ _ F suffix Hin).
Qed.

End Listed.

(** ** What the normalizer reports *)

Section Reports.
Import Enhanced.

Lemma sound_success o c raw : sound_report (mkOrderResponse 10009 o c raw).
Proof. split; reflexivity. Qed.

Lemma sound_failure n c raw :
  num_eq n 0 = false -> sound_report (mkOrderResponse n None c raw).
Proof. intros H. split; [intros Ho; exfalso; apply Ho; reflexivity | exact H]. Qed.

Lemma nonzero_code z :
  num_eq (match nonzero z with
          | Some n => Finite (inject_Z n)
          | None => Finite 10004
          end) 0
  = false.
Proof.
  unfold nonzero. destruct z as [n|]; [|reflexivity].
  destruct (Z.eqb_spec n 0); [reflexivity|].
  cbn [num_eq]. destruct (Qeq_bool (inject_Z n) 0) eqn:E; [|reflexivity].
  apply Qeq_bool_iff in E. unfold Qeq in E. simpl in E. lia.
Qed.

Lemma abs_code n : num_eq (num_or (num_abs n) 10004) 0 = false.
Proof.
  unfold num_or. destruct n as [|negative|q]; cbn [num_abs truthy]; try reflexivity.
  destruct (Qeq_bool (Qabs q) 0) eqn:E; cbn [negb]; [reflexivity | exact E].
Qed.

Lemma ticket_rule_report d t m c op r : ticket_rule d t m c op = Ok r -> sound_report r.
Proof.
  unfold ticket_rule. intros H. apply bind_returns in H. destruct H as [printed [_ H]].
  inversion H. apply sound_success.
Qed.

Lemma retcode_rule_report raw c m o t op r :
  retcode_rule raw c m o t op = Ok r -> sound_report r.
Proof.
  unfold retcode_rule. intros H.
  apply bind_returns in H. destruct H as [parsed [_ H]]. cbv zeta in H.
  apply bind_returns in H. destruct H as [printed [_ H]].
  destruct (_ || _); [inversion H; apply sound_success|].
  apply bind_returns in H. destruct H as [code [_ H]].
  apply bind_returns in H. destruct H as [text [_ H]].
  inversion H. apply sound_failure, nonzero_code.
Qed.

Lemma success_rule_report f m c o t op : sound_report (success_rule f m c o t op).
Proof.
  unfold success_rule. destruct (_ || _); [apply sound_success|].
  apply sound_failure. reflexivity.
Qed.

Lemma error_rule_report e1 e2 op r : error_rule e1 e2 op = Ok r -> sound_report r.
Proof.
  unfold error_rule. cbv zeta. intros H.
  apply bind_returns in H. destruct H as [printed [_ H]].
  inversion H. apply sound_failure. reflexivity.
Qed.

Lemma message_rule_report m o t r : message_rule m o t = Ok (Some r) -> sound_report r.
Proof.
  unfold message_rule. intros H.
  apply bind_returns in H. destruct H as [lower [_ H]].
  destruct (success_keyword lower); [inversion H; apply sound_success|].
  destruct (_ || _); [|discriminate].
  inversion H. apply sound_failure. reflexivity.
Qed.

Lemma order_rule_report h o c m op r : order_rule h o c m op = Ok r -> sound_report r.
Proof.
  unfold order_rule. intros H.
  apply bind_returns in H. destruct H as [by_order [_ H]].
  destruct by_order; inversion H; apply sound_success.
Qed.

Lemma text_rule_report text op : sound_report (text_rule text op).
Proof.
  unfold text_rule. cbv zeta.
  destruct (match parseInt_string true text with
            | Some n => (0 <? n)%Z
            | None => false
            end); [apply sound_success|].
  destruct (_ || _ || _); [apply sound_success|].
  destruct (_ || _ || _ || _); [|apply sound_success].
  apply sound_failure. reflexivity.
Qed.

Lemma number_rule_report n op : sound_report (number_rule n op).
Proof.
  unfold number_rule.
  destruct (num_gt n 0); [apply sound_success|].
  destruct (num_eq n 0); [apply sound_success|].
  apply sound_failure, abs_code.
Qed.

Lemma parseOrderResponse_report (responseData : value) (operation : string) r :
  parseOrderResponse responseData operation = Ok r -> sound_report r.
Proof.
  destruct responseData as [| | b | n | s | items | fields |].
  - intros H. inversion H. apply sound_success.
  - intros H. inversion H. apply sound_success.
  - intros H. inversion H.
    destruct b; [apply sound_success | apply sound_failure; reflexivity].
  - intros H. inversion H. apply number_rule_report.
  - intros H. inversion H. apply text_rule_report.
  - (* an array *)
    unfold parseOrderResponse. vm_compute. intros H. injection H as <-.
    split; [intros _|]; reflexivity.
  - (* an object *)
    rewrite parse_object. cbv zeta. intros H.
    apply bind_returns in H. destruct H as [by_ticket [_ H]].
    destruct by_ticket; [eapply ticket_rule_report; exact H|].
    destruct (match lookup "retcode" fields with Some _ => true | None => false end);
      [eapply retcode_rule_report; exact H|].
    destruct (match lookup "success" fields with Some _ => true | None => false end);
      [inversion H; apply success_rule_report|].
    destruct (_ || _); [eapply error_rule_report; exact H|].
    apply bind_returns in H. destruct H as [by_message [Hm H]].
    destruct by_message as [found|].
    + inversion H; subst found.
      destruct (_ && _); [|discriminate Hm].
      eapply message_rule_report. exact Hm.
    + eapply order_rule_report. exact H.
  - intros H. inversion H. apply sound_failure. reflexivity.
Qed.

(** X16.  Whatever the body, the response the normalizer builds names a
    ticket only under retcode 10009, and its retcode is never 0: a failure
    never carries an order, and a body that holds retcode 0, or none that
    can be read, comes out with 10004 or 10009. *)
Theorem report_is_sound (responseData : value) (operation : string) (r : OrderResponse) :
  parseOrderResponse responseData operation = Ok r ->
  (order r <> None -> retcode r = 10009) /\ num_eq (retcode r) 0 = false.
Proof. apply parseOrderResponse_report. Qed.

End Reports.
(** ** The class-based service *)

Section ClassSession.
Import ClassService.
Variable net : bridge.

Ltac refused :=
  intros _; split; [reflexivity|]; cbn;
  split; [reflexivity|]; split; [reflexivity|];
  let x := fresh "x" in
  let Hx := fresh "Hx" in
  intros x Hx; inversion Hx; split; reflexivity.

Lemma connect_error_message_throws e err :
  connect_error_message e = Throw err ->
  err = unconvertible
  /\ exists st d, http_response e = Some (st, d) /\ ToString d = Throw unconvertible.
Proof.
  unfold connect_error_message.
  repeat match goal with
         | |- (if ?b then Ok _ else _) = _ -> _ => destruct b; [discriminate|]
         end.
  intros H. apply bind_throws in H. destruct H as [H|[a [_ H]]]; [|discriminate].
  apply ToString_throws in H as He. subst err. split; [reflexivity|].
  destruct (http_response e) as [[st d]|]; [|discriminate H].
  exists st, d. split; [reflexivity|].
  unfold or_else in H. destruct (truthy d); [exact H | discriminate H].
Qed.

Lemma connect_error_message_returns e :
  (forall st d, http_response e = Some (st, d) -> exists text, ToString d = Ok text) ->
  exists text, connect_error_message e = Ok text.
Proof.
  intros Hd. destruct (connect_error_message e) as [text|err] eqn:E; [eauto|].
  destruct (connect_error_message_throws e err E) as [_ [st [d [Hr Ht]]]].
  destruct (Hd st d Hr) as [text Hok]. congruence.
Qed.

(** X17.  [connect] of the class-based service throws in one case only:
    the request fails with a reply whose body cannot be converted to a
    string, and the line of the [catch] block that builds the message
    from the body throws the error of the conversion.  With a key that is
    missing or shorter than ten characters it fails before any request.
    Otherwise it issues one request, to [/ConnectEx], and it succeeds
    exactly when the reply has a status in [200, 300) and a body that is a
    string of more than ten characters: that string is then the token, in
    the response, in memory and in [localStorage]; in every other case
    both tokens stay as they were, whether it returns or throws. *)
Theorem class_connect_outcome (c : MT5Credentials) (s : state) :
  exists r s',
    connect net c s = (r, s')
    /\ (key_accepted s = false -> s' = s /\ exists x, r = Ok x /\ success x = false)
    /\ (key_accepted s = true ->
        sent s' = (sent s ++ [connect_request s c])%list
        /\ match granted (net (sent s) (connect_request s c)) with
           | Some t =>
               token s' = Some t /\ mt5Token s' = Some t
               /\ exists x, r = Ok x /\ success x = true /\ response_token x = Some t
           | None =>
               token s' = token s /\ mt5Token s' = mt5Token s
               /\ forall x, r = Ok x -> success x = false /\ response_token x = None
           end)
    /\ (forall e, r = Throw e ->
          e = unconvertible
          /\ exists st d,
               net (sent s) (connect_request s c) = Reply st d
               /\ ((200 <=? st) && (st <? 300))%Z = false
               /\ ToString d = Throw unconvertible)
    /\ ((forall st d, net (sent s) (connect_request s c) = Reply st d ->
                      exists text, ToString d = Ok text) ->
        exists x, r = Ok x).
Proof.
  unfold connect, try_catch. unfold bind at 1. unfold gets, key_accepted.
  destruct (String.eqb (apiKey s) "") eqn:K1; cbn [negb andb].
  { eexists; eexists; split; [reflexivity|].
    split; [intros _; split; [reflexivity | eexists; split; reflexivity]|].
    split; [discriminate|]. split; [discriminate | intros _; eexists; reflexivity]. }
  destruct ((String.length (apiKey s) <? 10)%nat) eqn:K2; cbn [negb].
  { eexists; eexists; split; [reflexivity|].
    split; [intros _; split; [reflexivity | eexists; split; reflexivity]|].
    split; [discriminate|]. split; [discriminate | intros _; eexists; reflexivity]. }
  unfold bind at 1. unfold axios_get. fold (connect_request s c).
  destruct (net (sent s) (connect_request s c)) as [st d|m cd] eqn:W; cbn [settle granted].
  - destruct (((200 <=? st) && (st <? 300))%Z) eqn:E; cbn [andb].
    + cbn [data]. destruct d as [| | b | n | text | items | fields |].
      5:{ destruct ((10 <? String.length text)%nat) eqn:L.
          - eexists; eexists; split; [reflexivity|]. split; [discriminate|].
            split; [intros _; repeat split; eexists; repeat split|].
            split; [discriminate | intros _; eexists; reflexivity].
          - eexists; eexists; split; [reflexivity|]. split; [discriminate|].
            split; [refused|].
            split; [discriminate | intros _; eexists; reflexivity]. }
      all: eexists; eexists; split; [reflexivity|]; split; [discriminate|];
        (split; [refused|]);
        split; [discriminate | intros _; eexists; reflexivity].
    + unfold bind, lift.
      match goal with
      | |- context [connect_error_message ?e] =>
          destruct (connect_error_message e) as [text|err] eqn:M
      end.
      * eexists; eexists; split; [reflexivity|]. split; [discriminate|].
        split; [destruct d; refused|].
        split; [discriminate | intros _; eexists; reflexivity].
      * destruct (connect_error_message_throws _ _ M) as [He [st' [d' [Hr Ht]]]].
        cbn [http_response] in Hr. inversion Hr; subst st' d' err.
        eexists; eexists; split; [reflexivity|]. split; [discriminate|].
        split.
        { intros _. split; [reflexivity|].
          destruct d; cbn; (split; [reflexivity|]); (split; [reflexivity|]);
            intros x Hx; discriminate Hx. }
        split.
        { intros e He. inversion He. split; [reflexivity|].
          exists st, d. repeat split; assumption. }
        intros Hd. destruct (Hd st d eq_refl) as [text Hok]. congruence.
  - unfold bind, lift.
    destruct (connect_error_message_returns (mkError m cd None)) as [text ->];
      [intros st d Hr; discriminate Hr|].
    eexists; eexists; split; [reflexivity|]. split; [discriminate|].
    split; [refused|].
    split; [discriminate | intros _; eexists; reflexivity].
Qed.

Lemma closePosition_tokens t s :
  token (snd (closePosition net t s)) = token s
  /\ mt5Token (snd (closePosition net t s)) = mt5Token s.
Proof.
  unfold closePosition, bind, gets, try_catch, axios_get.
  destruct (has_token s); cbn [negb]; [|split; reflexivity].
  destruct (settle _) as [resp|e]; cbn [fst snd].
  - destruct (confirms (data resp)); [split; reflexivity|].
    unfold lift. destruct (ToString (data resp)) as [printed|e]; [split; reflexivity|].
    destruct (status_is e 401); split; reflexivity.
  - destruct (status_is e 401); split; reflexivity.
Qed.

Lemma getPendingOrders_tokens s :
  token (snd (getPendingOrders net s)) = token s
  /\ mt5Token (snd (getPendingOrders net s)) = mt5Token s.
Proof.
  unfold getPendingOrders, bind, gets, try_catch, axios_get.
  destruct (has_token s); cbn [negb]; [|split; reflexivity].
  destruct (settle _) as [resp|e]; cbn.
  - destruct (data resp); split; reflexivity.
  - destruct (status_is e 401); split; reflexivity.
Qed.

Lemma connect_agrees c s :
  token s = mt5Token s -> token (snd (connect net c s)) = mt5Token (snd (connect net c s)).
Proof.
  intros H. unfold connect, try_catch, bind, gets, axios_get.
  destruct (String.eqb (apiKey s) ""); [exact H|].
  destruct ((String.length (apiKey s) <? 10)%nat); [exact H|].
  assert (Hcatch : forall (e : error) (s1 : state),
            token s1 = mt5Token s1 ->
            token (snd (let (r, s') := lift (connect_error_message e) s1 in
                        match r with
                        | Ok a => ret (mkConnectionResponse false None (Str a)) s'
                        | Throw e0 => (Throw e0, s')
                        end))
            = mt5Token (snd (let (r, s') := lift (connect_error_message e) s1 in
                             match r with
                             | Ok a => ret (mkConnectionResponse false None (Str a)) s'
                             | Throw e0 => (Throw e0, s')
                             end))).
  { intros e s1 H1. unfold lift. destruct (connect_error_message e); exact H1. }
  destruct (settle _) as [resp|e]; [|apply Hcatch; exact H].
  destruct (data resp); try exact H.
  destruct ((10 <? String.length s0)%nat); [reflexivity | exact H].
Qed.

(** X18.  In the class-based service the token in memory and the token
    in [localStorage] agree after construction, whatever [localStorage]
    held, and after every sequence of calls to [connect], [disconnect],
    [getStoredToken], [getPendingOrders] and [closePosition]. *)
Theorem class_token_agreement (env_url env_key stored : option string)
    (calls : list call) :
  let s := fold_left (fun s c => perform net c s) calls
             (constructor env_url env_key stored) in
  token s = mt5Token s.
Proof.
  cbv zeta.
  assert (H0 : token (constructor env_url env_key stored)
               = mt5Token (constructor env_url env_key stored)) by reflexivity.
  revert H0. generalize (constructor env_url env_key stored).
  induction calls as [|c rest IH]; intros s Hs; simpl; [exact Hs|].
  apply IH. destruct c; cbn [perform].
  - apply connect_agrees, Hs.
  - reflexivity.
  - exact Hs.
  - destruct (getPendingOrders_tokens s) as [-> ->]. exact Hs.
  - destruct (closePosition_tokens ticket s) as [-> ->]. exact Hs.
Qed.

(** X19.  [closePosition] of the class-based service never throws and
    never touches the session, not even on a 401.  Without a token it
    fails before any request; with one it issues a single request to
    [/OrderClose], always with [lots] 0, and reports success exactly when
    the reply has a status in [200, 300) and the body [true], ['true'] or
    ['True']: a ticket number or a retcode in the body is a failure. *)
Theorem class_close_outcome (t : Q) (s : state) :
  exists r s',
    closePosition net t s = (Ok r, s')
    /\ token s' = token s /\ mt5Token s' = mt5Token s
    /\ (has_token s = false -> s' = s /\ close_success r = false)
    /\ (has_token s = true ->
        sent s' = (sent s ++ [close_request s t])%list
        /\ lookup "lots" (params (close_request s t)) = Some (Num 0)
        /\ close_success r = confirmed (net (sent s) (close_request s t))).
Proof.
  unfold closePosition. unfold bind at 1. unfold gets.
  destruct (has_token s); cbn [negb].
  2:{ eexists; eexists; split; [reflexivity|]. split; [reflexivity|].
      split; [reflexivity|]. split; [split; reflexivity | discriminate]. }
  unfold try_catch, bind, gets, axios_get. fold (close_request s t).
  unfold confirmed.
  destruct (net (sent s) (close_request s t)) as [st d|m cd]; cbn [settle].
  - destruct (((200 <=? st) && (st <? 300))%Z); cbn [andb data].
    + destruct (confirms d);
        [eexists; eexists; (split; [reflexivity|]); repeat split; discriminate|].
      unfold lift. destruct (ToString d) as [printed|e];
        [eexists; eexists; (split; [reflexivity|]); repeat split; discriminate|].
      destruct (status_is e 401); eexists; eexists; (split; [reflexivity|]);
        repeat split; discriminate.
    + destruct (status_is _ 401); eexists; eexists; (split; [reflexivity|]);
        repeat split; discriminate.
  - destruct (status_is _ 401); eexists; eexists; (split; [reflexivity|]);
      repeat split; discriminate.
Qed.

(** X20.  [getPendingOrders] throws in one case only: the bridge answers
    the request with status 401, and the error then speaks of a failed
    authentication.  Any other failure, and any body that is no array,
    comes out as the empty list; a list comes out as it is.  The session
    is never touched. *)
Theorem pending_orders_outcome (s : state) :
  token (snd (getPendingOrders net s)) = token s
  /\ mt5Token (snd (getPendingOrders net s)) = mt5Token s
  /\ (forall e, fst (getPendingOrders net s) = Throw e ->
        has_token s = true
        /\ (exists d, net (sent s) (pending_request s) = Reply 401 d)
        /\ e = newError
                 "Authentication failed. MT5 session may have expired. Please reconnect.")
  /\ (forall items, fst (getPendingOrders net s) = Ok items ->
        items = []
        \/ exists st, net (sent s) (pending_request s) = Reply st (Arr items)).
Proof.
  destruct (getPendingOrders_tokens s) as [Ht Hm].
  split; [exact Ht|]. split; [exact Hm|].
  unfold getPendingOrders, bind, gets, try_catch, axios_get. cbn beta.
  destruct (has_token s); cbn [negb].
  2:{ split; [intros e H; discriminate H|]. intros items H. inversion H. left. reflexivity. }
  change (mkRequest "GET" "/OrdersGet" [("id", Str (token_text s))])
    with (pending_request s).
  destruct (net (sent s) (pending_request s)) as [st d|m cd] eqn:W; cbn [settle].
  - destruct (((200 <=? st) && (st <? 300))%Z) eqn:E.
    + cbn [data]. split.
      * intros e H. destruct d; discriminate H.
      * intros items H. destruct d; inversion H; try (left; reflexivity).
        right. exists st. reflexivity.
    + unfold status_is. cbn [http_response].
      destruct (Z.eqb_spec st 401) as [->|Hne].
      * split.
        -- intros e H. inversion H. split; [reflexivity|]. split; [|reflexivity].
           exists d. reflexivity.
        -- intros items H. discriminate H.
      * split; [intros e H; discriminate H|].
        intros items H. inversion H. left. reflexivity.
  - unfold status_is. cbn [http_response]. split; [intros e H; discriminate H|].
    intros items H. inversion H. left. reflexivity.
Qed.

End ClassSession.

(** ** Orders of the object-literal service *)

Section SimpleOrder.
Import Simple.
Variable net : bridge.
Variable how : transport.



Lemma optional_lookup k k' x :
  lookup k (optional how k' x) = if String.eqb k k' then wire_value how x else None.
Proof.
  unfold optional, wire_value. destruct (given x); cbn [lookup].
  - destruct (String.eqb k k'); reflexivity.
  - destruct (String.eqb k k'); reflexivity.
Qed.

Lemma lookup_app k (a b : list (string * value)) :
  lookup k (a ++ b)%list = match lookup k a with
                           | Some v => Some v
                           | None => lookup k b
                           end.
Proof.
  induction a as [|[k' v] r IH]; simpl; [reflexivity|].
  destruct (String.eqb k k'); [reflexivity | exact IH].
Qed.

Lemma order_request_params id order :
  exists fixed,
    params (order_request how id order)
    = (fixed ++ optional how "price" (price order)
         ++ optional how "stoploss" (sl order)
         ++ optional how "takeprofit" (tp order))%list
    /\ lookup "price" fixed = None
    /\ lookup "stoploss" fixed = None
    /\ lookup "takeprofit" fixed = None.
Proof.
  unfold order_request. destruct how; eexists; (split; [reflexivity|]); repeat split.
Qed.

(** X22.  In [sendOrder] of the object-literal service the price, the
    stop loss and the take profit go out exactly when the field is given
    and is not 0, a negative value included; the enhanced service drops
    such a value. *)
Theorem simple_order_fields (id : string) (order : OrderRequest) :
  let ps := params (order_request how id order) in
  lookup "price" ps = wire_value how (price order)
  /\ lookup "stoploss" ps = wire_value how (sl order)
  /\ lookup "takeprofit" ps = wire_value how (tp order)
  /\ (forall q, q < 0 ->
        wire_value how (Some q) <> None
        /\ Enhanced.optional_param "stoploss" (Some q) = []).
Proof.
  cbv zeta.
  destruct (order_request_params id order) as [fixed [-> [F1 [F2 F3]]]].
  repeat rewrite lookup_app. rewrite F1, F2, F3.
  repeat rewrite optional_lookup. simpl String.eqb. cbv iota.
  split; [destruct (wire_value how (price order)); reflexivity|].
  split; [destruct (wire_value how (sl order)); reflexivity|].
  split; [destruct (wire_value how (tp order)); reflexivity|].
  intros q Hq. split.
  - unfold wire_value, given.
    destruct (Qeq_bool q 0) eqn:E; [|discriminate].
    apply Qeq_bool_iff in E. rewrite E in Hq. exfalso. revert Hq. apply Qlt_irrefl.
  - unfold Enhanced.optional_param.
    assert (Hg : Qgtb q 0 = false).
    { unfold Qgtb, Qltb. apply negb_false_iff. apply Qle_bool_iff.
      apply Qlt_le_weak. exact Hq. }
    rewrite Hg, andb_false_r. reflexivity.
Qed.

End SimpleOrder.

(** ** The store *)

Section StoreSymbols.
Import Store.

Lemma extensions_are_suffixes : extensions = Enhanced.broker_suffixes.
Proof. reflexivity. Qed.

Lemma has_extension_find symbol :
  has_extension symbol = false <->
  find (endsWith (toLowerCase symbol)) Enhanced.broker_suffixes = None.
Proof.
  unfold has_extension. rewrite extensions_are_suffixes.
  induction Enhanced.broker_suffixes as [|x l IH]; simpl; [split; reflexivity|].
  destruct (endsWith (toLowerCase symbol) x); simpl; [split; discriminate | exact IH].
Qed.

Lemma raw_has_extension symbol : has_extension (symbol ++ ".raw") = true.
Proof.
  unfold has_extension, extensions. cbn [existsb].
  rewrite toLowerCase_app. change (toLowerCase ".raw") with ".raw".
  rewrite endsWith_app. reflexivity.
Qed.

Lemma normalize_raw symbol : Enhanced.normalizeSymbol (symbol ++ ".raw") = symbol.
Proof.
  unfold Enhanced.normalizeSymbol, Enhanced.broker_suffixes. cbn [find].
  rewrite toLowerCase_app. change (toLowerCase ".raw") with ".raw".
  rewrite endsWith_app. rewrite length_app_string.
  replace (String.length symbol + String.length ".raw" - String.length ".raw")%nat
    with (String.length symbol) by lia.
  apply substring_app.
Qed.

(** X23.  What the store adds to a symbol is what the resolver strips:
    for every symbol and every type of account, normalizing the symbol
    [getMT5Symbol] gives is normalizing the symbol itself.  The store adds
    [.raw] at most once: [getMT5Symbol] is idempotent, and its result
    starts with the symbol it was given. *)
Theorem store_suffix_round_trip (symbol : string) (accountType : option account) :
  Enhanced.normalizeSymbol (getMT5Symbol symbol accountType)
  = Enhanced.normalizeSymbol symbol
  /\ getMT5Symbol (getMT5Symbol symbol accountType) accountType
     = getMT5Symbol symbol accountType
  /\ String.prefix symbol (getMT5Symbol symbol accountType) = true.
Proof.
  assert (Hp : String.prefix symbol symbol = true).
  { rewrite <- (append_nil_r symbol) at 2. apply prefix_app. }
  assert (Hcases : getMT5Symbol symbol accountType = symbol
                   \/ (getMT5Symbol symbol accountType = symbol ++ ".raw"
                       /\ has_extension symbol = false)).
  { unfold getMT5Symbol. destruct (is_special symbol); [left; reflexivity|].
    destruct accountType as [[| |]|]; try (left; reflexivity).
    destruct (has_extension symbol); [left; reflexivity | right; split; reflexivity]. }
  destruct Hcases as [H|[H E]]; rewrite H.
  - split; [reflexivity|]. split; [exact H | exact Hp].
  - split; [|split; [|apply prefix_app]].
    + rewrite normalize_raw. apply has_extension_find in E.
      unfold Enhanced.normalizeSymbol. rewrite E. reflexivity.
    + unfold getMT5Symbol. rewrite raw_has_extension. cbn [negb].
      destruct (is_special (symbol ++ ".raw")); [reflexivity|].
      destruct accountType as [[| |]|]; reflexivity.
Qed.

(** X24.  [forceClosePosition] never finds the profit it looks for: the
    position is removed from the cache before it is looked up there, so
    the profit read ahead of the close is always 0. *)
Theorem profit_is_never_captured (ticket : Q) (positions : list Enhanced.Position) :
  profitBeforeClose ticket positions = Num 0
  /\ find (fun p => strict_eq_num (Enhanced.ticket p) ticket)
       (removeClosedPositionFromCache ticket positions) = None.
Proof.
  assert (H : find (fun p => strict_eq_num (Enhanced.ticket p) ticket)
                (removeClosedPositionFromCache ticket positions) = None).
  { unfold removeClosedPositionFromCache.
    induction positions as [|p rest IH]; simpl; [reflexivity|].
    destruct (strict_eq_num (Enhanced.ticket p) ticket) eqn:E; simpl; [exact IH|].
    rewrite E. exact IH. }
  unfold profitBeforeClose. cbv zeta. rewrite H. split; reflexivity.
Qed.

End StoreSymbols.

(** ** Orders and account information of the enhanced service *)

Section Orders.
Import Enhanced.
Variable net : bridge.

Lemma resolve_cases sym s :
  exists x s1,
    resolve_and_subscribe net sym s = (Ok x, s1)
    /\ (x = sym \/ fst (findMatchingSymbol net sym s) = Ok (Some x)).
Proof.
  unfold resolve_and_subscribe, bind.
  destruct (try_catch_returns
              (connected_now <- gets has_token ;;
               if negb connected_now then
                 throw (newError "Not authenticated. Please login first.")
               else
                 allSymbols <- getSymbols net ;;
                 match allSymbols with
                 | [] => ret None
                 | _ => ret (bestMatch sym allSymbols)
                 end)
              (fun _ => ret None)
              (fun e s0 => ex_intro _ None (ex_intro _ s0 eq_refl)) s) as [m [s1 Hm]].
  change (findMatchingSymbol net sym s = (Ok m, s1)) in Hm. rewrite Hm.
  destruct m as [actual|]; [|eexists; eexists; split; [reflexivity | left; reflexivity]].
  destruct (String.eqb actual "");
    [eexists; eexists; split; [reflexivity | left; reflexivity]|].
  destruct (try_catch_returns
              (connected_now <- gets has_token ;;
               if negb connected_now then
                 throw (newError "Not authenticated. Please login first.")
               else
                 id <- gets token_value ;;
                 response <- api_get net "/Subscribe" [("id", id); ("symbol", Str actual)] ;;
                 ret (is_ok_status response))
              (fun _ => ret false)
              (fun e s0 => ex_intro _ false (ex_intro _ s0 eq_refl)) s1) as [b [s2 Hb]].
  change (subscribeSymbol net actual s1 = (Ok b, s2)) in Hb. rewrite Hb.
  eexists; eexists; split; [reflexivity | right; reflexivity].
Qed.

(** X25.  With a session, [sendOrder] ends its requests with the one to
    [/OrderSend], and the symbol of that request is the symbol asked for
    or one of the symbols the bridge has published: the order never goes
    out for a symbol that comes from neither. *)
Theorem order_goes_to_listed_symbol (o : OrderRequest) (s : state) :
  has_token s = true ->
  exists x s1,
    resolve_and_subscribe net (request_symbol o) s = (Ok x, s1)
    /\ sent (snd (sendOrder net o s)) = (sent s1 ++ [order_request s1 x o])%list
    /\ lookup "symbol" (params (order_request s1 x o)) = Some (Str x)
    /\ (x = request_symbol o
        \/ exists allSymbols, fst (getSymbols net s) = Ok allSymbols /\ In x allSymbols).
Proof.
  intros Ht. destruct (resolve_cases (request_symbol o) s) as [x [s1 [Hr Hx]]].
  exists x, s1. split; [exact Hr|]. split; [|split; [reflexivity|]].
  - unfold sendOrder. rewrite handler_log.
    2:{ intros e s0. unfold bind. destruct (is_auth_error e); reflexivity. }
    unfold bind at 1. unfold gets. rewrite Ht. cbn [negb].
    unfold bind at 1. rewrite Hr. unfold bind at 1. unfold bind at 1.
    unfold api_get. fold (order_request s1 x o).
    destruct (settle (net (sent s1) (order_request s1 x o))) as [resp|e]; [|reflexivity].
    destruct (is_ok_status resp); [|reflexivity].
    unfold lift. reflexivity.
  - destruct Hx as [Hx|Hx]; [left; exact Hx | right].
    destruct (findMatchingSymbol_some net _ _ _ Hx) as [allSymbols [Hs Hb]].
    exists allSymbols. split; [exact Hs|]. eapply bestMatch_listed. exact Hb.
Qed.

(** X26.  The account details are optional.  When the summary comes back
    with status 200 or 201 and an object, and the request for the details
    fails, with whatever error, a status 401 included, [getAccountInfo]
    still returns the account: number, name and server empty, leverage 1,
    the balance from the summary.  Both requests have gone out, and the
    session is as it was. *)
Theorem account_details_are_optional (s : state) (summary : response)
    (fields : list (string * value)) (e : error) :
  has_token s = true ->
  settle (net (sent s) (summary_request s)) = Ok summary ->
  is_ok_status summary = true ->
  data summary = Obj fields ->
  settle (net (sent s ++ [summary_request s])%list (details_request s)) = Throw e ->
  exists info s',
    getAccountInfo net s = (Ok (Some info), s')
    /\ untouched s s'
    /\ sent s' = (sent s ++ [summary_request s; details_request s])%list
    /\ account_number info = Str "" /\ accountName info = Str ""
    /\ account_server info = Str "" /\ leverage info = Num 1
    /\ balance info = or_else (get_opt (Obj fields) "balance") (Num 0).
Proof.
  intros Ht Hs Hok Hd He.
  unfold getAccountInfo, try_catch, bind, gets, settled, api_get, lift.
  rewrite Ht. cbn [negb]. fold (summary_request s). rewrite Hs.
  cbn [sent log_request token_value token]. fold (token_value s).
  fold (details_request s). rewrite He. cbn [ret].
  rewrite Hok, Hd. cbn [truthy andb is_ok_status status Z.eqb orb data get].
  eexists; eexists. split; [reflexivity|].
  split; [split; reflexivity|]. split; [cbn; rewrite <- app_assoc; reflexivity|].
  repeat split.
Qed.

End Orders.

(** ** Trades of the class-based service *)

Section ClassicTrade.
Import Classic.
Variable net : bridge.

(** X27.  [executeTrade] never throws and never touches the token.
    Without a token it fails before any request.  With one it issues a
    single request to [/OrderSend] and reports success exactly when the
    reply has a status in [200, 300) and a body that is truthy and
    greater than 0; the body is then the ticket. *)
Theorem trade_outcome (symbol : string) (type : orderType) (volume : Q)
    (price stopLoss takeProfit : option Q) (comment : option string) (s : state) :
  exists r s',
    executeTrade net symbol type volume price stopLoss takeProfit comment s = (Ok r, s')
    /\ token s' = token s
    /\ (has_token s = false -> s' = s /\ success r = false)
    /\ (has_token s = true ->
        let rq := trade_request s symbol type volume price stopLoss takeProfit comment in
        sent s' = (sent s ++ [rq])%list
        /\ match executed (net (sent s) rq) with
           | Some d => success r = true /\ ticket r = Some d
           | None => success r = false /\ ticket r = None
           end).
Proof.
  unfold executeTrade. unfold bind at 1. unfold gets.
  destruct (has_token s); cbn [negb].
  2:{ eexists; eexists; split; [reflexivity|]. split; [reflexivity|].
      split; [split; reflexivity | discriminate]. }
  unfold try_catch, bind, gets, axios_get. cbv zeta.
  fold (token_text s).
  fold (trade_request s symbol type volume price stopLoss takeProfit comment).
  unfold executed.
  destruct (net (sent s) (trade_request s symbol type volume price stopLoss takeProfit comment))
    as [st d|m cd]; cbn [settle].
  - destruct (((200 <=? st) && (st <? 300))%Z); cbn [andb data].
    + unfold positive, lift.
      destruct (truthy d); cbn [andb];
        [destruct (gt0 d) as [[|]|e]|];
        repeat match goal with
               | |- context [match ToString ?x with _ => _ end] => destruct (ToString x)
               | |- context [if ?b then ret _ else ret _] => destruct b
               end;
        eexists; eexists; (split; [reflexivity|]); repeat split; discriminate.
    + match goal with
      | |- context [if ?b then _ else _] => destruct b
      end; eexists; eexists; (split; [reflexivity|]); repeat split; discriminate.
  - match goal with
    | |- context [if ?b then _ else _] => destruct b
    end; eexists; eexists; (split; [reflexivity|]); repeat split; discriminate.
Qed.

End ClassicTrade.

(** ** Opening a session in the object-literal service *)

Section SimpleConnect.
Import SimpleSession.
Variable net : bridge.
Variable apiKey : string.
Variable statusText : Z -> string.

(** X28.  [connect] of the object-literal service never throws and issues
    one request.  It reports success whenever the request completes with a
    body that is neither [null] nor [undefined], and then keeps whatever
    the body holds under [token] as the token, [undefined] included: a
    reply without a token is reported as a success that leaves the service
    not connected.  On a failure the token is as it was. *)
Theorem simple_connect_trusts_reply (c : Credentials) (s : state) :
  exists r s',
    connect net apiKey statusText c s = (Ok r, s')
    /\ sent s' = (sent s ++ [connect_request apiKey c])%list
    /\ match accepted (net (sent s) (connect_request apiKey c)) with
       | Some tok =>
           success r = true /\ token r = tok /\ mt5Token s' = tok
           /\ (truthy tok = false -> not_connected s' = true)
       | None => success r = false /\ token r = Null /\ mt5Token s' = mt5Token s
       end.
Proof.
  unfold connect, try_catch, bind, axios_get, lift, modify, accepted.
  change (mkRequest "GET" "/ConnectEx" (params (connect_request apiKey c)))
    with (connect_request apiKey c).
  destruct (net (sent s) (connect_request apiKey c)) as [st d|m cd]; cbn [settle].
  - destruct (((200 <=? st) && (st <? 300))%Z); cbn [data].
    + destruct d; cbn [get get_opt];
        eexists; eexists; (split; [reflexivity|]); (split; [reflexivity|]);
        repeat split; unfold not_connected; cbn [mt5Token]; intros ->; reflexivity.
    + eexists; eexists; split; [reflexivity|]. split; [reflexivity|]. repeat split.
  - eexists; eexists; split; [reflexivity|]. split; [reflexivity|]. repeat split.
Qed.

End SimpleConnect.

(** ** What a reported success rests on *)

Section Evidence.
Import Enhanced.
Variable net : bridge.

(** X29.  [sendOrder] reports retcode 10009 only on the strength of a
    reply: there is a session, the request to [/OrderSend] came back with
    status 200 or 201, and the response is the one the normalizer gives
    for the body of that reply.  No failure of the transport, and no
    missing session, is ever reported as an accepted order. *)
Theorem accepted_order_rests_on_reply (o : OrderRequest) (s s' : state)
    (r : OrderResponse) :
  sendOrder net o s = (Ok r, s') ->
  num_eq (retcode r) 10009 = true ->
  has_token s = true
  /\ exists x s1 response,
       resolve_and_subscribe net (request_symbol o) s = (Ok x, s1)
       /\ settle (net (sent s1) (order_request s1 x o)) = Ok response
       /\ is_ok_status response = true
       /\ parseOrderResponse (data response) "OrderSend" = Ok r.
Proof.
  destruct (resolve_cases net (request_symbol o) s) as [x [s1 [Hr _]]].
  unfold sendOrder, try_catch. unfold bind at 1. unfold gets.
  destruct (has_token s); cbn [negb].
  2:{ intros H Hq. inversion H; subst. discriminate Hq. }
  unfold bind at 1. rewrite Hr. unfold bind at 1. unfold bind at 1.
  unfold api_get. fold (order_request s1 x o).
  destruct (settle (net (sent s1) (order_request s1 x o))) as [resp|e] eqn:Hw.
  - destruct (is_ok_status resp) eqn:Hok.
    + unfold lift.
      destruct (parseOrderResponse (data resp) "OrderSend") as [r0|e0] eqn:Hp.
      * intros H Hq. inversion H; subst. split; [reflexivity|].
        exists x, s1, resp. repeat split; assumption.
      * unfold bind. destruct (is_auth_error e0); intros H Hq; inversion H; subst;
          discriminate Hq.
    + intros H Hq. inversion H; subst. discriminate Hq.
  - unfold bind. destruct (is_auth_error e); intros H Hq; inversion H; subst;
      discriminate Hq.
Qed.





End Evidence.


(** ** The further properties at work *)

Lemma session_survives_reload_witness :
  exists r s',
    Enhanced.connect Scenario.welcoming Scenario.credentials Scenario.fresh = (Ok r, s')
    /\ Enhanced.success r = true
    /\ Enhanced.token (Enhanced.constructor None None (Enhanced.mt5_token s'))
       = Some "abcdef-0123456789"
    /\ Enhanced.has_token (Enhanced.constructor None None (Enhanced.mt5_token s')) = true.
Proof.
  eexists; eexists. split; [vm_compute; reflexivity|]. split; [reflexivity|].
  destruct (session_survives_reload Scenario.welcoming Scenario.credentials
              Scenario.fresh _ _ None None eq_refl eq_refl) as [H1 [H2 _]].
  split; [exact H1 | exact H2].
Defined.

Lemma session_only_ends_witness :
  Enhanced.installs_token (Enhanced.ClosePosition 12345 None) = false
  /\ Enhanced.kept_or_ended Scenario.session
       (Enhanced.perform Scenario.refusing "" (Enhanced.ClosePosition 12345 None)
          Scenario.session).
Proof.
  split; [reflexivity|].
  apply (session_only_ends Scenario.refusing "" (Enhanced.ClosePosition 12345 None)
           Scenario.session).
  reflexivity.
Defined.

Lemma no_token_no_request_witness :
  Enhanced.has_token Scenario.fresh = false
  /\ Enhanced.is_connect (Enhanced.SendOrder Scenario.gold_order) = false
  /\ Enhanced.sent (Enhanced.perform Scenario.friendly ""
                      (Enhanced.SendOrder Scenario.gold_order) Scenario.fresh)
     = Enhanced.sent Scenario.fresh.
Proof.
  split; [reflexivity|]. split; [reflexivity|].
  apply (no_token_no_request Scenario.friendly "" (Enhanced.SendOrder Scenario.gold_order)
           Scenario.fresh); reflexivity.
Defined.


Lemma candidates_never_empty_witness :
  Enhanced.volumeFormats (Some 0.5) None
  = Ok [Enhanced.mkFormat (Num 0.5) "Provided volume"]
  /\ Enhanced.uniqueFormats [Enhanced.mkFormat (Num 0.5) "Provided volume"]
     = Ok [Enhanced.mkFormat (Num 0.5) "Provided volume"]
  /\ (1 <= 1 <= 19)%nat.
Proof.
  split; [reflexivity|]. split; [reflexivity|].
  destruct (candidates_never_empty (Some 0.5) None
              [Enhanced.mkFormat (Num 0.5) "Provided volume"]
              [Enhanced.mkFormat (Num 0.5) "Provided volume"] eq_refl eq_refl)
    as [Hmost [_ Hleast]].
  split; [|exact Hmost].
  apply (Hleast (or_intror (or_introl eq_refl))).
Defined.

Lemma close_after_refused_listing_witness :
  Enhanced.has_token Scenario.session = true
  /\ Scenario.refusing (Enhanced.sent Scenario.session)
       (Enhanced.positions_request Scenario.session)
     = Reply 401 (Str "Unauthorized")
  /\ exists candidates r s' n,
       (let? formats := Enhanced.volumeFormats None None in
        Enhanced.uniqueFormats formats) = Ok candidates
       /\ Enhanced.closePosition Scenario.refusing 12345 None Scenario.session
          = (Ok r, s')
       /\ Enhanced.ended s'
       /\ (1 <= n <= List.length candidates)%nat
       /\ Enhanced.sent s'
          = (Enhanced.sent Scenario.session
               ++ Enhanced.positions_request Scenario.session
               :: map (Enhanced.anonymous_close 12345) (firstn n candidates))%list.
Proof.
  split; [reflexivity|]. split; [reflexivity|].
  apply (close_after_refused_listing Scenario.refusing 12345 None Scenario.session
           (Str "Unauthorized")); reflexivity.
Defined.

Lemma failed_read_rethrows_witness :
  Enhanced.has_token Scenario.session = true
  /\ fst (Enhanced.getSymbols Scenario.refusing Scenario.session)
     = Throw (newError "Request failed with status code 401")
  /\ Enhanced.ended (snd (Enhanced.getSymbols Scenario.refusing Scenario.session)).
Proof.
  split; [reflexivity|].
  destruct (failed_read_rethrows Scenario.refusing Scenario.session
              (mkError "Request failed with status code 401" (Some "ERR_BAD_REQUEST")
                 (Some (401%Z, Str "Unauthorized")))
              eq_refl) as [H1 [_ H3]].
  rewrite (H1 eq_refl). split; [reflexivity|]. apply H3. reflexivity.
Defined.

Lemma refused_order_witness :
  Enhanced.has_token Scenario.session = true
  /\ exists r s',
       Enhanced.sendOrder Scenario.refusing_orders Scenario.euro_order Scenario.session
       = (Ok r, s')
       /\ Enhanced.retcode r = 10004
       /\ Enhanced.ended s'.
Proof.
  split; [reflexivity|].
  edestruct (refused_order_ends_session Scenario.refusing_orders Scenario.euro_order
               Scenario.session) as [H1 H2].
  - reflexivity.
  - vm_compute. reflexivity.
  - vm_compute. reflexivity.
  - eexists; eexists. split; [exact H1|]. split; [reflexivity|]. apply H2. reflexivity.
Defined.

Lemma resolved_symbol_is_listed_witness :
  fst (Enhanced.findMatchingSymbol Scenario.gold_broker "XAUUSD" Scenario.session)
  = Ok (Some "GOLD")
  /\ exists allSymbols,
       fst (Enhanced.getSymbols Scenario.gold_broker Scenario.session) = Ok allSymbols
       /\ In "GOLD" allSymbols.
Proof.
  split; [reflexivity|].
  apply (resolved_symbol_is_listed Scenario.gold_broker "XAUUSD" "GOLD" Scenario.session).
  reflexivity.
Defined.

Lemma report_is_sound_witness :
  Enhanced.parseOrderResponse (Obj [("retcode", Str "0"); ("order", Num 5)]) "OrderSend"
  = Ok (Enhanced.mkOrderResponse 10004 None
          (Str "OrderSend failed with retcode: 0") None)
  /\ num_eq 10004 0 = false.
Proof.
  split; [reflexivity|].
  apply (report_is_sound (Obj [("retcode", Str "0"); ("order", Num 5)]) "OrderSend"
           (Enhanced.mkOrderResponse 10004 None
              (Str "OrderSend failed with retcode: 0") None)).
  reflexivity.
Defined.

Lemma order_goes_to_listed_symbol_witness :
  Enhanced.has_token Scenario.session = true
  /\ exists x s1,
       Enhanced.resolve_and_subscribe Scenario.gold_broker "XAUUSD" Scenario.session
       = (Ok x, s1)
       /\ x = "GOLD"
       /\ Enhanced.sent (snd (Enhanced.sendOrder Scenario.gold_broker Scenario.gold_order
                                Scenario.session))
          = (Enhanced.sent s1 ++ [Enhanced.order_request s1 x Scenario.gold_order])%list.
Proof.
  split; [reflexivity|].
  destruct (order_goes_to_listed_symbol Scenario.gold_broker Scenario.gold_order
              Scenario.session eq_refl) as [x [s1 [H1 [H2 _]]]].
  exists x, s1. split; [exact H1|]. split; [|exact H2].
  vm_compute in H1. inversion H1. reflexivity.
Defined.

Lemma account_details_are_optional_witness :
  Enhanced.has_token Scenario.session = true
  /\ exists info s',
       Enhanced.getAccountInfo Scenario.summary_only Scenario.session = (Ok (Some info), s')
       /\ Enhanced.untouched Scenario.session s'
       /\ Enhanced.leverage info = Num 1
       /\ Enhanced.balance info = Num 1000.
Proof.
  split; [reflexivity|].
  edestruct (account_details_are_optional Scenario.summary_only Scenario.session)
    as [info [s' [H1 [H2 [_ [_ [_ [_ [H3 H4]]]]]]]]].
  - reflexivity.
  - vm_compute. reflexivity.
  - reflexivity.
  - reflexivity.
  - vm_compute. reflexivity.
  - exists info, s'. split; [exact H1|]. split; [exact H2|]. split; [exact H3|].
    rewrite H4. reflexivity.
Defined.

Lemma accepted_order_witness :
  exists r s',
    Enhanced.sendOrder Scenario.gold_broker Scenario.gold_order Scenario.session = (Ok r, s')
    /\ num_eq (Enhanced.retcode r) 10009 = true
    /\ Enhanced.has_token Scenario.session = true.
Proof.
  destruct (Enhanced.sendOrder Scenario.gold_broker Scenario.gold_order Scenario.session)
    as [[r|e] s'] eqn:E; [|vm_compute in E; discriminate E].
  exists r, s'. split; [reflexivity|].
  assert (Hq : num_eq (Enhanced.retcode r) 10009 = true)
    by (vm_compute in E; inversion E; reflexivity).
  split; [exact Hq|].
  apply (accepted_order_rests_on_reply Scenario.gold_broker Scenario.gold_order
           Scenario.session s' r E Hq).
Defined.

